(** * geo-viz-explorer: the interaction and state core

    A shallow embedding of [src/utils/dataProcessing.js],
    [src/utils/projection.js], [src/utils/selection.js] and the state
    handling of the [GeoMapWidget] class, followed by the properties of
    the specification that concern them.

    JavaScript numbers that the code compares against thresholds (zoom
    scale, coordinates) are IEEE binary64 floats ([PrimFloat.float]);
    counts, hierarchy levels and indices are integers ([Z], [nat]). *)

From Stdlib Require Import ZArith List String Bool Lia Permutation.
From Stdlib Require Import Floats DecimalString.
Import ListNotations.

Set Warnings "-register-all,-inexact-float".
Local Open Scope Z_scope.
Local Open Scope string_scope.
Local Open Scope list_scope.

(** ** JavaScript values and built-ins *)

Module Js.

(** The values a coordinate component can hold. *)
Inductive value : Type :=
| Num (x : float)
| Str (s : string)
| Boolean (b : bool)
| Null
| Undefined.

(** [typeof v === 'number'] *)
Definition isNumber (v : value) : bool :=
  match v with Num _ => true | _ => false end.

Section Conversions.

(** The runtime's conversion of a string to a number (StringToNumber of
    the language standard); it is a built-in, not part of the
    repository, and is left abstract. *)
Variable StringToNumber : string -> float.

(** ToNumber, as applied by [<] and [>] when the other operand is a
    number. *)
Definition ToNumber (v : value) : float :=
  match v with
  | Num x => x
  | Str s => StringToNumber s
  | Boolean true => 1%float
  | Boolean false => 0%float
  | Null => 0%float
  | Undefined => nan
  end.

(** [v < c] and [v > c] for a numeric constant [c]. *)
Definition lt (v : value) (c : float) : bool := PrimFloat.ltb (ToNumber v) c.
Definition gt (v : value) (c : float) : bool := PrimFloat.ltb c (ToNumber v).

End Conversions.

(** A string is truthy when it is not empty. *)
Definition truthy (s : string) : bool := negb (s =? "").

(** Template-literal rendering of an array index and of an integer. *)
Definition showNat (n : nat) : string := NilZero.string_of_uint (Nat.to_uint n).
Definition showZ (z : Z) : string := NilZero.string_of_int (Z.to_int z).

Section ArrayMethods.
Context {A B S : Type}.

(** [arr.forEach((x, i) => ...)] threading the state the callback
    mutates; [i] is the index of the first element. *)
Variable body : A -> nat -> S -> S.

Fixpoint forEachFrom (i : nat) (arr : list A) (s : S) : S :=
  match arr with
  | [] => s
  | x :: rest => forEachFrom (Datatypes.S i) rest (body x i s)
  end.

Definition forEach : list A -> S -> S := forEachFrom 0%nat.

(** [for (const x of arr) { const r = f(x); if (r) return r; }] for an
    [f] whose results are [null] or truthy. *)
Variable f : A -> option B.

Fixpoint firstResult (arr : list A) : option B :=
  match arr with
  | [] => None
  | x :: rest => match f x with Some r => Some r | None => firstResult rest end
  end.

(** [arr.map(f).filter(r => r !== null)] *)
Fixpoint mapNonNull (arr : list A) : list B :=
  match arr with
  | [] => []
  | x :: rest => match f x with Some r => r :: mapNonNull rest | None => mapNonNull rest end
  end.

End ArrayMethods.

(** [Math.min(a, b)] and [Math.max(a, b)] on numbers: NaN when an
    argument is NaN, and [-0] below [+0]. *)
Definition isNegativeZero (a : float) : bool :=
  match PrimFloat.classify a with NZero => true | _ => false end.

Definition isPositiveZero (a : float) : bool :=
  match PrimFloat.classify a with PZero => true | _ => false end.

Definition Math_min (a b : float) : float :=
  if PrimFloat.is_nan a || PrimFloat.is_nan b then nan
  else if PrimFloat.ltb a b then a
  else if PrimFloat.ltb b a then b
  else if isNegativeZero a then a else b.

Definition Math_max (a b : float) : float :=
  if PrimFloat.is_nan a || PrimFloat.is_nan b then nan
  else if PrimFloat.ltb b a then a
  else if PrimFloat.ltb a b then b
  else if isPositiveZero a then a else b.

Section Loops.
Context {A : Type}.

(** [for (const x of arr) { const r = f(x); if (r > 0) return r; }
    return 0;] *)
Variable f : A -> Z.

Fixpoint firstPositive (arr : list A) : Z :=
  match arr with
  | [] => 0%Z
  | x :: rest => if (f x >? 0)%Z then f x else firstPositive rest
  end.


End Loops.

End Js.

(** ** The order of binary64 numbers

    Every number but NaN has a key, a triple of integers compared
    lexicographically: sign class, then exponent, then mantissa, the
    last two negated for negative numbers. *)

Module FloatKey.

Definition key (f : SpecFloat.spec_float) : option (Z * Z * Z) :=
  match f with
  | SpecFloat.S754_nan => None
  | SpecFloat.S754_infinity s => Some (if s then (-2)%Z else 2%Z, 0%Z, 0%Z)
  | SpecFloat.S754_zero _ => Some (0%Z, 0%Z, 0%Z)
  | SpecFloat.S754_finite s m e =>
      Some (if s then ((-1)%Z, (- e)%Z, Z.neg m) else (1%Z, e, Z.pos m))
  end.

Definition lex (a b : Z * Z * Z) : comparison :=
  match a, b with
  | (s1, e1, m1), (s2, e2, m2) =>
      match (s1 ?= s2)%Z with
      | Eq => match (e1 ?= e2)%Z with Eq => (m1 ?= m2)%Z | c => c end
      | c => c
      end
  end.

Definition leK (a b : Z * Z * Z) : bool :=
  match lex a b with Gt => false | _ => true end.
Definition ltK (a b : Z * Z * Z) : bool :=
  match lex a b with Lt => true | _ => false end.
Definition eqK (a b : Z * Z * Z) : bool :=
  match lex a b with Eq => true | _ => false end.

Definition keyOf (x : float) : option (Z * Z * Z) := key (Prim2SF x).

End FloatKey.

(** ** The data model *)

Module Geo.

Record Property : Type := mkProperty {
  propertyKey : string;
  propertyValue : string
}.

(** [geometry.coordinates]: [None] when the field is missing or is not
    an array. *)
Record Geometry : Type := mkGeometry {
  coordinates : option (list Js.value)
}.

(** A node of the hierarchy.  A missing [id] or [label] is the empty
    string (both are falsy); [properties], [geometry] and [children] are
    [None] when the field is absent.  [_filteredCount] is the field that
    [filterData] injects. *)
Inductive GeoNode : Type := mkGeoNode {
  id : string;
  label : string;
  properties : option (list Property);
  geometry : option Geometry;
  children : option (list GeoNode);
  _filteredCount : option Z
}.

(** The root object; [GeoLocations] is [None] when missing or not an
    array. *)
Record Data : Type := mkData {
  GeoLocations : option (list GeoNode)
}.

(** A filter set; a key is [None] when it is not given. *)
Record FilterSet : Type := mkFilterSet {
  region : option string;
  location : option string;
  datacentre : option string
}.

(** [{}] *)
Definition noFilters : FilterSet := mkFilterSet None None None.

(** [{ region: 'All', location: 'All', datacentre: 'All' }] *)
Definition allFilters : FilterSet :=
  mkFilterSet (Some "All") (Some "All") (Some "All").

(** A displayed node: [{ ...node, _parent, _level, _count }]. *)
Record Marker : Type := mkMarker {
  node : GeoNode;
  _parent : option GeoNode;
  _level : option Z;
  _count : option Z
}.

Definition markerId (m : Marker) : string := id (node m).

(** [{ ...marker, _level: level }] *)
Definition withLevel (level : Z) (m : Marker) : Marker :=
  mkMarker (node m) (_parent m) (Some level) (_count m).

End Geo.

(** ** src/utils/dataProcessing.js *)

Module DataProcessing.
Import Geo.

(** [getPropertyValue(node, propertyKey)]: the value of the first
    property with that key, [null] when there is none. *)
Definition getPropertyValue (node : GeoNode) (key : string) : option string :=
  match properties node with
  | None => None
  | Some props =>
      match find (fun p => propertyKey p =? key) props with
      | Some prop => Some (propertyValue prop)
      | None => None
      end
  end.

(** [nodeMatchesRegion(node, region)] *)
Definition nodeMatchesRegion (node : GeoNode) (region : string) : bool :=
  match getPropertyValue node "CategoryValue" with
  | Some nodeRegion =>
      if nodeRegion =? region then true
      else if label node =? region then true
      else false
  | None =>
      if label node =? region then true else false
  end.

(** [nodeMatchesLocation(node, location)] *)
Definition nodeMatchesLocation (node : GeoNode) (location : string) : bool :=
  label node =? location.

(** [key && key !== 'All']: the filter key is given and is not the
    wildcard. *)
Definition active (key : option string) : option string :=
  match key with
  | Some v => if Js.truthy v && negb (v =? "All") then Some v else None
  | None => None
  end.

(** [matchesFilters(node, filters)]: each active key that the node
    fails returns [false] early.  (The locals [nodeRegion] and
    [nodeLocation] of the source are never read.) *)
Definition matchesFilters (node : GeoNode) (filters : FilterSet) : bool :=
  if match active (region filters) with
     | Some r => negb (nodeMatchesRegion node r)
     | None => false
     end
  then false
  else if match active (location filters) with
          | Some l => negb (nodeMatchesLocation node l)
          | None => false
          end
  then false
  else if match active (datacentre filters) with
          | Some d => negb (label node =? d)
          | None => false
          end
  then false
  else true.

(** [!node.children || node.children.length === 0] *)
Definition isLeaf (node : GeoNode) : bool :=
  match children node with
  | Some (_ :: _) => false
  | _ => true
  end.

(** [calculateCounts(node, filters)] on a node that is not [null]. *)
Fixpoint calculateCounts (node : GeoNode) (filters : FilterSet) : Z :=
  match node with
  | mkGeoNode _ _ _ _ (Some ((_ :: _) as cs)) _ =>
      fold_left (fun count child => count + calculateCounts child filters) cs 0
  | _ => if matchesFilters node filters then 1 else 0
  end.

(** [child._filteredCount || 1] *)
Definition filteredCountOr1 (child : GeoNode) : Z :=
  match _filteredCount child with
  | Some c => if (c =? 0)%Z then 1 else c
  | None => 1
  end.

(** [{ ...node, children: cs, _filteredCount: c }] *)
Definition withChildren (node : GeoNode) (cs : list GeoNode) (c : Z) : GeoNode :=
  mkGeoNode (id node) (label node) (properties node) (geometry node) (Some cs) (Some c).

(** [{ ...node, _filteredCount: c }] *)
Definition withFilteredCount (node : GeoNode) (c : Z) : GeoNode :=
  mkGeoNode (id node) (label node) (properties node) (geometry node)
            (children node) (Some c).

(** The closure [filterNode(node, level)] of [filterData]; [None] is
    [null]. *)
Fixpoint filterNode (filters : FilterSet) (level : Z) (node : GeoNode)
  : option GeoNode :=
  let matchesRegion :=
    match active (region filters) with
    | None => true
    | Some r => nodeMatchesRegion node r
    end in
  match node with
  | mkGeoNode _ _ _ _ (Some ((_ :: _) as cs)) _ =>
      let filteredChildren := Js.mapNonNull (filterNode filters (level + 1)) cs in
      match filteredChildren with
      | _ :: _ =>
          Some (withChildren node filteredChildren
                  (fold_left (fun sum child => sum + filteredCountOr1 child)
                             filteredChildren 0))
      | [] =>
          if matchesRegion && (level =? 1)%Z then Some (withChildren node [] 0)
          else None
      end
  | _ =>
      if matchesFilters node filters then Some (withFilteredCount node 1)
      else None
  end.

(** [filterData(data, filters)]; the outer [None] is a [null] data
    object. *)
Definition filterData (data : option Data) (filters : FilterSet) : option Data :=
  match data with
  | None => data
  | Some d =>
      match GeoLocations d with
      | None => data
      | Some locations =>
          Some (mkData (Some (Js.mapNonNull (filterNode filters 1) locations)))
      end
  end.

(** The closure [collectNodes(node, currentLevel, parent)] of
    [getNodesAtLevel], returning the array [nodes] after its pushes. *)
Fixpoint collectNodes (level : Z) (node : GeoNode) (currentLevel : Z)
  (parent : option GeoNode) (nodes : list Marker) : list Marker :=
  if (currentLevel =? level)%Z then nodes ++ [mkMarker node parent None None]
  else
    match node with
    | mkGeoNode _ _ _ _ (Some cs) _ =>
        Js.forEach (fun child (_ : nat) acc =>
                      collectNodes level child (currentLevel + 1) (Some node) acc)
                   cs nodes
    | _ => nodes
    end.

(** [getNodesAtLevel(data, level)] *)
Definition getNodesAtLevel (data : option Data) (level : Z) : list Marker :=
  match data with
  | None => []
  | Some d =>
      match GeoLocations d with
      | None => []
      | Some locations =>
          Js.forEach (fun n (_ : nat) acc => collectNodes level n 1 None acc)
                     locations []
      end
  end.

(** The closure [findNode(node)] of [getChildrenOfNode]. *)
Fixpoint findNode (nodeId : string) (node : GeoNode) : option (list GeoNode) :=
  if id node =? nodeId then
    Some match children node with Some cs => cs | None => [] end
  else
    match node with
    | mkGeoNode _ _ _ _ (Some cs) _ => Js.firstResult (findNode nodeId) cs
    | _ => None
    end.

(** [getChildrenOfNode(data, nodeId)] *)
Definition getChildrenOfNode (data : option Data) (nodeId : string) : list GeoNode :=
  match data with
  | None => []
  | Some d =>
      match GeoLocations d with
      | None => []
      | Some locations =>
          match Js.firstResult (findNode nodeId) locations with
          | Some cs => cs
          | None => []
          end
      end
  end.

(** The closure [searchNode(node)] of [findNodeById]. *)
Fixpoint searchNode (nodeId : string) (node : GeoNode) : option GeoNode :=
  if id node =? nodeId then Some node
  else
    match node with
    | mkGeoNode _ _ _ _ (Some cs) _ => Js.firstResult (searchNode nodeId) cs
    | _ => None
    end.

(** [findNodeById(data, nodeId)] *)
Definition findNodeById (data : option Data) (nodeId : string) : option GeoNode :=
  match data with
  | None => None
  | Some d =>
      match GeoLocations d with
      | None => None
      | Some locations => Js.firstResult (searchNode nodeId) locations
      end
  end.

(** The closure [findLevel(node, currentLevel)] of [getNodeLevel]. *)
Fixpoint findLevel (nodeId : string) (node : GeoNode) (currentLevel : Z) : Z :=
  if id node =? nodeId then currentLevel
  else
    match node with
    | mkGeoNode _ _ _ _ (Some cs) _ =>
        Js.firstPositive (fun child => findLevel nodeId child (currentLevel + 1)) cs
    | _ => 0%Z
    end.

(** [getNodeLevel(data, nodeId)] *)
Definition getNodeLevel (data : option Data) (nodeId : string) : Z :=
  match data with
  | None => 0%Z
  | Some d =>
      match GeoLocations d with
      | None => 0%Z
      | Some locations =>
          Js.firstPositive (fun location => findLevel nodeId location 1) locations
      end
  end.

(** The closure [findParent(node, parent)] of [getParentNode]; a match
    at a root returns its [null] parent. *)
Fixpoint findParent (nodeId : string) (node : GeoNode) (parent : option GeoNode)
  : option GeoNode :=
  if id node =? nodeId then parent
  else
    match node with
    | mkGeoNode _ _ _ _ (Some cs) _ =>
        Js.firstResult (fun child => findParent nodeId child (Some node)) cs
    | _ => None
    end.

(** [getParentNode(data, nodeId)] *)
Definition getParentNode (data : option Data) (nodeId : string) : option GeoNode :=
  match data with
  | None => None
  | Some d =>
      match GeoLocations d with
      | None => None
      | Some locations =>
          Js.firstResult (fun location => findParent nodeId location None) locations
      end
  end.

(** The three [Set]s of [extractFilterOptions], in insertion order,
    and the object it returns. *)
Record FilterOptions : Type := mkFilterOptions {
  regions : list string;
  locations : list string;
  datacentres : list string
}.

(** [set.add(x)] *)
Definition Set_add (x : string) (set : list string) : list string :=
  if existsb (fun e => e =? x) set then set else set ++ [x].

(** [getPropertyValue(node, 'CategoryValue') || node.label] *)
Definition regionOf (node : GeoNode) : string :=
  match getPropertyValue node "CategoryValue" with
  | Some v => if Js.truthy v then v else label node
  | None => label node
  end.

(** What [processNode(node, level)] adds to the sets for the node
    itself. *)
Definition collectOptions (node : GeoNode) (level : Z) (sets : FilterOptions)
  : FilterOptions :=
  let sets :=
    if (level =? 1)%Z then
      if Js.truthy (regionOf node)
      then mkFilterOptions (Set_add (regionOf node) (regions sets))
                           (locations sets) (datacentres sets)
      else sets
    else sets in
  let sets :=
    if (level =? 2)%Z
    then mkFilterOptions (regions sets) (Set_add (label node) (locations sets))
                         (datacentres sets)
    else sets in
  if (level =? 3)%Z || isLeaf node
  then mkFilterOptions (regions sets) (locations sets)
                       (Set_add (label node) (datacentres sets))
  else sets.

(** The closure [processNode(node, level)] of [extractFilterOptions]. *)
Fixpoint processNode (node : GeoNode) (level : Z) (sets : FilterOptions)
  : FilterOptions :=
  let sets := collectOptions node level sets in
  match node with
  | mkGeoNode _ _ _ _ (Some cs) _ =>
      Js.forEach (fun child (_ : nat) acc => processNode child (level + 1) acc)
                 cs sets
  | _ => sets
  end.

Section FilterOptions.
(** [Array.prototype.sort] on strings, a built-in of the runtime. *)
Variable sort : list string -> list string.

(** [extractFilterOptions(data)] *)
Definition extractFilterOptions (data : option Data) : FilterOptions :=
  let sets :=
    match data with
    | None => mkFilterOptions [] [] []
    | Some d =>
        match GeoLocations d with
        | None => mkFilterOptions [] [] []
        | Some ls =>
            Js.forEach (fun n (_ : nat) acc => processNode n 1 acc)
                       ls (mkFilterOptions [] [] [])
        end
    end in
  mkFilterOptions ("All" :: sort (regions sets))
                  ("All" :: sort (locations sets))
                  ("All" :: sort (datacentres sets)).

End FilterOptions.

(** The messages [validateData] pushes, one constructor per template:
    - [DataNull]: "Data is null or undefined"
    - [MissingGeoLocations]: "Missing or invalid GeoLocations array"
    - [MissingId path]: "Missing id at ${path}"
    - [MissingLabel path]: "Missing label at ${path}"
    - [MissingGeometry path]: "Missing geometry at ${path}"
    - [InvalidCoordinates path]: "Invalid coordinates at ${path}"
    - [InvalidLongitude lon path]: "Invalid longitude ${lon} at ${path}"
    - [InvalidLatitude lat path]: "Invalid latitude ${lat} at ${path}" *)
Inductive ValidationError : Type :=
| DataNull
| MissingGeoLocations
| MissingId (path : string)
| MissingLabel (path : string)
| MissingGeometry (path : string)
| InvalidCoordinates (path : string)
| InvalidLongitude (lon : Js.value) (path : string)
| InvalidLatitude (lat : Js.value) (path : string).

Record ValidationResult : Type := mkValidationResult {
  isValid : bool;
  errors : list ValidationError
}.

(** [errors.push(e)] *)
Definition push (e : ValidationError) (errors : list ValidationError)
  : list ValidationError := errors ++ [e].

(** [const [lon, lat] = coordinates]: a missing element is
    [undefined]. *)
Definition element (i : nat) (coords : list Js.value) : Js.value :=
  nth i coords Js.Undefined.

(** [`${path}.children[${i}]`] and [`GeoLocations[${i}]`] *)
Definition childPath (path : string) (i : nat) : string :=
  (path ++ ".children[" ++ Js.showNat i ++ "]")%string.
Definition rootPath (i : nat) : string :=
  ("GeoLocations[" ++ Js.showNat i ++ "]")%string.

Section Validation.
Variable StringToNumber : string -> float.

(** The checks of [validateNode] on the node itself, in source order,
    threading the [errors] array. *)
Definition validateOwn (node : GeoNode) (path : string)
  (errors : list ValidationError) : list ValidationError :=
  let errors := if negb (Js.truthy (id node)) then push (MissingId path) errors
                else errors in
  let errors := if negb (Js.truthy (label node)) then push (MissingLabel path) errors
                else errors in
  match geometry node with
  | None => push (MissingGeometry path) errors
  | Some g =>
      match coordinates g with
      | None => push (InvalidCoordinates path) errors
      | Some coords =>
          if (List.length coords <? 2)%nat then push (InvalidCoordinates path) errors
          else
            let lon := element 0 coords in
            let lat := element 1 coords in
            let errors :=
              if Js.lt StringToNumber lon (-180)%float
                 || Js.gt StringToNumber lon 180%float
              then push (InvalidLongitude lon path) errors else errors in
            if Js.lt StringToNumber lat (-90)%float
               || Js.gt StringToNumber lat 90%float
            then push (InvalidLatitude lat path) errors else errors
      end
  end.

(** The closure [validateNode(node, path)] of [validateData]. *)
Fixpoint validateNode (node : GeoNode) (path : string)
  (errors : list ValidationError) : list ValidationError :=
  let errors := validateOwn node path errors in
  match node with
  | mkGeoNode _ _ _ _ (Some cs) _ =>
      Js.forEach (fun child i errs => validateNode child (childPath path i) errs)
                 cs errors
  | _ => errors
  end.

(** [validateData(data)] *)
Definition validateData (data : option Data) : ValidationResult :=
  match data with
  | None => mkValidationResult false (push DataNull [])
  | Some d =>
      match GeoLocations d with
      | None => mkValidationResult false (push MissingGeoLocations [])
      | Some locations =>
          let errors :=
            Js.forEach (fun n i errs => validateNode n (rootPath i) errs)
                       locations [] in
          mkValidationResult (List.length errors =? 0)%nat errors
      end
  end.

End Validation.

End DataProcessing.

(** ** src/utils/projection.js *)

Module ProjectionUtils.

(** [isValidCoordinate(longitude, latitude)] *)
Definition isValidCoordinate (longitude latitude : Js.value) : bool :=
  match longitude, latitude with
  | Js.Num lon, Js.Num lat =>
      if PrimFloat.is_nan lon || PrimFloat.is_nan lat then false
      else if PrimFloat.ltb lon (-180)%float || PrimFloat.ltb 180%float lon then false
      else if PrimFloat.ltb lat (-90)%float || PrimFloat.ltb 90%float lat then false
      else true
  | _, _ => false
  end.

(** The object [calculateBoundingBox] returns. *)
Record BBox : Type := mkBBox {
  minLon : float;
  maxLon : float;
  minLat : float;
  maxLat : float
}.

(** One turn of the [forEach] of [calculateBoundingBox] on the four
    running bounds; [[lon, lat]] are the first two elements of the
    point, [undefined] when missing.  Only numbers are valid, so the
    bounds are updated with numbers. *)
Definition extend (box : BBox) (point : list Js.value) : BBox :=
  match nth 0 point Js.Undefined, nth 1 point Js.Undefined with
  | Js.Num lon, Js.Num lat =>
      if isValidCoordinate (Js.Num lon) (Js.Num lat) then
        mkBBox (Js.Math_min (minLon box) lon) (Js.Math_max (maxLon box) lon)
               (Js.Math_min (minLat box) lat) (Js.Math_max (maxLat box) lat)
      else box
  | _, _ => box
  end.

(** [calculateBoundingBox(coordinates)]; [None] is [null], as argument
    and as result. *)
Definition calculateBoundingBox (coordinates : option (list (list Js.value)))
  : option BBox :=
  match coordinates with
  | None => None
  | Some [] => None
  | Some points =>
      let box := fold_left extend points
                           (mkBBox infinity neg_infinity infinity neg_infinity) in
      if PrimFloat.eqb (minLon box) infinity then None else Some box
  end.

Section Bounds.
Variable StringToNumber : string -> float.

(** [v >= c] and [v <= c] for a number [c]. *)
Definition ge (v : Js.value) (c : float) : bool :=
  PrimFloat.leb c (Js.ToNumber StringToNumber v).
Definition le (v : Js.value) (c : float) : bool :=
  PrimFloat.leb (Js.ToNumber StringToNumber v) c.

(** [isPointInBounds(coordinates, bounds)] *)
Definition isPointInBounds (coordinates : option (list Js.value))
  (bounds : option BBox) : bool :=
  match coordinates, bounds with
  | Some point, Some b =>
      let lon := nth 0 point Js.Undefined in
      let lat := nth 1 point Js.Undefined in
      ge lon (minLon b) && le lon (maxLon b)
      && ge lat (minLat b) && le lat (maxLat b)
  | _, _ => true
  end.

End Bounds.

End ProjectionUtils.

(** ** src/utils/selection.js *)

(** [Map<markerId, markerData>]: an association list in insertion
    order, with at most one entry per key. *)
Module JsMap.
Section Ops.
Context {V : Type}.

Definition t : Type := list (string * V).

Definition has (key : string) (m : t) : bool :=
  existsb (fun e => fst e =? key) m.

Definition get (key : string) (m : t) : option V :=
  match find (fun e => fst e =? key) m with
  | Some e => Some (snd e)
  | None => None
  end.

(** [m.set(key, v)]: an existing key keeps its place. *)
Fixpoint set (key : string) (v : V) (m : t) : t :=
  match m with
  | [] => [(key, v)]
  | e :: rest => if fst e =? key then (key, v) :: rest else e :: set key v rest
  end.

Definition delete (key : string) (m : t) : t :=
  filter (fun e => negb (fst e =? key)) m.

Definition size (m : t) : Z := Z.of_nat (List.length m).

Definition keys (m : t) : list string := map fst m.
Definition values (m : t) : list V := map snd m.

End Ops.
Arguments t : clear implicits.
End JsMap.

Module SelectionManager.
Import Geo.

Inductive Action : Type := added | replaced | removed.

Inductive Reason : Type :=
| already_selected | level_mismatch | max_selections | not_selected.

(** The object [isSelectionCompatible] returns. *)
Record Compatibility : Type := mkCompatibility {
  compatible : bool;
  why : option Reason;
  explanation : option string
}.

(** The object [selectMarker] and [deselectMarker] return; a field is
    [None] when the object literal does not have it. *)
Record Result : Type := mkResult {
  success : bool;
  action : option Action;
  marker : option Marker;
  clearedPrevious : option bool;
  reason : option Reason;
  message : option string
}.

(** The fields of a [SelectionManager]; [notifications] records the
    arguments of the calls of [onSelectionChange], oldest first. *)
Record State : Type := mkState {
  selectedMarkers : JsMap.t Marker;
  selectionHierarchyLevel : option Z;
  maxSelections : Z;
  notifications : list (list Marker)
}.

(** [options.maxSelections || 10] *)
Definition orDefault (n : option Z) (d : Z) : Z :=
  match n with
  | Some v => if (v =? 0)%Z then d else v
  | None => d
  end.

(** [new SelectionManager({ maxSelections })] *)
Definition new (maxSel : option Z) : State :=
  mkState [] None (orDefault maxSel 10) [].

Definition setMarkers (m : JsMap.t Marker) (s : State) : State :=
  mkState m (selectionHierarchyLevel s) (maxSelections s) (notifications s).

Definition setLevel (l : option Z) (s : State) : State :=
  mkState (selectedMarkers s) l (maxSelections s) (notifications s).

Definition getSelection (s : State) : list Marker :=
  JsMap.values (selectedMarkers s).

Definition getSelectedIds (s : State) : list string :=
  JsMap.keys (selectedMarkers s).

Definition getSelectionCount (s : State) : Z := JsMap.size (selectedMarkers s).

Definition getSelectionLevel (s : State) : option Z := selectionHierarchyLevel s.

Definition isSelected (markerId : string) (s : State) : bool :=
  JsMap.has markerId (selectedMarkers s).

(** [emitChange()] *)
Definition emitChange (s : State) : State :=
  mkState (selectedMarkers s) (selectionHierarchyLevel s) (maxSelections s)
          (notifications s ++ [getSelection s]).

(** [this.selectionHierarchyLevel !== markerLevel] *)
Definition levelDiffers (current : option Z) (markerLevel : Z) : bool :=
  match current with
  | Some l => negb (l =? markerLevel)%Z
  | None => true
  end.

Definition showLevel (l : option Z) : string :=
  match l with Some z => Js.showZ z | None => "null" end.

(** [isSelectionCompatible(marker, markerLevel)] *)
Definition isSelectionCompatible (s : State) (m : Marker) (markerLevel : Z)
  : Compatibility :=
  if (JsMap.size (selectedMarkers s) =? 0)%Z then
    mkCompatibility true None None
  else if JsMap.has (markerId m) (selectedMarkers s) then
    mkCompatibility true (Some already_selected) None
  else if levelDiffers (selectionHierarchyLevel s) markerLevel then
    mkCompatibility false (Some level_mismatch)
      (Some ("Cannot select marker at level " ++ Js.showZ markerLevel
             ++ " when current selection is at level "
             ++ showLevel (selectionHierarchyLevel s))%string)
  else if (JsMap.size (selectedMarkers s) >=? maxSelections s)%Z then
    mkCompatibility false (Some max_selections)
      (Some ("Maximum selections (" ++ Js.showZ (maxSelections s)
             ++ ") reached")%string)
  else
    mkCompatibility true None None.

(** [clearSelection(emit)] *)
Definition clearSelection (emit : bool) (s : State) : State :=
  let s := setMarkers [] s in
  let s := setLevel None s in
  if emit then emitChange s else s.

(** [deselectMarker(markerId)] *)
Definition deselectMarker (markerId : string) (s : State) : Result * State :=
  if negb (JsMap.has markerId (selectedMarkers s)) then
    (mkResult false None None None (Some not_selected) None, s)
  else
    let marker := JsMap.get markerId (selectedMarkers s) in
    let s := setMarkers (JsMap.delete markerId (selectedMarkers s)) s in
    let s := if (JsMap.size (selectedMarkers s) =? 0)%Z then setLevel None s
             else s in
    let s := emitChange s in
    (mkResult true (Some removed) marker None None None, s).

(** [this.selectedMarkers.set(marker.id, { ...marker, _level: level });
    this.selectionHierarchyLevel = level;] *)
Definition store (m : Marker) (level : Z) (s : State) : State :=
  let s := setMarkers (JsMap.set (markerId m) (withLevel level m)
                                 (selectedMarkers s)) s in
  setLevel (Some level) s.

(** [selectMarker(marker, level, isMultiSelect)] *)
Definition selectMarker (m : Marker) (level : Z) (isMultiSelect : bool)
  (s : State) : Result * State :=
  if JsMap.has (markerId m) (selectedMarkers s) then
    deselectMarker (markerId m) s
  else
    let compatibility := isSelectionCompatible s m level in
    (* the statements after the compatibility block *)
    let proceed (s : State) : Result * State :=
      let s := if negb isMultiSelect && (JsMap.size (selectedMarkers s) >? 0)%Z
               then clearSelection false s else s in
      let s := store m level s in
      let s := emitChange s in
      (mkResult true (Some added) (Some m) None None None, s) in
    if negb (compatible compatibility) then
      match why compatibility with
      | Some level_mismatch =>
          let s := clearSelection false s in
          let s := store m level s in
          let s := emitChange s in
          (mkResult true (Some replaced) (Some m) (Some true) None None, s)
      | Some max_selections =>
          (mkResult false None None None (why compatibility)
                    (explanation compatibility), s)
      | _ => proceed s
      end
    else proceed s.

(** [toggleSelection(marker, level, isMultiSelect)] *)
Definition toggleSelection (m : Marker) (level : Z) (isMultiSelect : bool)
  (s : State) : Result * State :=
  if JsMap.has (markerId m) (selectedMarkers s) then
    deselectMarker (markerId m) s
  else selectMarker m level isMultiSelect s.

(** One turn of the loop of [pruneInvalidSelections] on the pair of the
    map and the flag [changed]. *)
Definition pruneStep (existingMarkerIds : list string)
  (acc : JsMap.t Marker * bool) (markerId : string) : JsMap.t Marker * bool :=
  if negb (existsb (fun e => e =? markerId) existingMarkerIds)
  then (JsMap.delete markerId (fst acc), true)
  else acc.

(** [pruneInvalidSelections(existingMarkerIds)] *)
Definition pruneInvalidSelections (existingMarkerIds : list string) (s : State)
  : bool * State :=
  let r := fold_left (pruneStep existingMarkerIds)
                     (JsMap.keys (selectedMarkers s)) (selectedMarkers s, false) in
  let changed := snd r in
  let s := setMarkers (fst r) s in
  let s := if (JsMap.size (selectedMarkers s) =? 0)%Z then setLevel None s
           else s in
  let s := if changed then emitChange s else s in
  (changed, s).


(** The object [getState] returns and [restoreState] reads; its
    [selectedIds] is [None] when the field is missing. *)
Record SavedState : Type := mkSavedState {
  selectedIds : option (list string);
  hierarchyLevel : option Z
}.

(** [getState()] *)
Definition getState (s : State) : SavedState :=
  mkSavedState (Some (getSelectedIds s)) (selectionHierarchyLevel s).

(** [{ ...marker, _level: state.hierarchyLevel }] *)
Definition withSavedLevel (level : option Z) (m : Marker) : Marker :=
  mkMarker (node m) (_parent m) level (_count m).

(** [restoreState(state, markerLookup)]; [state] is [None] when it is
    [null], and [markerLookup] returns [None] for an id it does not
    know. *)
Definition restoreState (state : option SavedState)
  (markerLookup : string -> option Marker) (s : State) : State :=
  match state with
  | None => s
  | Some saved =>
      match selectedIds saved with
      | None => s
      | Some ids =>
          let s := clearSelection false s in
          let s := fold_left
                     (fun s id =>
                        match markerLookup id with
                        | Some marker =>
                            setMarkers
                              (JsMap.set id
                                 (withSavedLevel (hierarchyLevel saved) marker)
                                 (selectedMarkers s)) s
                        | None => s
                        end)
                     ids s in
          let s := setLevel (hierarchyLevel saved) s in
          emitChange s
      end
  end.

End SelectionManager.

(** ** The state handling of [GeoMapWidget] *)

Module GeoMapWidget.
Import Geo.

(** A d3 zoom transform. *)
Record Transform : Type := mkTransform {
  k : float;
  x : float;
  y : float
}.

Definition zoomIdentity : Transform := mkTransform 1 0 0.

Record ZoomThresholds : Type := mkZoomThresholds {
  continent : float;
  country : float;
  city : float
}.

(** [this.state]; the timer fields play no part in the modelled
    methods. *)
Record WidgetState : Type := mkWidgetState {
  currentZoomLevel : Z;
  activeFilters : FilterSet;
  visibleMarkers : list Marker;
  zoomTransform : Transform;
  isTransitioning : bool;
  currentParentId : option string
}.

(** The calls of the host's callbacks. *)
Inductive Callback : Type :=
| onZoomLevelChange (level : Z)
| onFilterChange (filters : FilterSet).

(** The fields of a widget that the modelled methods read or write;
    [callbacks] records the callback calls, oldest first. *)
Record Widget : Type := mkWidget {
  maxSelections : Z;
  state : WidgetState;
  originalData : option Data;
  filteredData : option Data;
  selectionManager : SelectionManager.State;
  zoomThresholds : ZoomThresholds;
  callbacks : list Callback
}.

(** The constructor, for options without [data]. *)
Definition new (maxSel : option Z) : Widget :=
  let maxSelections := SelectionManager.orDefault maxSel 10 in
  mkWidget maxSelections
           (mkWidgetState 1 allFilters [] zoomIdentity false None)
           None None
           (SelectionManager.new (Some maxSelections))
           (mkZoomThresholds 1 2.5 5)
           [].

Definition setState (st : WidgetState) (w : Widget) : Widget :=
  mkWidget (maxSelections w) st (originalData w) (filteredData w)
           (selectionManager w) (zoomThresholds w) (callbacks w).

Definition setSelectionManager (sm : SelectionManager.State) (w : Widget) : Widget :=
  mkWidget (maxSelections w) (state w) (originalData w) (filteredData w)
           sm (zoomThresholds w) (callbacks w).

Definition setOriginalData (d : option Data) (w : Widget) : Widget :=
  mkWidget (maxSelections w) (state w) d (filteredData w)
           (selectionManager w) (zoomThresholds w) (callbacks w).

Definition setFilteredData (d : option Data) (w : Widget) : Widget :=
  mkWidget (maxSelections w) (state w) (originalData w) d
           (selectionManager w) (zoomThresholds w) (callbacks w).

Definition call (c : Callback) (w : Widget) : Widget :=
  mkWidget (maxSelections w) (state w) (originalData w) (filteredData w)
           (selectionManager w) (zoomThresholds w) (callbacks w ++ [c]).

Definition setCurrentZoomLevel (l : Z) (st : WidgetState) : WidgetState :=
  mkWidgetState l (activeFilters st) (visibleMarkers st) (zoomTransform st)
                (isTransitioning st) (currentParentId st).

Definition setActiveFilters (f : FilterSet) (st : WidgetState) : WidgetState :=
  mkWidgetState (currentZoomLevel st) f (visibleMarkers st) (zoomTransform st)
                (isTransitioning st) (currentParentId st).

Definition setVisibleMarkers (ms : list Marker) (st : WidgetState) : WidgetState :=
  mkWidgetState (currentZoomLevel st) (activeFilters st) ms (zoomTransform st)
                (isTransitioning st) (currentParentId st).

Definition setZoomTransform (t : Transform) (st : WidgetState) : WidgetState :=
  mkWidgetState (currentZoomLevel st) (activeFilters st) (visibleMarkers st) t
                (isTransitioning st) (currentParentId st).

Definition setIsTransitioning (b : bool) (st : WidgetState) : WidgetState :=
  mkWidgetState (currentZoomLevel st) (activeFilters st) (visibleMarkers st)
                (zoomTransform st) b (currentParentId st).

Definition setCurrentParentId (p : option string) (st : WidgetState) : WidgetState :=
  mkWidgetState (currentZoomLevel st) (activeFilters st) (visibleMarkers st)
                (zoomTransform st) (isTransitioning st) p.

(** The predicate of the [filter] in [renderMarkers]: the node has
    geometry, its coordinates are valid, and it is not a leaf with a
    zero count. *)
Definition displayable (n : Marker) : bool :=
  match geometry (node n) with
  | None => false
  | Some g =>
      match coordinates g with
      | None => false
      | Some coords =>
          let lon := DataProcessing.element 0 coords in
          let lat := DataProcessing.element 1 coords in
          if negb (ProjectionUtils.isValidCoordinate lon lat) then false
          else if match _count n with Some c => (c =? 0)%Z | None => false end
                  && DataProcessing.isLeaf (node n)
          then false
          else true
      end
  end.

(** [renderMarkers(animate)]: the state it leaves; the drawing itself
    is the renderer's. *)
Definition renderMarkers (w : Widget) : Widget :=
  let level := currentZoomLevel (state w) in
  let data := filteredData w in
  let filters := activeFilters (state w) in
  (* the nodes at the current level *)
  let atLevel :=
    map (fun n =>
           mkMarker (node n) (_parent n) (Some level)
                    (Some (DataProcessing.calculateCounts (node n) filters)))
        (DataProcessing.getNodesAtLevel data level) in
  let nodesToShow :=
    match currentParentId (state w) with
    | Some parentId =>
        if Js.truthy parentId && (level >? 1)%Z then
          (* the children of the parent that was drilled into *)
          map (fun child =>
                 mkMarker child None (Some level)
                          (Some (DataProcessing.calculateCounts child filters)))
              (DataProcessing.getChildrenOfNode data parentId)
        else atLevel
    | None => atLevel
    end in
  let nodesToShow := filter displayable nodesToShow in
  let w := setState (setVisibleMarkers nodesToShow (state w)) w in
  let visibleIds := map markerId nodesToShow in
  setSelectionManager
    (snd (SelectionManager.pruneInvalidSelections visibleIds (selectionManager w)))
    w.

(** [transitionToLevel(newLevel, previousLevel)], up to the timer that
    later resets [isTransitioning]. *)
Definition transitionToLevel (newLevel previousLevel : Z) (w : Widget) : Widget :=
  if isTransitioning (state w) then w
  else
    let w := setState (setIsTransitioning true (state w)) w in
    let w := if (newLevel <? previousLevel)%Z
             then setState (setCurrentParentId None (state w)) w
             else w in
    renderMarkers w.

(** The callback of that timer. *)
Definition transitionTimeout (w : Widget) : Widget :=
  setState (setIsTransitioning false (state w)) w.

(** The level computed in [handleZoom] from [transform.k]. *)
Definition zoomLevelFor (th : ZoomThresholds) (scale : float) : Z :=
  if PrimFloat.leb (city th) scale then 3
  else if PrimFloat.leb (country th) scale then 2
  else 1.

(** [handleZoom(event)] with [event.transform = transform]. *)
Definition handleZoom (transform : Transform) (w : Widget) : Widget :=
  let w := setState (setZoomTransform transform (state w)) w in
  let previousLevel := currentZoomLevel (state w) in
  let newLevel := zoomLevelFor (zoomThresholds w) (k transform) in
  if negb (newLevel =? previousLevel)%Z then
    let w := setState (setCurrentZoomLevel newLevel (state w)) w in
    let w := call (onZoomLevelChange newLevel) w in
    transitionToLevel newLevel previousLevel w
  else w.

(** [{ ...this.state.activeFilters, ...filters }]: a key of [filters]
    that is given replaces the active one. *)
Definition mergeFilters (old new : FilterSet) : FilterSet :=
  mkFilterSet
    (match region new with Some v => Some v | None => region old end)
    (match location new with Some v => Some v | None => location old end)
    (match datacentre new with Some v => Some v | None => datacentre old end).

(** [applyFilters(filters)] *)
Definition applyFilters (filters : FilterSet) (w : Widget) : Widget :=
  let w := setState (setActiveFilters (mergeFilters (activeFilters (state w)) filters)
                                      (state w)) w in
  let w := setFilteredData
             (DataProcessing.filterData (originalData w) (activeFilters (state w))) w in
  let w := renderMarkers w in
  call (onFilterChange (activeFilters (state w))) w.

Section UpdateData.
Variable StringToNumber : string -> float.

(** [updateData(newData)] *)
Definition updateData (newData : option Data) (w : Widget) : bool * Widget :=
  let validation := DataProcessing.validateData StringToNumber newData in
  if negb (DataProcessing.isValid validation) then (false, w)
  else
    let w := setOriginalData newData w in
    let w := setFilteredData
               (DataProcessing.filterData newData (activeFilters (state w))) w in
    let w := renderMarkers w in
    (true, w).

End UpdateData.

(** *** Clicks, double clicks and the zoom buttons

    The widget state above is extended with the click timer, the time
    of the last resolved click, the calls of the click callbacks and
    the zoom animations the widget starts. *)

(** The closure that [handleMarkerClick] schedules: the marker and
    [event.ctrlKey || event.metaKey]. *)
Record PendingClick : Type := mkPendingClick {
  pendingMarker : Marker;
  pendingMultiSelect : bool
}.

(** A zoom animation: [zoom.transform] towards
    [zoomIdentity.translate(tx, ty).scale(scale)], towards
    [zoomIdentity], or [zoom.scaleTo(scale)]. *)
Inductive ZoomRequest : Type :=
| TranslateScale (tx ty scale : float)
| Identity
| ScaleTo (scale : float).

Record Interaction : Type := mkInteraction {
  widget : Widget;
  clickTimeout : option PendingClick;
  lastClickTime : Z;
  markerClicks : list (Marker * bool);
  markerDoubleClicks : list Marker;
  zoomRequests : list ZoomRequest
}.

Definition setWidget (w : Widget) (i : Interaction) : Interaction :=
  mkInteraction w (clickTimeout i) (lastClickTime i) (markerClicks i)
                (markerDoubleClicks i) (zoomRequests i).

Definition setClickTimeout (t : option PendingClick) (i : Interaction)
  : Interaction :=
  mkInteraction (widget i) t (lastClickTime i) (markerClicks i)
                (markerDoubleClicks i) (zoomRequests i).

Definition setLastClickTime (t : Z) (i : Interaction) : Interaction :=
  mkInteraction (widget i) (clickTimeout i) t (markerClicks i)
                (markerDoubleClicks i) (zoomRequests i).

Definition request (r : ZoomRequest) (i : Interaction) : Interaction :=
  mkInteraction (widget i) (clickTimeout i) (lastClickTime i) (markerClicks i)
                (markerDoubleClicks i) (zoomRequests i ++ [r]).

(** A widget on which nothing was clicked yet. *)
Definition interact (w : Widget) : Interaction :=
  mkInteraction w None 0 [] [] [].

(** [performSingleClick(event, marker, element)] at time [now], the
    value of [Date.now()]. *)
Definition performSingleClick (now : Z) (p : PendingClick) (i : Interaction)
  : Interaction :=
  if (now - lastClickTime i <? 100)%Z then i
  else
    let i := setLastClickTime now i in
    let level := currentZoomLevel (state (widget i)) in
    let r := SelectionManager.toggleSelection
               (pendingMarker p) level (pendingMultiSelect p)
               (selectionManager (widget i)) in
    let i := setWidget (setSelectionManager (snd r) (widget i)) i in
    mkInteraction (widget i) (clickTimeout i) (lastClickTime i)
      (markerClicks i
       ++ [(pendingMarker p,
            SelectionManager.isSelected (markerId (pendingMarker p))
                                        (selectionManager (widget i)))])
      (markerDoubleClicks i) (zoomRequests i).

(** [handleMarkerClick(event, marker, element)] *)
Definition handleMarkerClick (marker : Marker) (multiSelect : bool)
  (i : Interaction) : Interaction :=
  if isTransitioning (state (widget i)) then i
  else
    match clickTimeout i with
    | Some _ => setClickTimeout None i
    | None => setClickTimeout (Some (mkPendingClick marker multiSelect)) i
    end.

(** The timer of [handleMarkerClick] fires, at time [now]; a timer
    that was cleared does not fire. *)
Definition clickTimerFires (now : Z) (i : Interaction) : Interaction :=
  match clickTimeout i with
  | Some p => performSingleClick now p (setClickTimeout None i)
  | None => i
  end.

Section Projected.
(** The d3 projection, [null] where it is undefined, and the size of
    the container. *)
Variable projection : Js.value -> Js.value -> option (float * float).
Variables width height : float.

(** [zoomToMarkerAndRevealChildren(marker)]; [None] when reading
    [marker.geometry.coordinates] throws. *)
Definition zoomToMarkerAndRevealChildren (marker : Marker) (i : Interaction)
  : option Interaction :=
  match geometry (node marker) with
  | None => None
  | Some g =>
      match coordinates g with
      | None => None
      | Some coords =>
          let lon := DataProcessing.element 0 coords in
          let lat := DataProcessing.element 1 coords in
          let w := widget i in
          let currentLevel := currentZoomLevel (state w) in
          let targetScale :=
            if (currentLevel =? 1)%Z then (country (zoomThresholds w) + 0.5)%float
            else if (currentLevel =? 2)%Z then (city (zoomThresholds w) + 0.5)%float
            else Js.Math_min (k (zoomTransform (state w)) * 1.5)%float 12 in
          let w := setState (setCurrentParentId (Some (markerId marker)) (state w)) w in
          let xy := match projection lon lat with
                    | Some xy => xy
                    | None => ((width / 2)%float, (height / 2)%float)
                    end in
          Some (request
                  (TranslateScale (width / 2 - fst xy * targetScale)%float
                                  (height / 2 - snd xy * targetScale)%float
                                  targetScale)
                  (setWidget w i))
      end
  end.

(** [handleMarkerDoubleClick(event, marker, element)]; the flag tells
    whether it ended by the exception above. *)
Definition handleMarkerDoubleClick (marker : Marker) (i : Interaction)
  : Interaction * bool :=
  if isTransitioning (state (widget i)) then (i, false)
  else
    let i := match clickTimeout i with
             | Some _ => setClickTimeout None i
             | None => i
             end in
    if DataProcessing.isLeaf (node marker) then (i, false)
    else
      match zoomToMarkerAndRevealChildren marker i with
      | None => (i, true)
      | Some i =>
          (mkInteraction (widget i) (clickTimeout i) (lastClickTime i)
                         (markerClicks i) (markerDoubleClicks i ++ [marker])
                         (zoomRequests i),
           false)
      end.

End Projected.

(** [handleZoomIn()] *)
Definition handleZoomIn (i : Interaction) : Interaction :=
  let currentScale := k (zoomTransform (state (widget i))) in
  let newScale := Js.Math_min (currentScale * 1.5)%float 12 in
  request (ScaleTo newScale) i.

(** [handleZoomOut()] *)
Definition handleZoomOut (i : Interaction) : Interaction :=
  let w := widget i in
  let currentScale := k (zoomTransform (state w)) in
  let newScale := Js.Math_max (currentScale / 1.5)%float 1 in
  let w := if PrimFloat.ltb newScale (country (zoomThresholds w))
           then setState (setCurrentParentId None (state w)) w
           else w in
  request (ScaleTo newScale) (setWidget w i).

(** [clearSelection()] of the widget. *)
Definition clearSelection (w : Widget) : Widget :=
  setSelectionManager (SelectionManager.clearSelection true (selectionManager w)) w.

(** [reset()] *)
Definition reset (i : Interaction) : Interaction :=
  let w := widget i in
  let w := setState (setActiveFilters allFilters (state w)) w in
  let w := setState (setCurrentParentId None (state w)) w in
  let w := setFilteredData (originalData w) w in
  let w := clearSelection w in
  let i := request Identity (setWidget w i) in
  setWidget (renderMarkers (widget i)) i.

End GeoMapWidget.

(** ** Notions of the specification

    The definitions of this module follow the words of the
    specification, not the code; the theorems below relate the two. *)

Module Spec.
Import Geo.

(** The children of a node, none when the field is absent. *)
Definition childrenOf (node : GeoNode) : list GeoNode :=
  match children node with Some cs => cs | None => [] end.

(** The nodes of a subtree, parents before children and children in
    order, and the nodes of the whole data. *)
Fixpoint subtree (node : GeoNode) : list GeoNode :=
  node ::
  match node with
  | mkGeoNode _ _ _ _ (Some cs) _ => flat_map subtree cs
  | _ => []
  end.

Definition roots (data : option Data) : list GeoNode :=
  match data with
  | Some d => match GeoLocations d with Some ls => ls | None => [] end
  | None => []
  end.

Definition nodesOf (data : option Data) : list GeoNode :=
  flat_map subtree (roots data).

(** The same nodes with their depths, the roots being at depth
    [depth]. *)
Fixpoint subtreeDepths (depth : Z) (node : GeoNode) : list (GeoNode * Z) :=
  (node, depth) ::
  match node with
  | mkGeoNode _ _ _ _ (Some cs) _ => flat_map (subtreeDepths (depth + 1)) cs
  | _ => []
  end.

Definition depthsOf (data : option Data) : list (GeoNode * Z) :=
  flat_map (subtreeDepths 1) (roots data).

(** The nodes of a subtree, each with its direct parent, [parent] being
    the parent of the root of the subtree; and the nodes strictly
    below a node. *)
Fixpoint edges (parent : GeoNode) (node : GeoNode) : list (GeoNode * GeoNode) :=
  (node, parent) ::
  match node with
  | mkGeoNode _ _ _ _ (Some cs) _ => flat_map (edges node) cs
  | _ => []
  end.

Definition below (node : GeoNode) : list (GeoNode * GeoNode) :=
  flat_map (edges node) (childrenOf node).

(** The depth of the first entry with the id, 0 when there is none. *)
Definition levelIn (nodeId : string) (entries : list (GeoNode * Z)) : Z :=
  match find (fun e => id (fst e) =? nodeId)%string entries with
  | Some e => snd e
  | None => 0%Z
  end.

(** The children of a displayed node, each with that node as parent. *)
Definition expand (m : Marker) : list Marker :=
  map (fun c => mkMarker c (Some (node m)) None None) (childrenOf (node m)).

(** The leaf descendants of a node, left to right; a node without
    children is its own only leaf. *)
Fixpoint leaves (node : GeoNode) : list GeoNode :=
  match node with
  | mkGeoNode _ _ _ _ (Some ((_ :: _) as cs)) _ => flat_map leaves cs
  | _ => [node]
  end.

Definition sumZ (l : list Z) : Z := fold_right Z.add 0%Z l.

(** A tree with every [_filteredCount] field removed. *)
Fixpoint eraseCounts (node : GeoNode) : GeoNode :=
  match node with
  | mkGeoNode i l p g cs _ =>
      mkGeoNode i l p g
        (match cs with Some cs => Some (map eraseCounts cs) | None => None end)
        None
  end.

Definition eraseData (d : Data) : Data :=
  mkData (match GeoLocations d with
          | Some ls => Some (map eraseCounts ls)
          | None => None
          end).

(** The nodes of a subtree with their path locators, parents before
    children and children in order. *)
Fixpoint descendants (node : GeoNode) (path : string) : list (GeoNode * string) :=
  (node, path) ::
  match node with
  | mkGeoNode _ _ _ _ (Some cs) _ =>
      Js.forEach (fun child i acc =>
                    acc ++ descendants child (DataProcessing.childPath path i))
                 cs []
  | _ => []
  end.

(** All the nodes of a forest of roots, with their path locators. *)
Definition located (locations : list GeoNode) : list (GeoNode * string) :=
  Js.forEach (fun n i acc => acc ++ descendants n (DataProcessing.rootPath i))
             locations [].

(** The first two components of the coordinates of a node, when it has
    geometry with a coordinate array of at least two components. *)
Definition lonLat (node : GeoNode) : option (Js.value * Js.value) :=
  match geometry node with
  | Some g =>
      match coordinates g with
      | Some (lon :: lat :: _) => Some (lon, lat)
      | _ => None
      end
  | None => None
  end.

(** A number within the closed interval [lo, hi]. *)
Definition within (lo hi : float) (v : Js.value) : Prop :=
  exists x, v = Js.Num x /\ PrimFloat.leb lo x = true /\ PrimFloat.leb x hi = true.

(** A node that meets the structural requirements: a non-empty id, a
    non-empty label, and coordinates with longitude in [-180, 180] and
    latitude in [-90, 90]. *)
Definition wellFormed (node : GeoNode) : Prop :=
  id node <> "" /\ label node <> "" /\
  exists lon lat, lonLat node = Some (lon, lat)
                  /\ within (-180) 180 lon /\ within (-90) 90 lat.

(** What [filterNode] does to one node: a node it keeps has its data
    and the count of its matching leaves, a node it drops has none. *)
Definition filtered (filters : FilterSet) (level : Z) (node : GeoNode) : Prop :=
  match DataProcessing.filterNode filters level node with
  | Some kept =>
      _filteredCount kept = Some (DataProcessing.calculateCounts node filters)
      /\ id kept = id node /\ label kept = label node
      /\ properties kept = properties node /\ geometry kept = geometry node
      /\ (level <> 1%Z -> (1 <= DataProcessing.calculateCounts node filters)%Z)
  | None => DataProcessing.calculateCounts node filters = 0%Z
  end.

(** A filter set none of whose keys constrains anything. *)
Definition wildcard (filters : FilterSet) : Prop :=
  DataProcessing.active (region filters) = None
  /\ DataProcessing.active (location filters) = None
  /\ DataProcessing.active (datacentre filters) = None.

Section Validation.
Variable StringToNumber : string -> float.

(** A component that the range check [v < lo || v > hi] rejects. *)
Definition outside (lo hi : float) (v : Js.value) : bool :=
  Js.lt StringToNumber v lo || Js.gt StringToNumber v hi.

(** The errors of one node, each requirement judged on its own. *)
Definition ownErrors (node : GeoNode) (path : string)
  : list DataProcessing.ValidationError :=
  (if id node =? "" then [DataProcessing.MissingId path] else [])
  ++ (if label node =? "" then [DataProcessing.MissingLabel path] else [])
  ++ match geometry node with
     | None => [DataProcessing.MissingGeometry path]
     | Some _ =>
         match lonLat node with
         | None => [DataProcessing.InvalidCoordinates path]
         | Some (lon, lat) =>
             (if outside (-180) 180 lon
              then [DataProcessing.InvalidLongitude lon path] else [])
             ++ (if outside (-90) 90 lat
                 then [DataProcessing.InvalidLatitude lat path] else [])
         end
     end.

Definition errorsOf (np : GeoNode * string)
  : list DataProcessing.ValidationError :=
  ownErrors (fst np) (snd np).

(** A component that is NaN, or that is not a number and for which
    both range comparisons are false. *)
Definition nonNumeric (lo hi : float) (v : Js.value) : Prop :=
  (exists x, v = Js.Num x /\ PrimFloat.is_nan x = true)
  \/ (Js.isNumber v = false
      /\ Js.lt StringToNumber v lo = false
      /\ Js.gt StringToNumber v hi = false).

(** A component that is either within its interval or such a value. *)
Definition unreported (lo hi : float) (v : Js.value) : Prop :=
  within lo hi v \/ nonNumeric lo hi v.

(** A node with a non-empty id and label, whose longitude or latitude
    is such a value while the other component, if it is a number, is
    within its interval. *)
Definition nonNumericNode (node : GeoNode) : Prop :=
  id node <> "" /\ label node <> "" /\
  exists lon lat, lonLat node = Some (lon, lat)
                  /\ unreported (-180) 180 lon /\ unreported (-90) 90 lat
                  /\ (nonNumeric (-180) 180 lon \/ nonNumeric (-90) 90 lat).

End Validation.

(** A point [[lon, lat, ...]] whose first two components are valid
    coordinates. *)
Definition validPoint (point : list Js.value) : bool :=
  ProjectionUtils.isValidCoordinate (nth 0 point Js.Undefined)
                                    (nth 1 point Js.Undefined).

(** The bounds hold no NaN and enclose the valid points seen; either
    no valid point was seen and the bounds are the initial ones, or
    each bound is a coordinate of a valid point seen. *)
Definition encloses (box : ProjectionUtils.BBox) (seen : list (list Js.value))
  : Prop :=
  let minLon := ProjectionUtils.minLon box in
  let maxLon := ProjectionUtils.maxLon box in
  let minLat := ProjectionUtils.minLat box in
  let maxLat := ProjectionUtils.maxLat box in
  (PrimFloat.is_nan minLon = false /\ PrimFloat.is_nan maxLon = false
   /\ PrimFloat.is_nan minLat = false /\ PrimFloat.is_nan maxLat = false)
  /\ (forall p x y, In p seen -> validPoint p = true ->
        nth 0 p Js.Undefined = Js.Num x -> nth 1 p Js.Undefined = Js.Num y ->
        PrimFloat.leb minLon x = true /\ PrimFloat.leb x maxLon = true
        /\ PrimFloat.leb minLat y = true /\ PrimFloat.leb y maxLat = true)
  /\ (((forall p, In p seen -> validPoint p = false)
       /\ box = ProjectionUtils.mkBBox infinity neg_infinity infinity neg_infinity)
      \/ ((exists p, In p seen /\ validPoint p = true
                     /\ nth 0 p Js.Undefined = Js.Num minLon)
          /\ (exists p, In p seen /\ validPoint p = true
                        /\ nth 0 p Js.Undefined = Js.Num maxLon)
          /\ (exists p, In p seen /\ validPoint p = true
                        /\ nth 1 p Js.Undefined = Js.Num minLat)
          /\ (exists p, In p seen /\ validPoint p = true
                        /\ nth 1 p Js.Undefined = Js.Num maxLat))).

(** The calls on a [SelectionManager] that change its selection. *)
Inductive Call : Type :=
| Select (m : Marker) (level : Z) (isMultiSelect : bool)
| Deselect (markerId : string)
| Clear (emit : bool)
| Prune (existingMarkerIds : list string).

Definition perform (s : SelectionManager.State) (c : Call)
  : SelectionManager.State :=
  match c with
  | Select m level isMultiSelect =>
      snd (SelectionManager.selectMarker m level isMultiSelect s)
  | Deselect markerId => snd (SelectionManager.deselectMarker markerId s)
  | Clear emit => SelectionManager.clearSelection emit s
  | Prune ids => snd (SelectionManager.pruneInvalidSelections ids s)
  end.

Definition run (calls : list Call) (s : SelectionManager.State)
  : SelectionManager.State :=
  fold_left perform calls s.

(** The selection is empty exactly when the level is unset, and every
    selected marker carries the level of the selection. *)
Definition consistentWith (selected : JsMap.t Marker) (level : option Z) : Prop :=
  (selected = [] <-> level = None)
  /\ forall key m, In (key, m) selected -> _level m = level.

Definition consistent (s : SelectionManager.State) : Prop :=
  consistentWith (SelectionManager.selectedMarkers s)
                 (SelectionManager.selectionHierarchyLevel s).

(** Every key of the selection map occurs once and is the id of the
    marker stored under it. *)
Definition wellKeyed (selected : JsMap.t Marker) : Prop :=
  NoDup (JsMap.keys selected)
  /\ forall key m, In (key, m) selected -> markerId m = key.

(** [ids.includes(key)] *)
Definition includes (ids : list string) (key : string) : bool :=
  existsb (fun e => e =? key)%string ids.

(** The level the specification assigns to a zoom scale, with the
    default thresholds. *)
Definition levelOfScale (scale : float) : Z :=
  if PrimFloat.leb 5 scale then 3%Z
  else if PrimFloat.leb 2.5 scale then 2%Z
  else 1%Z.

End Spec.

(** ** Sample data *)

Module Sample.
Import Geo.

Definition at_ (lon lat : float) : option Geometry :=
  Some (mkGeometry (Some [Js.Num lon; Js.Num lat])).

Definition frankfurt : GeoNode :=
  mkGeoNode "dc-fra" "Frankfurt" None (at_ 8.5 50) None None.
Definition paris : GeoNode :=
  mkGeoNode "dc-par" "Paris" None (at_ 2.25 48.75) None None.
Definition germany : GeoNode :=
  mkGeoNode "de" "Germany" None (at_ 10.5 51) (Some [frankfurt]) None.
Definition france : GeoNode :=
  mkGeoNode "fr" "France" None (at_ 2.25 46.25) (Some [paris]) None.
Definition europe : GeoNode :=
  mkGeoNode "eu" "Europe" (Some [mkProperty "CategoryValue" "Europe"])
            (at_ 15.25 54.5) (Some [germany; france]) None.

Definition data : Data := mkData (Some [europe]).

(** A node whose longitude is out of range, and one whose coordinates
    are not numbers. *)
Definition farEast : GeoNode :=
  mkGeoNode "far" "Far East" None (at_ 200 10) None None.
Definition nowhere : GeoNode :=
  mkGeoNode "nw" "Nowhere" None
            (Some (mkGeometry (Some [Js.Num nan; Js.Undefined]))) None None.

Definition markerOf (n : GeoNode) : Marker := mkMarker n None None None.

(** The conversion of strings to numbers is irrelevant to the sample
    data, which holds no string coordinate. *)
Definition noStrings (_ : string) : float := nan.

End Sample.

(** * Properties *)

(** ** Comparisons of binary64 numbers *)

Section FloatFacts.

Lemma SFcompare_antisym (a b : SpecFloat.spec_float) :
  SpecFloat.SFcompare b a = option_map CompOpp (SpecFloat.SFcompare a b).
Proof.
  destruct a as [sa|sa| |sa ma ea], b as [sb|sb| |sb mb eb]; simpl;
    try reflexivity;
    try (destruct sa; reflexivity);
    try (destruct sb; reflexivity);
    try (destruct sa, sb; reflexivity).
  assert (Hm : Pos.compare_cont Eq mb ma = CompOpp (Pos.compare_cont Eq ma mb))
    by (symmetry; apply (Pos.compare_cont_antisym ma mb Eq)).
  destruct sa, sb; simpl; try reflexivity;
    rewrite (Z.compare_antisym ea eb), Hm;
    destruct (ea ?= eb)%Z; simpl; try reflexivity;
    destruct (Pos.compare_cont Eq ma mb); reflexivity.
Qed.

(** [a <= b] excludes [b < a]. *)
Lemma leb_not_gt (a b : float) :
  PrimFloat.leb a b = true -> PrimFloat.ltb b a = false.
Proof.
  rewrite leb_spec, ltb_spec. unfold SpecFloat.SFleb, SpecFloat.SFltb.
  rewrite (SFcompare_antisym (Prim2SF a) (Prim2SF b)).
  destruct (SpecFloat.SFcompare (Prim2SF a) (Prim2SF b)) as [[ | | ]|];
    simpl; congruence.
Qed.

Lemma SFcompare_refl (a : SpecFloat.spec_float) :
  a <> SpecFloat.S754_nan -> SpecFloat.SFcompare a a = Some Eq.
Proof.
  destruct a as [s|s| |s m e]; simpl; intros H; try congruence.
  - destruct s; reflexivity.
  - rewrite Z.compare_refl.
    assert (Hm : Pos.compare_cont Eq m m = Eq) by apply Pos.compare_refl.
    destruct s; rewrite Hm; reflexivity.
Qed.

(** A number that differs from itself is the NaN of the
    specification. *)
Lemma is_nan_spec (a : float) :
  PrimFloat.is_nan a = true -> Prim2SF a = SpecFloat.S754_nan.
Proof.
  unfold PrimFloat.is_nan. rewrite eqb_spec. unfold SpecFloat.SFeqb.
  destruct (Prim2SF a) as [s|s| |s m e] eqn:E; try reflexivity;
    rewrite SFcompare_refl by discriminate; discriminate.
Qed.

(** NaN is neither below nor above anything. *)
Lemma nan_not_lt (a c : float) :
  PrimFloat.is_nan a = true -> PrimFloat.ltb a c = false.
Proof.
  intros H. rewrite ltb_spec, (is_nan_spec a H). reflexivity.
Qed.

Lemma nan_not_gt (a c : float) :
  PrimFloat.is_nan a = true -> PrimFloat.ltb c a = false.
Proof.
  intros H. rewrite ltb_spec, (is_nan_spec a H).
  unfold SpecFloat.SFltb. destruct (Prim2SF c); reflexivity.
Qed.

End FloatFacts.

(** ** Trees *)

Section TreeFacts.
Import Geo.

(** Induction on a node with the hypothesis for all its children. *)
Lemma GeoNode_children_ind (P : GeoNode -> Prop) :
  (forall i l p g f, P (mkGeoNode i l p g None f)) ->
  (forall i l p g cs f, Forall P cs -> P (mkGeoNode i l p g (Some cs) f)) ->
  forall n, P n.
Proof.
  intros Hnone Hsome. fix IH 1. intros [i l p g [cs|] f].
  - apply Hsome. induction cs as [|c cs IHcs]; constructor.
    + apply IH.
    + exact IHcs.
  - apply Hnone.
Qed.

Lemma fold_left_add_shift (A : Type) (f : A -> Z) (l : list A) (a : Z) :
  fold_left (fun acc x => (acc + f x)%Z) l a = (a + Spec.sumZ (map f l))%Z.
Proof.
  revert a. induction l as [|x l IH]; intros a; simpl.
  - lia.
  - rewrite IH. unfold Spec.sumZ. simpl. lia.
Qed.

Lemma forEachFrom_append (A B : Type) (g : A -> nat -> list B)
  (l : list A) (i : nat) (acc : list B) :
  Js.forEachFrom (fun x j a => a ++ g x j) i l acc
  = acc ++ Js.forEachFrom (fun x j a => a ++ g x j) i l [].
Proof.
  revert i acc. induction l as [|x l IH]; intros i acc; simpl.
  - now rewrite app_nil_r.
  - rewrite IH. rewrite (IH _ ([] ++ g x i)). simpl. now rewrite app_assoc.
Qed.

End TreeFacts.

(** ** Leaf counts and filtering (src/utils/dataProcessing.js) *)

Section CountFacts.
Import Geo DataProcessing.

Lemma calculateCounts_leaf (node : GeoNode) (filters : FilterSet) :
  isLeaf node = true ->
  calculateCounts node filters = if matchesFilters node filters then 1%Z else 0%Z.
Proof.
  destruct node as [i l p g [[|c cs]|] f]; simpl; intros H;
    try reflexivity; discriminate.
Qed.

Lemma calculateCounts_internal (node : GeoNode) (filters : FilterSet) :
  isLeaf node = false ->
  calculateCounts node filters
  = Spec.sumZ (map (fun c => calculateCounts c filters) (Spec.childrenOf node)).
Proof.
  destruct node as [i l p g [[|c cs]|] f]; simpl; intros H;
    try discriminate.
  rewrite (fold_left_add_shift _ (fun c => calculateCounts c filters)).
  unfold Spec.childrenOf, Spec.sumZ. simpl. lia.
Qed.

Lemma count_matching_app (filters : FilterSet) (a b : list GeoNode) :
  Z.of_nat (List.length (filter (fun l => matchesFilters l filters) (a ++ b)))
  = (Z.of_nat (List.length (filter (fun l => matchesFilters l filters) a))
     + Z.of_nat (List.length (filter (fun l => matchesFilters l filters) b)))%Z.
Proof.
  rewrite filter_app, length_app. lia.
Qed.

Lemma calculateCounts_leaves (filters : FilterSet) (node : GeoNode) :
  calculateCounts node filters
  = Z.of_nat (List.length (filter (fun l => matchesFilters l filters)
                                  (Spec.leaves node))).
Proof.
  induction node as [i l p g f|i l p g cs f IH] using GeoNode_children_ind.
  - simpl. destruct (matchesFilters _ _); reflexivity.
  - destruct cs as [|c cs].
    + simpl. destruct (matchesFilters _ _); reflexivity.
    + rewrite calculateCounts_internal by reflexivity.
      unfold Spec.childrenOf.
      change (Spec.leaves (mkGeoNode i l p g (Some (c :: cs)) f))
        with (flat_map Spec.leaves (c :: cs)).
      cbn [children].
      induction IH as [|c' cs' Hc _ IHcs]; [reflexivity|].
      cbn [map flat_map Spec.sumZ fold_right].
      rewrite count_matching_app, Hc. unfold Spec.sumZ in IHcs.
      now rewrite IHcs.
Qed.

(** C7: the leaf count of a node is the number of its leaf descendants
    that match the filters: a node without children counts 1 when it
    matches and 0 otherwise, a node with children counts the sum of the
    counts of its children.  For a region with two countries that hold
    one datacenter each the count is 2 without filters, and 1 under a
    datacentre filter that names the label of one of the two
    datacenters (a label that is a filter value, and not also the label
    of the other datacenter). *)
Theorem calculateCounts_counts_matching_leaves
  (node : GeoNode) (filters : FilterSet) :
  calculateCounts node filters
  = Z.of_nat (List.length (filter (fun l => matchesFilters l filters)
                                  (Spec.leaves node)))
  /\ calculateCounts node filters
     = (if isLeaf node
        then if matchesFilters node filters then 1%Z else 0%Z
        else Spec.sumZ (map (fun c => calculateCounts c filters)
                            (Spec.childrenOf node)))
  /\ forall c1 c2 d1 d2 : GeoNode,
      children node = Some [c1; c2] ->
      children c1 = Some [d1] -> children c2 = Some [d2] ->
      isLeaf d1 = true -> isLeaf d2 = true ->
      calculateCounts node noFilters = 2%Z
      /\ (label d1 <> "" -> label d1 <> "All" -> label d2 <> label d1 ->
          calculateCounts node (mkFilterSet None None (Some (label d1))) = 1%Z).
Proof.
  split; [apply calculateCounts_leaves|]. split.
  - destruct (isLeaf node) eqn:E.
    + now apply calculateCounts_leaf.
    + now apply calculateCounts_internal.
  - intros c1 c2 d1 d2 Hn H1 H2 L1 L2.
    assert (Hcount : forall fs,
      calculateCounts node fs
      = ((if matchesFilters d1 fs then 1 else 0)
         + (if matchesFilters d2 fs then 1 else 0))%Z).
    { intros fs.
      rewrite (calculateCounts_internal node)
        by (unfold isLeaf; now rewrite Hn).
      unfold Spec.childrenOf at 1. rewrite Hn. cbn [map Spec.sumZ fold_right].
      rewrite (calculateCounts_internal c1) by (unfold isLeaf; now rewrite H1).
      rewrite (calculateCounts_internal c2) by (unfold isLeaf; now rewrite H2).
      unfold Spec.childrenOf. rewrite H1, H2. cbn [map Spec.sumZ fold_right].
      rewrite (calculateCounts_leaf d1), (calculateCounts_leaf d2) by assumption.
      lia. }
    split.
    + rewrite Hcount. reflexivity.
    + intros Hne Hall Hdiff. rewrite Hcount.
      unfold matchesFilters, active, Js.truthy. cbn [region location datacentre].
      destruct (String.eqb_spec (label d1) "") as [|_]; [contradiction|].
      destruct (String.eqb_spec (label d1) "All") as [|_]; [contradiction|].
      cbn [negb andb]. rewrite String.eqb_refl.
      destruct (String.eqb_spec (label d2) (label d1)) as [|_]; [contradiction|].
      reflexivity.
Qed.

End CountFacts.

Section FilterFacts.
Import Geo DataProcessing.

Lemma allFilters_wildcard : Spec.wildcard allFilters.
Proof. repeat split. Qed.

Lemma matchesFilters_wildcard (filters : FilterSet) (node : GeoNode) :
  Spec.wildcard filters -> matchesFilters node filters = true.
Proof.
  intros (Hr & Hl & Hd). unfold matchesFilters. now rewrite Hr, Hl, Hd.
Qed.

Lemma mapNonNull_all_kept (f : GeoNode -> option GeoNode) (cs : list GeoNode) :
  Forall (fun c => exists c', f c = Some c'
                              /\ Spec.eraseCounts c' = Spec.eraseCounts c) cs ->
  map Spec.eraseCounts (Js.mapNonNull f cs) = map Spec.eraseCounts cs.
Proof.
  induction 1 as [|c cs (c' & Hc & He) _ IH]; simpl.
  - reflexivity.
  - rewrite Hc. simpl. now rewrite He, IH.
Qed.

(** Under wildcard filters [filterNode] keeps every node, and changes
    nothing but the injected counts. *)
Lemma filterNode_wildcard (filters : FilterSet) (node : GeoNode) :
  Spec.wildcard filters ->
  forall level, exists node',
    filterNode filters level node = Some node'
    /\ Spec.eraseCounts node' = Spec.eraseCounts node.
Proof.
  intros W.
  induction node as [i l p g f|i l p g cs f IH] using GeoNode_children_ind;
    intros level.
  - simpl. rewrite matchesFilters_wildcard by assumption.
    eexists; split; reflexivity.
  - destruct cs as [|c cs].
    + simpl. rewrite matchesFilters_wildcard by assumption.
      eexists; split; reflexivity.
    + assert (Hkept :
        map Spec.eraseCounts
            (Js.mapNonNull (filterNode filters (level + 1)) (c :: cs))
        = map Spec.eraseCounts (c :: cs)).
      { apply mapNonNull_all_kept.
        eapply Forall_impl; [|exact IH]. intros a Ha. apply Ha. }
      cbn [filterNode].
      destruct (Js.mapNonNull (filterNode filters (level + 1)) (c :: cs))
        as [|k ks] eqn:E.
      * discriminate Hkept.
      * eexists; split; [reflexivity|].
        unfold withChildren. cbn [Spec.eraseCounts id label properties geometry].
        now rewrite Hkept.
Qed.

(** C5: filtering with the filter set in which every key is ['All']
    returns the input tree: the same nodes in the same order with the
    same children, up to the [_filteredCount] fields. *)
Theorem filterData_allFilters_roundtrip (data : option Data) :
  option_map Spec.eraseData (filterData data allFilters)
  = option_map Spec.eraseData data.
Proof.
  destruct data as [[[ls|]]|]; try reflexivity.
  unfold filterData. cbn [GeoLocations option_map]. unfold Spec.eraseData.
  cbn [GeoLocations]. do 3 f_equal.
  apply mapNonNull_all_kept.
  apply Forall_forall. intros n _.
  exact (filterNode_wildcard allFilters n allFilters_wildcard 1%Z).
Qed.

End FilterFacts.

(** ** Validation (src/utils/dataProcessing.js, src/utils/projection.js) *)

Section ValidationFacts.
Import Geo DataProcessing.
Variable StringToNumber : string -> float.

Local Abbreviation validateOwn := (DataProcessing.validateOwn StringToNumber).
Local Abbreviation validateNode := (DataProcessing.validateNode StringToNumber).
Local Abbreviation validateData := (DataProcessing.validateData StringToNumber).
Local Abbreviation ownErrors := (Spec.ownErrors StringToNumber).
Local Abbreviation errorsOf := (Spec.errorsOf StringToNumber).

Lemma lonLat_elements (node : GeoNode) (g : Geometry) (coords : list Js.value) :
  geometry node = Some g -> coordinates g = Some coords ->
  Spec.lonLat node
  = if (List.length coords <? 2)%nat then None
    else Some (element 0 coords, element 1 coords).
Proof.
  intros Hg Hc. unfold Spec.lonLat. rewrite Hg, Hc.
  destruct coords as [|a [|b rest]]; reflexivity.
Qed.

(** The checks of a node add its own errors to the errors collected so
    far, whatever these are. *)
Lemma validateOwn_ownErrors (node : GeoNode) (path : string)
  (errs : list ValidationError) :
  validateOwn node path errs = errs ++ ownErrors node path.
Proof.
  unfold DataProcessing.validateOwn, Spec.ownErrors, push, Js.truthy, Spec.outside.
  rewrite !negb_involutive.
  destruct (geometry node) as [g|] eqn:Hg.
  - destruct (coordinates g) as [coords|] eqn:Hc.
    + rewrite (lonLat_elements node g coords Hg Hc).
      destruct (id node =? ""), (label node =? ""),
        (List.length coords <? 2)%nat; cbn [app];
        repeat match goal with
               | |- context [if ?b then _ else _] => destruct b
               end;
        rewrite <- ?app_assoc, ?app_nil_r; reflexivity.
    + assert (Hl : Spec.lonLat node = None)
        by (unfold Spec.lonLat; now rewrite Hg, Hc).
      rewrite Hl.
      destruct (id node =? ""), (label node =? "");
        rewrite <- ?app_assoc; reflexivity.
  - destruct (id node =? ""), (label node =? "");
      rewrite <- ?app_assoc; reflexivity.
Qed.

Lemma forEachFrom_validate (pathOf : nat -> string) (cs : list GeoNode) :
  Forall (fun c => forall path errs,
            validateNode c path errs
            = errs ++ flat_map errorsOf (Spec.descendants c path)) cs ->
  forall i errs,
    Js.forEachFrom (fun c j e => validateNode c (pathOf j) e) i cs errs
    = errs ++ flat_map errorsOf
        (Js.forEachFrom (fun c j acc => acc ++ Spec.descendants c (pathOf j))
                        i cs []).
Proof.
  induction 1 as [|c cs Hc _ IH]; intros i errs; simpl.
  - now rewrite app_nil_r.
  - rewrite IH, Hc.
    rewrite (forEachFrom_append _ _ (fun c j => Spec.descendants c (pathOf j))
                                cs (S i) (Spec.descendants c (pathOf i))).
    now rewrite flat_map_app, app_assoc.
Qed.

(** [validateNode] appends the own errors of every node of the
    subtree, parents first. *)
Lemma validateNode_descendants (node : GeoNode) :
  forall path errs,
    validateNode node path errs
    = errs ++ flat_map errorsOf (Spec.descendants node path).
Proof.
  induction node as [i l p g f|i l p g cs f IH] using GeoNode_children_ind;
    intros path errs.
  - cbn [DataProcessing.validateNode Spec.descendants flat_map].
    rewrite validateOwn_ownErrors. unfold Spec.errorsOf. cbn [fst snd].
    now rewrite app_nil_r.
  - cbn [DataProcessing.validateNode Spec.descendants flat_map]. unfold Js.forEach.
    rewrite (forEachFrom_validate (childPath path) cs IH).
    rewrite validateOwn_ownErrors. unfold Spec.errorsOf at 2. cbn [fst snd].
    now rewrite app_assoc.
Qed.

Lemma validateData_located (locations : list GeoNode) :
  errors (validateData (Some (mkData (Some locations))))
  = flat_map errorsOf (Spec.located locations).
Proof.
  unfold DataProcessing.validateData, Spec.located, Js.forEach.
  cbn [GeoLocations errors].
  rewrite (forEachFrom_validate rootPath locations).
  - reflexivity.
  - apply Forall_forall. intros n _. apply validateNode_descendants.
Qed.

Lemma validateData_isValid (locations : list GeoNode) :
  isValid (validateData (Some (mkData (Some locations))))
  = match errors (validateData (Some (mkData (Some locations)))) with
    | [] => true
    | _ :: _ => false
    end.
Proof.
  unfold DataProcessing.validateData. cbn [GeoLocations errors isValid].
  destruct (Js.forEach _ locations []); reflexivity.
Qed.

Lemma located_error (locations : list GeoNode) (n : GeoNode) (path : string)
  (e : ValidationError) :
  In (n, path) (Spec.located locations) -> In e (ownErrors n path) ->
  In e (errors (validateData (Some (mkData (Some locations)))))
  /\ isValid (validateData (Some (mkData (Some locations)))) = false.
Proof.
  intros Hin He.
  assert (H : In e (errors (validateData (Some (mkData (Some locations)))))).
  { rewrite validateData_located. apply in_flat_map.
    exists (n, path). split; [exact Hin|exact He]. }
  split; [exact H|]. rewrite validateData_isValid.
  destruct (errors _); [destruct H|reflexivity].
Qed.

Lemma located_no_errors (locations : list GeoNode) :
  (forall n path, In (n, path) (Spec.located locations) -> ownErrors n path = []) ->
  errors (validateData (Some (mkData (Some locations)))) = []
  /\ isValid (validateData (Some (mkData (Some locations)))) = true.
Proof.
  intros H.
  assert (E : errors (validateData (Some (mkData (Some locations)))) = []).
  { rewrite validateData_located.
    induction (Spec.located locations) as [|[n path] rest IH]; [reflexivity|].
    cbn [flat_map]. unfold Spec.errorsOf at 1. cbn [fst snd].
    rewrite (H n path) by (left; reflexivity).
    apply IH. intros n' p' Hin. apply H. now right. }
  split; [exact E|]. now rewrite validateData_isValid, E.
Qed.

(** A component within its interval passes the range check. *)
Lemma within_not_outside (lo hi : float) (v : Js.value) :
  Spec.within lo hi v -> Spec.outside StringToNumber lo hi v = false.
Proof.
  intros (x & -> & Hlo & Hhi). unfold Spec.outside, Js.lt, Js.gt. cbn [Js.ToNumber].
  now rewrite (leb_not_gt lo x Hlo), (leb_not_gt x hi Hhi).
Qed.

(** So does NaN, and every value that is not a number and fails both
    comparisons. *)
Lemma nonNumeric_not_outside (lo hi : float) (v : Js.value) :
  Spec.nonNumeric StringToNumber lo hi v ->
  Spec.outside StringToNumber lo hi v = false.
Proof.
  unfold Spec.outside, Js.lt, Js.gt.
  intros [(x & -> & Hnan)|(_ & Hlt & Hgt)].
  - cbn [Js.ToNumber]. now rewrite (nan_not_lt x lo Hnan), (nan_not_gt x hi Hnan).
  - unfold Js.lt in Hlt. unfold Js.gt in Hgt. now rewrite Hlt, Hgt.
Qed.

Lemma nonNumeric_not_valid_lon (lo hi : float) (lon lat : Js.value) :
  Spec.nonNumeric StringToNumber lo hi lon ->
  ProjectionUtils.isValidCoordinate lon lat = false.
Proof.
  intros [(x & -> & Hnan)|(Hn & _)].
  - destruct lat; try reflexivity. unfold ProjectionUtils.isValidCoordinate.
    now rewrite Hnan.
  - destruct lon; try discriminate; reflexivity.
Qed.

Lemma nonNumeric_not_valid_lat (lo hi : float) (lon lat : Js.value) :
  Spec.nonNumeric StringToNumber lo hi lat ->
  ProjectionUtils.isValidCoordinate lon lat = false.
Proof.
  intros [(x & -> & Hnan)|(Hn & _)].
  - destruct lon; try reflexivity. unfold ProjectionUtils.isValidCoordinate.
    rewrite Hnan. now rewrite orb_true_r.
  - destruct lon, lat; try discriminate; reflexivity.
Qed.

Lemma ownErrors_clean (node : GeoNode) (path : string) (lon lat : Js.value) :
  id node <> "" -> label node <> "" ->
  Spec.lonLat node = Some (lon, lat) ->
  Spec.outside StringToNumber (-180) 180 lon = false ->
  Spec.outside StringToNumber (-90) 90 lat = false ->
  ownErrors node path = [].
Proof.
  intros Hid Hlabel Hll Hlon Hlat. unfold Spec.ownErrors.
  rewrite Hll, Hlon, Hlat.
  destruct (String.eqb_spec (id node) "") as [|_]; [contradiction|].
  destruct (String.eqb_spec (label node) "") as [|_]; [contradiction|].
  unfold Spec.lonLat in Hll.
  destruct (geometry node); [reflexivity|discriminate].
Qed.

Lemma lonLat_displayable (n : GeoNode) (lon lat : Js.value)
  (parent : option GeoNode) (level count : option Z) :
  Spec.lonLat n = Some (lon, lat) ->
  ProjectionUtils.isValidCoordinate lon lat = false ->
  GeoMapWidget.displayable (mkMarker n parent level count) = false.
Proof.
  unfold Spec.lonLat, GeoMapWidget.displayable. cbn [node].
  destruct (geometry n) as [g|]; [|reflexivity].
  destruct (coordinates g) as [[|a [|b rest]]|]; try discriminate.
  intros [= -> ->] H. unfold element. cbn [nth]. now rewrite H.
Qed.

Local Abbreviation validated locations :=
  (validateData (Some (mkData (Some locations)))).

(** C8: [validateData] collects the errors of every requirement of
    every node, children included, without stopping at the first: its
    errors are the own errors of all the nodes of the tree, and the
    tree is valid exactly when there are none.  A node whose
    coordinates are [[200, 10]] yields an error that cites the
    longitude 200 and the path of the node; a tree in which every node
    has a non-empty id, a non-empty label and coordinates with
    longitude in [-180, 180] and latitude in [-90, 90] yields no error
    and is valid. *)
Theorem validateData_collects_errors (locations : list GeoNode) :
  errors (validated locations) = flat_map errorsOf (Spec.located locations)
  /\ isValid (validated locations)
     = match errors (validated locations) with [] => true | _ :: _ => false end
  /\ (forall n path,
        In (n, path) (Spec.located locations) ->
        geometry n = Some (mkGeometry (Some [Js.Num 200; Js.Num 10])) ->
        In (InvalidLongitude (Js.Num 200) path) (errors (validated locations))
        /\ isValid (validated locations) = false)
  /\ ((forall n path,
         In (n, path) (Spec.located locations) -> Spec.wellFormed n) ->
      errors (validated locations) = []
      /\ isValid (validated locations) = true).
Proof.
  split; [apply validateData_located|].
  split; [apply validateData_isValid|].
  split.
  - intros n path Hin Hg. apply (located_error locations n path _ Hin).
    unfold Spec.ownErrors, Spec.lonLat. rewrite Hg. cbn [coordinates].
    apply in_or_app. right. apply in_or_app. right.
    left. reflexivity.
  - intros Hwf. apply located_no_errors. intros n path Hin.
    destruct (Hwf n path Hin) as (Hid & Hlabel & lon & lat & Hll & Hlon & Hlat).
    apply (ownErrors_clean n path lon lat Hid Hlabel Hll);
      now apply within_not_outside.
Qed.

Lemma unreported_not_outside (lo hi : float) (v : Js.value) :
  Spec.unreported StringToNumber lo hi v ->
  Spec.outside StringToNumber lo hi v = false.
Proof.
  intros [H|H]; [now apply within_not_outside|now apply nonNumeric_not_outside].
Qed.

(** An error of one kind is not in a concatenation of optional errors
    of other kinds. *)
Ltac absent_from_appended Hin :=
  repeat (apply in_app_or in Hin; destruct Hin as [Hin|Hin]);
  repeat match type of Hin with
         | In _ (if ?b then _ else _) => destruct b
         end;
  simpl in Hin; intuition discriminate.

Lemma ownErrors_no_longitude (n : GeoNode) (path : string) (lon lat : Js.value) :
  Spec.lonLat n = Some (lon, lat) ->
  Spec.outside StringToNumber (-180) 180 lon = false ->
  forall v p, ~ In (InvalidLongitude v p) (ownErrors n path).
Proof.
  intros Hll Hlon v p Hin. unfold Spec.ownErrors in Hin.
  rewrite Hll, Hlon in Hin.
  destruct (geometry n); absent_from_appended Hin.
Qed.

Lemma ownErrors_no_latitude (n : GeoNode) (path : string) (lon lat : Js.value) :
  Spec.lonLat n = Some (lon, lat) ->
  Spec.outside StringToNumber (-90) 90 lat = false ->
  forall v p, ~ In (InvalidLatitude v p) (ownErrors n path).
Proof.
  intros Hll Hlat v p Hin. unfold Spec.ownErrors in Hin.
  rewrite Hll, Hlat in Hin.
  destruct (geometry n); absent_from_appended Hin.
Qed.

(** C10: a coordinate component that is NaN, or that is not a number
    and fails both range comparisons, raises no error.  For a node
    whose coordinate array has at least two components: with such a
    longitude no longitude error is reported for the node, with such a
    latitude no latitude error, and neither when the other component
    is within its interval; yet [isValidCoordinate] rejects the
    coordinates.  A tree of such nodes, with ids and labels, is
    reported valid although none of its nodes is displayable. *)
Theorem validateData_accepts_non_numeric (locations : list GeoNode) :
  (forall n path lon lat,
      Spec.lonLat n = Some (lon, lat) ->
      (Spec.nonNumeric StringToNumber (-180) 180 lon ->
       forall v p, ~ In (InvalidLongitude v p) (validateOwn n path []))
      /\ (Spec.nonNumeric StringToNumber (-90) 90 lat ->
          forall v p, ~ In (InvalidLatitude v p) (validateOwn n path []))
      /\ (Spec.unreported StringToNumber (-180) 180 lon ->
          Spec.unreported StringToNumber (-90) 90 lat ->
          forall v p, ~ In (InvalidLongitude v p) (validateOwn n path [])
                      /\ ~ In (InvalidLatitude v p) (validateOwn n path []))
      /\ (Spec.nonNumeric StringToNumber (-180) 180 lon
          \/ Spec.nonNumeric StringToNumber (-90) 90 lat ->
          ProjectionUtils.isValidCoordinate lon lat = false))
  /\ ((forall n path,
         In (n, path) (Spec.located locations) ->
         Spec.nonNumericNode StringToNumber n) ->
      errors (validated locations) = []
      /\ isValid (validated locations) = true
      /\ forall n path parent level count,
          In (n, path) (Spec.located locations) ->
          GeoMapWidget.displayable (mkMarker n parent level count) = false).
Proof.
  split.
  - intros n path lon lat Hll. rewrite validateOwn_ownErrors. cbn [app].
    split; [|split; [|split]].
    + intros Hlon. apply (ownErrors_no_longitude n path lon lat Hll).
      now apply nonNumeric_not_outside.
    + intros Hlat. apply (ownErrors_no_latitude n path lon lat Hll).
      now apply nonNumeric_not_outside.
    + intros Hlon Hlat v p. split.
      * apply (ownErrors_no_longitude n path lon lat Hll).
        now apply unreported_not_outside.
      * apply (ownErrors_no_latitude n path lon lat Hll).
        now apply unreported_not_outside.
    + intros [H|H].
      * exact (nonNumeric_not_valid_lon _ _ lon lat H).
      * exact (nonNumeric_not_valid_lat _ _ lon lat H).
  - intros Hall.
    assert (Hclean : forall n path,
               In (n, path) (Spec.located locations) -> ownErrors n path = []).
    { intros n path Hin.
      destruct (Hall n path Hin)
        as (Hid & Hlabel & lon & lat & Hll & Hlon & Hlat & _).
      apply (ownErrors_clean n path lon lat Hid Hlabel Hll);
        now apply unreported_not_outside. }
    destruct (located_no_errors locations Hclean) as [He Hv].
    split; [exact He|]. split; [exact Hv|].
    intros n path parent level count Hin.
    destruct (Hall n path Hin) as (_ & _ & lon & lat & Hll & _ & _ & [H|H]);
      apply (lonLat_displayable n lon lat parent level count Hll).
    + exact (nonNumeric_not_valid_lon _ _ lon lat H).
    + exact (nonNumeric_not_valid_lat _ _ lon lat H).
Qed.

End ValidationFacts.

(** ** Selection (src/utils/selection.js) *)

Section SelectionFacts.
Import Geo SelectionManager.

Lemma size_zero (m : JsMap.t Marker) :
  (JsMap.size m =? 0)%Z = true <-> m = [].
Proof.
  unfold JsMap.size. destruct m; simpl; split; intros H;
    try reflexivity; discriminate.
Qed.

Lemma size_zero_false (m : JsMap.t Marker) :
  (JsMap.size m =? 0)%Z = false <-> m <> [].
Proof.
  rewrite <- size_zero. destruct (JsMap.size m =? 0)%Z; split; congruence.
Qed.

Lemma has_In (key : string) (m : JsMap.t Marker) :
  JsMap.has key m = true -> exists v, In (key, v) m.
Proof.
  unfold JsMap.has. intros H. apply existsb_exists in H.
  destruct H as ([k v] & Hin & Hk). apply String.eqb_eq in Hk. simpl in Hk.
  subst. now exists v.
Qed.

Lemma has_false_set (key : string) (v : Marker) (m : JsMap.t Marker) :
  JsMap.has key m = false -> JsMap.set key v m = m ++ [(key, v)].
Proof.
  induction m as [|e m IH]; simpl; [reflexivity|].
  destruct (fst e =? key)%string; simpl; [discriminate|].
  intros H. now rewrite IH.
Qed.

Lemma delete_In (key k : string) (v : Marker) (m : JsMap.t Marker) :
  In (k, v) (JsMap.delete key m) -> In (k, v) m.
Proof. unfold JsMap.delete. intros H. now apply filter_In in H. Qed.

(** Removing entries and unsetting the level when none is left keeps a
    selection consistent. *)
Lemma consistent_shrink (m m' : JsMap.t Marker) (level : option Z) :
  Spec.consistentWith m level ->
  (forall k v, In (k, v) m' -> In (k, v) m) ->
  Spec.consistentWith m' (if (JsMap.size m' =? 0)%Z then None else level).
Proof.
  intros [Hempty Hlevels] Hsub.
  destruct (JsMap.size m' =? 0)%Z eqn:E.
  - apply size_zero in E. subst. split; [tauto|]. intros k v [].
  - apply size_zero_false in E. split.
    + split; [contradiction|]. intros ->.
      destruct m' as [|[k v] rest]; [contradiction|].
      assert (Hin : In (k, v) m) by (apply Hsub; now left).
      destruct Hempty as [_ Hnone]. rewrite Hnone in Hin by reflexivity.
      destruct Hin.
    + intros k v Hin. apply (Hlevels k v). now apply Hsub.
Qed.

Lemma consistent_single (m : Marker) (level : Z) :
  Spec.consistentWith [(markerId m, withLevel level m)] (Some level).
Proof.
  split.
  - split; discriminate.
  - intros k v [[= <- <-]|[]]. reflexivity.
Qed.

Lemma consistent_clearSelection (emit : bool) (s : State) :
  Spec.consistent (clearSelection emit s).
Proof.
  unfold Spec.consistent, clearSelection.
  destruct emit; simpl; (split; [tauto|intros k v []]).
Qed.

Lemma consistent_deselectMarker (markerId : string) (s : State) :
  Spec.consistent s -> Spec.consistent (snd (deselectMarker markerId s)).
Proof.
  intros H. unfold deselectMarker.
  destruct (JsMap.has markerId (selectedMarkers s)); [|exact H].
  cbn [negb snd]. unfold Spec.consistent.
  cbn [emitChange selectedMarkers selectionHierarchyLevel setMarkers].
  pose proof (consistent_shrink _ (JsMap.delete markerId (selectedMarkers s)) _ H
                (fun k v => delete_In markerId k v (selectedMarkers s))) as C.
  destruct (JsMap.size (JsMap.delete markerId (selectedMarkers s)) =? 0)%Z;
    exact C.
Qed.

Lemma pruneStep_sub (ids : list string) (keys : list string)
  (m : JsMap.t Marker) (acc : JsMap.t Marker * bool) :
  (forall k v, In (k, v) (fst acc) -> In (k, v) m) ->
  forall k v, In (k, v) (fst (fold_left (pruneStep ids) keys acc)) -> In (k, v) m.
Proof.
  revert acc. induction keys as [|key keys IH]; intros acc Hacc; simpl.
  - exact Hacc.
  - apply IH. unfold pruneStep.
    destruct (negb (existsb (fun e => (e =? key)%string) ids)); [|exact Hacc].
    intros k v Hin. apply Hacc. cbn [fst] in Hin. now apply delete_In in Hin.
Qed.

Lemma consistent_pruneInvalidSelections (ids : list string) (s : State) :
  Spec.consistent s -> Spec.consistent (snd (pruneInvalidSelections ids s)).
Proof.
  intros H. unfold pruneInvalidSelections. cbn [snd].
  set (r := fold_left (pruneStep ids) (JsMap.keys (selectedMarkers s))
                      (selectedMarkers s, false)).
  pose proof (consistent_shrink _ (fst r) _ H
                (pruneStep_sub ids _ (selectedMarkers s) (selectedMarkers s, false)
                               (fun k v Hin => Hin))) as C.
  unfold Spec.consistent.
  cbn [setMarkers selectedMarkers selectionHierarchyLevel].
  destruct (JsMap.size (fst r) =? 0)%Z, (snd r); exact C.
Qed.

Lemma levelDiffers_false (current : option Z) (level : Z) :
  levelDiffers current level = false -> current = Some level.
Proof.
  destruct current as [l|]; simpl; [|discriminate].
  intros H. apply negb_false_iff, Z.eqb_eq in H. now subst.
Qed.

(** Storing a marker at the level of a consistent selection, or on an
    empty selection, keeps it consistent. *)
Lemma consistent_store (m : Marker) (level : Z) (s : State) :
  Spec.consistent s ->
  selectedMarkers s = [] \/ selectionHierarchyLevel s = Some level ->
  JsMap.has (markerId m) (selectedMarkers s) = false ->
  Spec.consistent (store m level s).
Proof.
  intros [Hempty Hlevels] Hs Hnew. unfold Spec.consistent, store.
  cbn [setMarkers setLevel selectedMarkers selectionHierarchyLevel].
  rewrite has_false_set by exact Hnew. split.
  - split; [|discriminate]. destruct (selectedMarkers s); discriminate.
  - intros k v Hin. apply in_app_or in Hin. destruct Hin as [Hin|[[= <- <-]|[]]].
    + destruct Hs as [Hs|Hs].
      * rewrite Hs in Hin. destruct Hin.
      * rewrite <- Hs. now apply (Hlevels k v).
    + reflexivity.
Qed.

Lemma consistent_emitChange (s : State) :
  Spec.consistent s -> Spec.consistent (emitChange s).
Proof. intros H. exact H. Qed.

Create HintDb selection.
#[local] Hint Resolve consistent_clearSelection consistent_deselectMarker
  consistent_pruneInvalidSelections : selection.

(** The state that [store] and [emitChange] leave is consistent. *)
Ltac stored_consistent :=
  apply consistent_emitChange, consistent_store; auto with selection.

Lemma consistent_selectMarker (m : Marker) (level : Z) (multi : bool) (s : State) :
  Spec.consistent s -> Spec.consistent (snd (selectMarker m level multi s)).
Proof.
  intros H. unfold selectMarker.
  destruct (JsMap.has (markerId m) (selectedMarkers s)) eqn:Hhas;
    [auto with selection|].
  unfold isSelectionCompatible. rewrite Hhas.
  destruct (JsMap.size (selectedMarkers s) =? 0)%Z eqn:Hsize.
  - (* empty selection: the marker is added *)
    cbn [compatible negb why]. apply size_zero in Hsize.
    assert (Hgt : (JsMap.size (selectedMarkers s) >? 0)%Z = false)
      by now rewrite Hsize.
    rewrite Hgt, andb_false_r. cbn [snd]. stored_consistent.
  - destruct (levelDiffers (selectionHierarchyLevel s) level) eqn:Hlevel.
    + (* another level: the selection is replaced *)
      cbn [compatible negb why snd]. stored_consistent.
    + apply levelDiffers_false in Hlevel.
      destruct (JsMap.size (selectedMarkers s) >=? maxSelections s)%Z.
      * (* rejected: nothing changes *)
        cbn [compatible negb why snd]. exact H.
      * (* same level: replaced or extended *)
        cbn [compatible negb why].
        destruct (negb multi && (JsMap.size (selectedMarkers s) >? 0)%Z);
          cbn [snd]; stored_consistent.
Qed.

Lemma consistent_perform (c : Spec.Call) (s : State) :
  Spec.consistent s -> Spec.consistent (Spec.perform s c).
Proof.
  intros H. destruct c; unfold Spec.perform;
    auto using consistent_selectMarker with selection.
Qed.

Lemma consistent_run (calls : list Spec.Call) (s : State) :
  Spec.consistent s -> Spec.consistent (Spec.run calls s).
Proof.
  revert s. induction calls as [|c calls IH]; intros s H; simpl.
  - exact H.
  - apply IH. now apply consistent_perform.
Qed.

(** C1: after every sequence of [selectMarker], [deselectMarker],
    [clearSelection] and [pruneInvalidSelections] calls on a new
    selection manager, the selection is empty exactly when
    [selectionHierarchyLevel] is [null], and the [_level] stored with
    every selected marker is [selectionHierarchyLevel]. *)
Theorem selection_level_invariant (maxSel : option Z) (calls : list Spec.Call) :
  Spec.consistent (Spec.run calls (SelectionManager.new maxSel)).
Proof.
  apply consistent_run. split.
  - simpl. tauto.
  - intros k v [].
Qed.

Lemma has_single (key : string) (m : Marker) (other : string) :
  JsMap.has other [(key, m)] = (key =? other)%string.
Proof. unfold JsMap.has. simpl. apply orb_false_r. Qed.

Lemma levelDiffers_same (level : Z) : levelDiffers (Some level) level = false.
Proof. simpl. now rewrite Z.eqb_refl. Qed.

Lemma levelDiffers_other (l1 l2 : Z) :
  l2 <> l1 -> levelDiffers (Some l1) l2 = true.
Proof.
  intros H. simpl. apply negb_true_iff, Z.eqb_neq. congruence.
Qed.

(** Below [maxSelections], a click without the modifier on a marker of
    the level of the selection replaces the selection by that marker. *)
Lemma selectMarker_single_click_below_max (s : State) (m : Marker) (level : Z) :
  selectedMarkers s <> [] -> selectionHierarchyLevel s = Some level ->
  JsMap.has (markerId m) (selectedMarkers s) = false ->
  (JsMap.size (selectedMarkers s) >=? maxSelections s)%Z = false ->
  getSelection (snd (selectMarker m level false s)) = [withLevel level m]
  /\ selectionHierarchyLevel (snd (selectMarker m level false s)) = Some level
  /\ fst (selectMarker m level false s)
     = mkResult true (Some added) (Some m) None None None.
Proof.
  intros Hne Hlevel Hnew Hmax. unfold selectMarker, isSelectionCompatible.
  apply size_zero_false in Hne.
  rewrite Hnew, Hne, Hlevel, levelDiffers_same, Hmax.
  cbn [compatible negb why andb].
  assert (Hpos : (JsMap.size (selectedMarkers s) >? 0)%Z = true).
  { apply Z.gtb_lt. apply Z.eqb_neq in Hne. unfold JsMap.size in *. lia. }
  rewrite Hpos. repeat split.
Qed.

(** At [maxSelections] the same click is rejected and changes
    nothing. *)
Lemma selectMarker_single_click_at_max (s : State) (m : Marker) (level : Z) :
  selectedMarkers s <> [] -> selectionHierarchyLevel s = Some level ->
  JsMap.has (markerId m) (selectedMarkers s) = false ->
  (JsMap.size (selectedMarkers s) >=? maxSelections s)%Z = true ->
  snd (selectMarker m level false s) = s
  /\ success (fst (selectMarker m level false s)) = false
  /\ reason (fst (selectMarker m level false s)) = Some max_selections.
Proof.
  intros Hne Hlevel Hnew Hmax. unfold selectMarker, isSelectionCompatible.
  apply size_zero_false in Hne.
  rewrite Hnew, Hne, Hlevel, levelDiffers_same, Hmax.
  repeat split.
Qed.

(** C2, on the code: with [maxSelections = 1] and Germany selected at
    level 2, a click without the modifier on France at level 2 is
    rejected with [max_selections]; Germany stays selected and nothing
    is added. *)
Theorem selectMarker_single_click_rejected_at_max :
  getSelection (snd (selectMarker (Sample.markerOf Sample.germany) 2 false
                                  (SelectionManager.new (Some 1%Z))))
  = [withLevel 2 (Sample.markerOf Sample.germany)]
  /\ selectMarker (Sample.markerOf Sample.france) 2 false
       (snd (selectMarker (Sample.markerOf Sample.germany) 2 false
                          (SelectionManager.new (Some 1%Z))))
     = (mkResult false None None None (Some max_selections)
                 (Some "Maximum selections (1) reached"),
        snd (selectMarker (Sample.markerOf Sample.germany) 2 false
                          (SelectionManager.new (Some 1%Z)))).
Proof. split; reflexivity. Qed.

(** C3: with a non-empty selection at level [L1], selecting a marker
    that is not selected at another level [L2], with or without the
    multi-select flag, leaves exactly that marker selected, at level
    [L2], and returns a success with action [replaced]. *)
Theorem selectMarker_cross_level_replaces
  (s : State) (m : Marker) (L1 L2 : Z) (isMultiSelect : bool) :
  selectedMarkers s <> [] ->
  selectionHierarchyLevel s = Some L1 ->
  L2 <> L1 ->
  JsMap.has (markerId m) (selectedMarkers s) = false ->
  selectedMarkers (snd (selectMarker m L2 isMultiSelect s))
  = [(markerId m, withLevel L2 m)]
  /\ getSelection (snd (selectMarker m L2 isMultiSelect s)) = [withLevel L2 m]
  /\ selectionHierarchyLevel (snd (selectMarker m L2 isMultiSelect s)) = Some L2
  /\ fst (selectMarker m L2 isMultiSelect s)
     = mkResult true (Some replaced) (Some m) (Some true) None None.
Proof.
  intros Hne Hlevel Hdiff Hnew. unfold selectMarker, isSelectionCompatible.
  apply size_zero_false in Hne.
  rewrite Hnew, Hne, Hlevel, (levelDiffers_other L1 L2 Hdiff).
  repeat split.
Qed.

(** C4: with [maxSelections = 2], selecting three markers with distinct
    ids at one level with the multi-select flag selects the first two,
    in order; the third call fails with reason [max_selections] and
    leaves the state as it was. *)
Theorem selectMarker_max_selections_boundary (m1 m2 m3 : Marker) (level : Z) :
  markerId m1 <> markerId m2 ->
  markerId m1 <> markerId m3 ->
  markerId m2 <> markerId m3 ->
  getSelection (Spec.run [Spec.Select m1 level true; Spec.Select m2 level true]
                         (SelectionManager.new (Some 2%Z)))
  = [withLevel level m1; withLevel level m2]
  /\ selectMarker m3 level true
       (Spec.run [Spec.Select m1 level true; Spec.Select m2 level true]
                 (SelectionManager.new (Some 2%Z)))
     = (mkResult false None None None (Some max_selections)
                 (Some "Maximum selections (2) reached"),
        Spec.run [Spec.Select m1 level true; Spec.Select m2 level true]
                 (SelectionManager.new (Some 2%Z)))
  /\ getSelection
       (Spec.run [Spec.Select m1 level true; Spec.Select m2 level true;
                  Spec.Select m3 level true]
                 (SelectionManager.new (Some 2%Z)))
     = [withLevel level m1; withLevel level m2].
Proof.
  intros H12 H13 H23.
  apply String.eqb_neq in H12, H13, H23.
  assert (E2 : Spec.run [Spec.Select m1 level true; Spec.Select m2 level true]
                        (SelectionManager.new (Some 2%Z))
               = mkState [(markerId m1, withLevel level m1);
                          (markerId m2, withLevel level m2)]
                         (Some level) 2
                         [[withLevel level m1];
                          [withLevel level m1; withLevel level m2]]).
  { assert (E1 : snd (selectMarker m1 level true (SelectionManager.new (Some 2%Z)))
                 = mkState [(markerId m1, withLevel level m1)] (Some level) 2
                           [[withLevel level m1]]) by reflexivity.
    unfold Spec.run, fold_left, Spec.perform. rewrite E1.
    unfold selectMarker, isSelectionCompatible.
    cbn [selectedMarkers selectionHierarchyLevel maxSelections].
    rewrite has_single, H12, levelDiffers_same.
    cbn. unfold emitChange, store, getSelection.
    cbn [setMarkers setLevel selectedMarkers selectionHierarchyLevel
         maxSelections notifications JsMap.set fst].
    rewrite H12. reflexivity. }
  assert (E3 : selectMarker m3 level true
                 (mkState [(markerId m1, withLevel level m1);
                           (markerId m2, withLevel level m2)]
                          (Some level) 2
                          [[withLevel level m1];
                           [withLevel level m1; withLevel level m2]])
               = (mkResult false None None None (Some max_selections)
                           (Some "Maximum selections (2) reached"),
                  mkState [(markerId m1, withLevel level m1);
                           (markerId m2, withLevel level m2)]
                          (Some level) 2
                          [[withLevel level m1];
                           [withLevel level m1; withLevel level m2]])).
  { unfold selectMarker, isSelectionCompatible.
    cbn [selectedMarkers selectionHierarchyLevel maxSelections].
    unfold JsMap.has. cbn [existsb fst]. rewrite H13, H23, levelDiffers_same.
    reflexivity. }
  split; [now rewrite E2|]. split; [now rewrite E2, E3|].
  change (Spec.run [Spec.Select m1 level true; Spec.Select m2 level true;
                    Spec.Select m3 level true] (SelectionManager.new (Some 2%Z)))
    with (snd (selectMarker m3 level true
                 (Spec.run [Spec.Select m1 level true; Spec.Select m2 level true]
                           (SelectionManager.new (Some 2%Z))))).
  now rewrite E2, E3.
Qed.

End SelectionFacts.

(** ** The widget *)

Section WidgetFacts.
Import Geo GeoMapWidget.

Lemma renderMarkers_level (w : Widget) :
  currentZoomLevel (state (renderMarkers w)) = currentZoomLevel (state w).
Proof. reflexivity. Qed.

Lemma transitionToLevel_level (newLevel previousLevel : Z) (w : Widget) :
  currentZoomLevel (state (transitionToLevel newLevel previousLevel w))
  = currentZoomLevel (state w).
Proof.
  unfold transitionToLevel. destruct (isTransitioning (state w)); [reflexivity|].
  rewrite renderMarkers_level. destruct (newLevel <? previousLevel)%Z; reflexivity.
Qed.

Lemma handleZoom_level (t : Transform) (w : Widget) :
  currentZoomLevel (state (handleZoom t w))
  = zoomLevelFor (zoomThresholds w) (k t).
Proof.
  unfold handleZoom.
  cbn [setState setZoomTransform state currentZoomLevel zoomThresholds].
  destruct (zoomLevelFor (zoomThresholds w) (k t) =? currentZoomLevel (state w))%Z
    eqn:E; cbn [negb].
  - apply Z.eqb_eq in E. now rewrite E.
  - now rewrite transitionToLevel_level.
Qed.

(** C6: with the default thresholds the level that [handleZoom] leaves
    depends on the scale alone, whatever the widget was showing: it is
    3 from scale 5 on, otherwise 2 from scale 2.5 on, otherwise 1.
    Scale 1 gives level 1, scales 2.5 and 4.99 give level 2, scale 5
    gives level 3. *)
Theorem handleZoom_level_of_scale (t : Transform) (w : Widget) :
  zoomThresholds w = mkZoomThresholds 1 2.5 5 ->
  currentZoomLevel (state (handleZoom t w)) = Spec.levelOfScale (k t)
  /\ Spec.levelOfScale 1 = 1%Z
  /\ Spec.levelOfScale 2.5 = 2%Z
  /\ Spec.levelOfScale 4.99 = 2%Z
  /\ Spec.levelOfScale 5 = 3%Z.
Proof.
  intros Hth. split; [|repeat split].
  rewrite handleZoom_level, Hth. reflexivity.
Qed.

(** C9: when the new data fail validation [updateData] returns [false]
    and the widget is as it was: [originalData], [filteredData], the
    active filters and the selection are those of before the call. *)
Theorem updateData_invalid_keeps_state
  (StringToNumber : string -> float) (newData : option Data) (w : Widget) :
  DataProcessing.isValid (DataProcessing.validateData StringToNumber newData)
  = false ->
  updateData StringToNumber newData w = (false, w)
  /\ originalData (snd (updateData StringToNumber newData w)) = originalData w
  /\ filteredData (snd (updateData StringToNumber newData w)) = filteredData w
  /\ activeFilters (state (snd (updateData StringToNumber newData w)))
     = activeFilters (state w)
  /\ selectionManager (snd (updateData StringToNumber newData w))
     = selectionManager w.
Proof.
  intros H. unfold updateData. rewrite H. repeat split.
Qed.

End WidgetFacts.

(** ** The properties on the sample data *)

Section SampleRuns.
Import Geo.

(** Every failed requirement of a node is reported, then those of its
    children. *)
Example validateData_reports_all :
  DataProcessing.errors
    (DataProcessing.validateData Sample.noStrings
       (Some (mkData (Some [mkGeoNode "" "" None (Sample.at_ 200 (-91))
                              (Some [mkGeoNode "x" "X" None None None None])
                              None]))))
  = [DataProcessing.MissingId "GeoLocations[0]";
     DataProcessing.MissingLabel "GeoLocations[0]";
     DataProcessing.InvalidLongitude (Js.Num 200) "GeoLocations[0]";
     DataProcessing.InvalidLatitude (Js.Num (-91)) "GeoLocations[0]";
     DataProcessing.MissingGeometry "GeoLocations[0].children[0]"].
Proof. reflexivity. Qed.

(** A datacentre filter keeps the path to the matching datacenter. *)
Example filterData_datacentre :
  option_map Spec.eraseData
    (DataProcessing.filterData (Some Sample.data)
                               (mkFilterSet None None (Some "Paris")))
  = Some (mkData (Some
      [mkGeoNode "eu" "Europe" (Some [mkProperty "CategoryValue" "Europe"])
                 (Sample.at_ 15.25 54.5)
                 (Some [mkGeoNode "fr" "France" None (Sample.at_ 2.25 46.25)
                                  (Some [Sample.paris]) None])
                 None])).
Proof. reflexivity. Qed.

(** Valid data are stored and rendered at level 1. *)
Example updateData_sample :
  fst (GeoMapWidget.updateData Sample.noStrings (Some Sample.data)
                               (GeoMapWidget.new None)) = true
  /\ map markerId
       (GeoMapWidget.visibleMarkers
          (GeoMapWidget.state
             (snd (GeoMapWidget.updateData Sample.noStrings (Some Sample.data)
                                           (GeoMapWidget.new None)))))
     = ["eu"]
  /\ map _count
       (GeoMapWidget.visibleMarkers
          (GeoMapWidget.state
             (snd (GeoMapWidget.updateData Sample.noStrings (Some Sample.data)
                                           (GeoMapWidget.new None)))))
     = [Some 2%Z].
Proof. repeat split. Qed.

(** Data whose only node has coordinates that are not numbers are
    accepted, and nothing is shown. *)
Example updateData_nowhere :
  fst (GeoMapWidget.updateData Sample.noStrings
         (Some (mkData (Some [Sample.nowhere]))) (GeoMapWidget.new None)) = true
  /\ GeoMapWidget.visibleMarkers
       (GeoMapWidget.state
          (snd (GeoMapWidget.updateData Sample.noStrings
                  (Some (mkData (Some [Sample.nowhere])))
                  (GeoMapWidget.new None))))
     = [].
Proof. split; reflexivity. Qed.

(** Selecting Germany at level 2 while Europe is selected at level 1. *)
Lemma selectMarker_cross_level_replaces_witness :
  SelectionManager.getSelection
    (snd (SelectionManager.selectMarker (Sample.markerOf Sample.germany) 2 true
            (snd (SelectionManager.selectMarker (Sample.markerOf Sample.europe) 1 false
                    (SelectionManager.new None)))))
  = [withLevel 2 (Sample.markerOf Sample.germany)].
Proof.
  apply (selectMarker_cross_level_replaces
           (snd (SelectionManager.selectMarker (Sample.markerOf Sample.europe) 1 false
                   (SelectionManager.new None)))
           (Sample.markerOf Sample.germany) 1 2 true).
  - simpl. discriminate.
  - reflexivity.
  - lia.
  - reflexivity.
Defined.

(** Germany, France and Europe selected in turn with a limit of two. *)
Lemma selectMarker_max_selections_boundary_witness :
  SelectionManager.getSelection
    (Spec.run [Spec.Select (Sample.markerOf Sample.germany) 2 true;
               Spec.Select (Sample.markerOf Sample.france) 2 true;
               Spec.Select (Sample.markerOf Sample.europe) 2 true]
              (SelectionManager.new (Some 2%Z)))
  = [withLevel 2 (Sample.markerOf Sample.germany);
     withLevel 2 (Sample.markerOf Sample.france)].
Proof.
  apply (selectMarker_max_selections_boundary
           (Sample.markerOf Sample.germany) (Sample.markerOf Sample.france)
           (Sample.markerOf Sample.europe) 2);
    simpl; discriminate.
Defined.

(** The counts of Europe without filters and for Frankfurt alone. *)
Lemma calculateCounts_counts_matching_leaves_witness :
  DataProcessing.calculateCounts Sample.europe noFilters = 2%Z
  /\ DataProcessing.calculateCounts Sample.europe
       (mkFilterSet None None (Some "Frankfurt")) = 1%Z.
Proof.
  destruct (proj2 (proj2 (calculateCounts_counts_matching_leaves
                            Sample.europe noFilters))
              Sample.germany Sample.france Sample.frankfurt Sample.paris
              eq_refl eq_refl eq_refl eq_refl eq_refl) as [H2 H1].
  split; [exact H2|]. apply H1; simpl; discriminate.
Defined.

(** Zooming a new widget to scale 4.99. *)
Lemma handleZoom_level_of_scale_witness :
  GeoMapWidget.currentZoomLevel
    (GeoMapWidget.state
       (GeoMapWidget.handleZoom (GeoMapWidget.mkTransform 4.99 0 0)
                                (GeoMapWidget.new None)))
  = 2%Z.
Proof.
  apply (handleZoom_level_of_scale (GeoMapWidget.mkTransform 4.99 0 0)
                                   (GeoMapWidget.new None)).
  reflexivity.
Defined.

(** Updating a new widget with a node at longitude 200. *)
Lemma updateData_invalid_keeps_state_witness :
  GeoMapWidget.updateData Sample.noStrings (Some (mkData (Some [Sample.farEast])))
                          (GeoMapWidget.new None)
  = (false, GeoMapWidget.new None).
Proof.
  apply (updateData_invalid_keeps_state Sample.noStrings
           (Some (mkData (Some [Sample.farEast]))) (GeoMapWidget.new None)).
  reflexivity.
Defined.

(** The nodes of the sample tree and their paths. *)
Lemma sample_located :
  Spec.located [Sample.europe]
  = [(Sample.europe, "GeoLocations[0]");
     (Sample.germany, "GeoLocations[0].children[0]");
     (Sample.frankfurt, "GeoLocations[0].children[0].children[0]");
     (Sample.france, "GeoLocations[0].children[1]");
     (Sample.paris, "GeoLocations[0].children[1].children[0]")].
Proof. reflexivity. Qed.

(** The sample tree is valid; with the node at longitude 200 beside it,
    the error names that node. *)
Lemma validateData_collects_errors_witness :
  (In (DataProcessing.InvalidLongitude (Js.Num 200) "GeoLocations[1]")
      (DataProcessing.errors
         (DataProcessing.validateData Sample.noStrings
            (Some (mkData (Some [Sample.europe; Sample.farEast])))))
   /\ DataProcessing.isValid
        (DataProcessing.validateData Sample.noStrings
           (Some (mkData (Some [Sample.europe; Sample.farEast])))) = false)
  /\ (DataProcessing.errors
        (DataProcessing.validateData Sample.noStrings (Some Sample.data)) = []
      /\ DataProcessing.isValid
           (DataProcessing.validateData Sample.noStrings (Some Sample.data)) = true).
Proof.
  split.
  - apply (proj1 (proj2 (proj2 (validateData_collects_errors Sample.noStrings
                                  [Sample.europe; Sample.farEast])))
             Sample.farEast "GeoLocations[1]").
    + simpl. tauto.
    + reflexivity.
  - apply (proj2 (proj2 (proj2 (validateData_collects_errors Sample.noStrings
                                  [Sample.europe])))).
    intros n path Hin. rewrite sample_located in Hin. simpl in Hin.
    assert (Hw : forall lon lat, PrimFloat.leb (-180) lon = true ->
                 PrimFloat.leb lon 180 = true -> PrimFloat.leb (-90) lat = true ->
                 PrimFloat.leb lat 90 = true ->
                 Spec.within (-180) 180 (Js.Num lon)
                 /\ Spec.within (-90) 90 (Js.Num lat)).
    { intros lon lat H1 H2 H3 H4. split; eexists; eauto. }
    unfold Spec.wellFormed.
    destruct Hin as [Hin|[Hin|[Hin|[Hin|[Hin|[]]]]]];
      injection Hin as <- <-;
      (split; [discriminate|split; [discriminate|]]);
      do 2 eexists; (split; [reflexivity|]); apply Hw; reflexivity.
Defined.

(** The node with coordinates [[NaN, undefined]] passes validation. *)
Lemma validateData_accepts_non_numeric_witness :
  DataProcessing.isValid
    (DataProcessing.validateData Sample.noStrings
       (Some (mkData (Some [Sample.nowhere])))) = true
  /\ ProjectionUtils.isValidCoordinate (Js.Num nan) Js.Undefined = false.
Proof.
  assert (Hlon : Spec.nonNumeric Sample.noStrings (-180) 180 (Js.Num nan)).
  { left. exists nan. split; reflexivity. }
  assert (Hlat : Spec.nonNumeric Sample.noStrings (-90) 90 Js.Undefined).
  { right. repeat split. }
  split.
  - apply (proj2 (validateData_accepts_non_numeric Sample.noStrings
                    [Sample.nowhere])).
    intros n path Hin. simpl in Hin. destruct Hin as [Hin|[]].
    injection Hin as <- <-.
    split; [discriminate|]. split; [discriminate|].
    exists (Js.Num nan), Js.Undefined. split; [reflexivity|].
    split; [now right|]. split; [now right|]. now left.
  - apply (proj1 (validateData_accepts_non_numeric Sample.noStrings
                    [Sample.nowhere])
             Sample.nowhere "GeoLocations[0]" (Js.Num nan) Js.Undefined eq_refl).
    now left.
Defined.

End SampleRuns.

(** ** Lookups in the tree (src/utils/dataProcessing.js) *)

Section LookupFacts.
Import Geo DataProcessing.

Lemma find_app_first (A : Type) (p : A -> bool) (l1 l2 : list A) :
  find p (l1 ++ l2)
  = match find p l1 with Some x => Some x | None => find p l2 end.
Proof.
  induction l1 as [|a l1 IH]; simpl; [reflexivity|].
  destruct (p a); [reflexivity|exact IH].
Qed.

Lemma find_map_fst (A B : Type) (p : A -> bool) (l : list (A * B)) :
  find p (map fst l) = option_map fst (find (fun e => p (fst e)) l).
Proof.
  induction l as [|e l IH]; simpl; [reflexivity|].
  destruct (p (fst e)); [reflexivity|exact IH].
Qed.

Lemma firstResult_flat (A B : Type) (f : A -> option B) (p : B -> bool)
  (sub : A -> list B) (cs : list A) :
  Forall (fun c => f c = find p (sub c)) cs ->
  Js.firstResult f cs = find p (flat_map sub cs).
Proof.
  induction 1 as [|c cs Hc _ IH]; simpl; [reflexivity|].
  rewrite find_app_first, Hc. destruct (find p (sub c)); [reflexivity|exact IH].
Qed.

Lemma firstResult_option_map (A B C : Type) (f : A -> option B) (g : B -> C)
  (h : A -> option C) (cs : list A) :
  Forall (fun c => h c = option_map g (f c)) cs ->
  Js.firstResult h cs = option_map g (Js.firstResult f cs).
Proof.
  induction 1 as [|c cs Hc _ IH]; simpl; [reflexivity|].
  rewrite Hc. destruct (f c); [reflexivity|exact IH].
Qed.

Lemma searchNode_find (nodeId : string) (node : GeoNode) :
  searchNode nodeId node
  = find (fun n => id n =? nodeId)%string (Spec.subtree node).
Proof.
  induction node as [i l p g f|i l p g cs f IH] using GeoNode_children_ind;
    cbn [searchNode Spec.subtree find id];
    destruct (i =? nodeId)%string; try reflexivity.
  now apply firstResult_flat.
Qed.

(** X1: [findNodeById] returns the first node, parents before children
    and children in order, whose id is the one asked for, and [null]
    when the tree has none. *)
Theorem findNodeById_first_match (data : option Data) (nodeId : string) :
  findNodeById data nodeId
  = find (fun n => id n =? nodeId)%string (Spec.nodesOf data).
Proof.
  destruct data as [[[ls|]]|]; try reflexivity.
  unfold findNodeById, Spec.nodesOf, Spec.roots. cbn [GeoLocations].
  apply firstResult_flat, Forall_forall. intros n _. apply searchNode_find.
Qed.

Lemma findNode_searchNode (nodeId : string) (node : GeoNode) :
  findNode nodeId node = option_map Spec.childrenOf (searchNode nodeId node).
Proof.
  induction node as [i l p g f|i l p g cs f IH] using GeoNode_children_ind;
    cbn [findNode searchNode id children];
    destruct (i =? nodeId)%string; try reflexivity.
  now apply firstResult_option_map.
Qed.

(** X2: [getChildrenOfNode] returns the children of the node that
    [findNodeById] finds, and the empty array both when that node has
    no children and when no node is found. *)
Theorem getChildrenOfNode_findNodeById (data : option Data) (nodeId : string) :
  getChildrenOfNode data nodeId
  = match findNodeById data nodeId with
    | Some n => Spec.childrenOf n
    | None => []
    end.
Proof.
  destruct data as [[[ls|]]|]; try reflexivity.
  unfold getChildrenOfNode, findNodeById. cbn [GeoLocations].
  rewrite (firstResult_option_map _ _ _ (searchNode nodeId) Spec.childrenOf).
  - destruct (Js.firstResult (searchNode nodeId) ls); reflexivity.
  - apply Forall_forall. intros n _. apply findNode_searchNode.
Qed.

(** *** Levels *)

Lemma subtreeDepths_nodes (d : Z) (node : GeoNode) :
  map fst (Spec.subtreeDepths d node) = Spec.subtree node.
Proof.
  revert d.
  induction node as [i l p g f|i l p g cs f IH] using GeoNode_children_ind;
    intros d; cbn [Spec.subtreeDepths Spec.subtree map fst]; [reflexivity|].
  f_equal. induction IH as [|c cs Hc _ IHcs]; [reflexivity|].
  cbn [flat_map]. now rewrite map_app, Hc, IHcs.
Qed.

Lemma subtreeDepths_ge (d : Z) (node : GeoNode) :
  forall n l, In (n, l) (Spec.subtreeDepths d node) -> (d <= l)%Z.
Proof.
  revert d.
  induction node as [i l p g f|i l p g cs f IH] using GeoNode_children_ind;
    intros d n lv; cbn [Spec.subtreeDepths]; intros [E|Hin];
    try (injection E as _ <-; lia); try destruct Hin.
  apply in_flat_map in Hin. destruct Hin as (c & Hc & Hin).
  rewrite Forall_forall in IH. specialize (IH c Hc (d + 1)%Z n lv Hin). lia.
Qed.

Lemma levelIn_app (nodeId : string) (l1 l2 : list (GeoNode * Z)) :
  Spec.levelIn nodeId (l1 ++ l2)
  = match find (fun e => id (fst e) =? nodeId)%string l1 with
    | Some e => snd e
    | None => Spec.levelIn nodeId l2
    end.
Proof.
  unfold Spec.levelIn. rewrite find_app_first.
  destruct (find _ l1); reflexivity.
Qed.

Lemma firstPositive_levelIn (nodeId : string) (d : Z) (f : GeoNode -> Z)
  (cs : list GeoNode) :
  (1 <= d)%Z ->
  Forall (fun c => f c = Spec.levelIn nodeId (Spec.subtreeDepths d c)) cs ->
  Js.firstPositive f cs
  = Spec.levelIn nodeId (flat_map (Spec.subtreeDepths d) cs).
Proof.
  intros Hd. induction 1 as [|c cs Hc _ IH]; [reflexivity|].
  cbn [Js.firstPositive flat_map]. rewrite levelIn_app, Hc, IH.
  unfold Spec.levelIn at 1 2.
  destruct (find _ (Spec.subtreeDepths d c)) as [[n l]|] eqn:E; [|reflexivity].
  apply find_some in E. destruct E as [Hin _].
  apply subtreeDepths_ge in Hin. cbn [snd].
  destruct (l >? 0)%Z eqn:G; [reflexivity|].
  rewrite Z.gtb_ltb in G. apply Z.ltb_ge in G. lia.
Qed.

Lemma findLevel_levelIn (nodeId : string) (node : GeoNode) :
  forall d, (1 <= d)%Z ->
  findLevel nodeId node d = Spec.levelIn nodeId (Spec.subtreeDepths d node).
Proof.
  induction node as [i l p g f|i l p g cs f IH] using GeoNode_children_ind;
    intros d Hd; unfold Spec.levelIn;
    cbn [findLevel Spec.subtreeDepths find id fst snd];
    destruct (i =? nodeId)%string; try reflexivity.
  apply firstPositive_levelIn; [lia|].
  eapply Forall_impl; [|exact IH]. intros c Hc. apply Hc. lia.
Qed.

Lemma getNodeLevel_levelIn (data : option Data) (nodeId : string) :
  getNodeLevel data nodeId = Spec.levelIn nodeId (Spec.depthsOf data).
Proof.
  destruct data as [[[ls|]]|]; try reflexivity.
  unfold getNodeLevel, Spec.depthsOf, Spec.roots. cbn [GeoLocations].
  apply firstPositive_levelIn; [lia|].
  apply Forall_forall. intros n _. apply findLevel_levelIn. lia.
Qed.

Lemma depthsOf_nodes (data : option Data) :
  map fst (Spec.depthsOf data) = Spec.nodesOf data.
Proof.
  unfold Spec.depthsOf, Spec.nodesOf.
  induction (Spec.roots data) as [|r rs IH]; [reflexivity|].
  cbn [flat_map]. now rewrite map_app, subtreeDepths_nodes, IH.
Qed.

(** The markers [collectNodes] pushes. *)
Local Abbreviation collected level n c parent :=
  (collectNodes level n c parent []).

Lemma forEachFrom_flat (A B : Type) (g : A -> list B -> list B) (l : list A) :
  Forall (fun x => forall acc, g x acc = acc ++ g x []) l ->
  forall i acc,
    Js.forEachFrom (fun x (_ : nat) a => g x a) i l acc
    = acc ++ flat_map (fun x => g x []) l.
Proof.
  induction 1 as [|x l Hx _ IH]; intros i acc; simpl.
  - now rewrite app_nil_r.
  - rewrite IH, Hx. now rewrite app_assoc.
Qed.

Lemma collectNodes_acc (level : Z) (n : GeoNode) :
  forall c parent acc,
    collectNodes level n c parent acc = acc ++ collected level n c parent.
Proof.
  induction n as [i l p g f|i l p g cs f IH] using GeoNode_children_ind;
    intros c parent acc; cbn [collectNodes];
    destruct (c =? level)%Z; try reflexivity; try now rewrite app_nil_r.
  unfold Js.forEach.
  rewrite (forEachFrom_flat _ _
             (fun child a =>
                collectNodes level child (c + 1)
                             (Some (mkGeoNode i l p g (Some cs) f)) a)).
  - rewrite (forEachFrom_flat _ _
               (fun child a =>
                  collectNodes level child (c + 1)
                               (Some (mkGeoNode i l p g (Some cs) f)) a) cs).
    + reflexivity.
    + eapply Forall_impl; [|exact IH]. intros a Ha acc'. apply Ha.
  - eapply Forall_impl; [|exact IH]. intros a Ha acc'. apply Ha.
Qed.

Lemma collected_eq (level : Z) (n : GeoNode) (c : Z) (parent : option GeoNode) :
  collected level n c parent
  = if (c =? level)%Z then [mkMarker n parent None None]
    else flat_map (fun child => collected level child (c + 1) (Some n))
                  (Spec.childrenOf n).
Proof.
  destruct n as [i l p g [cs|] f]; cbn [collectNodes Spec.childrenOf children];
    destruct (c =? level)%Z; try reflexivity.
  unfold Js.forEach.
  rewrite (forEachFrom_flat _ _
             (fun child a =>
                collectNodes level child (c + 1)
                             (Some (mkGeoNode i l p g (Some cs) f)) a)).
  - reflexivity.
  - apply Forall_forall. intros a _ acc. apply collectNodes_acc.
Qed.

Lemma getNodesAtLevel_collected (data : option Data) (level : Z) :
  getNodesAtLevel data level
  = flat_map (fun n => collected level n 1 None) (Spec.roots data).
Proof.
  destruct data as [[[ls|]]|]; try reflexivity.
  unfold getNodesAtLevel, Spec.roots, Js.forEach. cbn [GeoLocations].
  rewrite (forEachFrom_flat _ _ (fun n a => collectNodes level n 1 None a)).
  - reflexivity.
  - apply Forall_forall. intros a _ acc. apply collectNodes_acc.
Qed.

Lemma flat_map_ext_Forall (A B : Type) (f g : A -> list B) (l : list A) :
  Forall (fun x => f x = g x) l -> flat_map f l = flat_map g l.
Proof.
  induction 1 as [|x l Hx _ IH]; simpl; [reflexivity|]. now rewrite Hx, IH.
Qed.

Lemma flat_map_nested (A B C : Type) (f : A -> list B) (g : B -> list C)
  (l : list A) :
  flat_map g (flat_map f l) = flat_map (fun x => flat_map g (f x)) l.
Proof.
  induction l as [|x l IH]; simpl; [reflexivity|].
  now rewrite flat_map_app, IH.
Qed.

Lemma collected_above (level : Z) (n : GeoNode) :
  forall c parent, (level < c)%Z -> collected level n c parent = [].
Proof.
  induction n as [i l p g f|i l p g cs f IH] using GeoNode_children_ind;
    intros c parent Hc; rewrite collected_eq;
    (destruct (Z.eqb_spec c level); [lia|]); [reflexivity|].
  cbn [Spec.childrenOf children].
  generalize (Some (mkGeoNode i l p g (Some cs) f)). intros q.
  induction IH as [|a cs' Ha _ IHcs]; [reflexivity|].
  cbn [flat_map]. rewrite Ha by lia. exact IHcs.
Qed.

Lemma collected_next (level : Z) (n : GeoNode) :
  forall c parent, (c <= level)%Z ->
  collected (level + 1) n c parent
  = flat_map Spec.expand (collected level n c parent).
Proof.
  induction n as [i l p g f|i l p g cs f IH] using GeoNode_children_ind;
    intros c parent Hc;
    rewrite (collected_eq (level + 1)), (collected_eq level);
    (destruct (Z.eqb_spec c (level + 1)); [lia|]);
    destruct (Z.eqb_spec c level) as [->|Hne];
    cbn [Spec.childrenOf children flat_map]; try reflexivity.
  - (* the node is at the level: its children are at the next *)
    unfold Spec.expand. cbn [node Spec.childrenOf children].
    rewrite app_nil_r. clear IH.
    generalize (mkGeoNode i l p g (Some cs) f). intros q.
    induction cs as [|a cs IHcs]; [reflexivity|].
    cbn [flat_map map]. rewrite IHcs, collected_eq, Z.eqb_refl. reflexivity.
  - rewrite flat_map_nested. apply flat_map_ext_Forall.
    eapply Forall_impl; [|exact IH]. intros a Ha. apply Ha. lia.
Qed.

(** X3: [getNodesAtLevel] builds the levels from the roots by taking
    children: level 1 holds the roots, without parent; a level below 1
    holds nothing; and the level after a level [l >= 1] holds the
    children of the nodes of level [l], in order, each with its direct
    parent in [_parent]. *)
Theorem getNodesAtLevel_by_children (data : option Data) :
  getNodesAtLevel data 1
  = map (fun n => mkMarker n None None None) (Spec.roots data)
  /\ (forall level, (level <= 0)%Z -> getNodesAtLevel data level = [])
  /\ (forall level, (1 <= level)%Z ->
      getNodesAtLevel data (level + 1)
      = flat_map Spec.expand (getNodesAtLevel data level)).
Proof.
  split; [|split].
  - rewrite getNodesAtLevel_collected.
    induction (Spec.roots data) as [|r rs IH]; [reflexivity|].
    cbn [flat_map map]. rewrite IH, collected_eq. reflexivity.
  - intros level Hl. rewrite getNodesAtLevel_collected.
    induction (Spec.roots data) as [|r rs IH]; [reflexivity|].
    cbn [flat_map]. rewrite IH, collected_above by lia. reflexivity.
  - intros level Hl. rewrite !getNodesAtLevel_collected, flat_map_nested.
    apply flat_map_ext_Forall, Forall_forall. intros n _.
    apply collected_next. lia.
Qed.

Lemma collected_contains (level : Z) (n : GeoNode) (root : GeoNode) :
  forall c parent,
    In (n, level) (Spec.subtreeDepths c root) ->
    In n (map node (collected level root c parent)).
Proof.
  induction root as [i l p g f|i l p g cs f IH] using GeoNode_children_ind;
    intros c parent; cbn [Spec.subtreeDepths]; intros [E|Hin];
    rewrite collected_eq.
  - injection E as <- <-. rewrite Z.eqb_refl. now left.
  - destruct Hin.
  - injection E as <- <-. rewrite Z.eqb_refl. now left.
  - apply in_flat_map in Hin. destruct Hin as (a & Ha & Hin).
    pose proof (subtreeDepths_ge _ _ _ _ Hin) as Hge.
    destruct (Z.eqb_spec c level); [lia|].
    cbn [Spec.childrenOf children]. rewrite flat_map_concat_map, concat_map.
    rewrite map_map, <- flat_map_concat_map. apply in_flat_map.
    exists a. split; [exact Ha|].
    rewrite Forall_forall in IH. now apply IH.
Qed.

(** X4: [getNodeLevel] returns 0 exactly when [findNodeById] finds no
    node; otherwise it returns the depth, at least 1, of the node that
    [findNodeById] returns, and that node is among the nodes that
    [getNodesAtLevel] returns for this depth. *)
Theorem getNodeLevel_findNodeById (data : option Data) (nodeId : string) :
  match findNodeById data nodeId with
  | None => getNodeLevel data nodeId = 0%Z
  | Some n =>
      (1 <= getNodeLevel data nodeId)%Z
      /\ In n (map node (getNodesAtLevel data (getNodeLevel data nodeId)))
  end.
Proof.
  assert (Hfind : findNodeById data nodeId
                  = find (fun n => id n =? nodeId)%string (Spec.nodesOf data)).
  { destruct data as [[[ls|]]|]; try reflexivity.
    unfold findNodeById, Spec.nodesOf, Spec.roots. cbn [GeoLocations].
    apply firstResult_flat, Forall_forall. intros n _. apply searchNode_find. }
  rewrite Hfind, getNodeLevel_levelIn, <- depthsOf_nodes, find_map_fst.
  unfold Spec.levelIn.
  destruct (find _ (Spec.depthsOf data)) as [[n l]|] eqn:E;
    cbn [option_map fst snd]; [|reflexivity].
  apply find_some in E. destruct E as [Hin _].
  unfold Spec.depthsOf in Hin. apply in_flat_map in Hin.
  destruct Hin as (r & Hr & Hin). split.
  - apply subtreeDepths_ge in Hin. exact Hin.
  - rewrite getNodesAtLevel_collected, flat_map_concat_map, concat_map, map_map,
      <- flat_map_concat_map.
    apply in_flat_map. exists r. split; [exact Hr|].
    now apply collected_contains.
Qed.

(** *** Parents *)

Lemma findParent_edges (nodeId : string) (node : GeoNode) :
  forall q,
    findParent nodeId node (Some q)
    = option_map snd (find (fun e => id (fst e) =? nodeId)%string
                           (Spec.edges q node)).
Proof.
  induction node as [i l p g f|i l p g cs f IH] using GeoNode_children_ind;
    intros q; cbn [findParent Spec.edges find id fst];
    destruct (i =? nodeId)%string; try reflexivity.
  generalize (mkGeoNode i l p g (Some cs) f). intros r.
  induction IH as [|c cs' Hc _ IHcs]; [reflexivity|].
  cbn [Js.firstResult flat_map]. rewrite find_app_first, Hc.
  destruct (find _ (Spec.edges r c)); [reflexivity|exact IHcs].
Qed.

Lemma findParent_root (nodeId : string) (root : GeoNode) :
  findParent nodeId root None
  = if (id root =? nodeId)%string then None
    else option_map snd (find (fun e => id (fst e) =? nodeId)%string
                              (Spec.below root)).
Proof.
  destruct root as [i l p g [cs|] f]; cbn [findParent id];
    destruct (i =? nodeId)%string; try reflexivity.
  unfold Spec.below. cbn [Spec.childrenOf children].
  generalize (mkGeoNode i l p g (Some cs) f). intros r.
  induction cs as [|c cs IH]; [reflexivity|].
  cbn [Js.firstResult flat_map]. rewrite find_app_first, findParent_edges.
  destruct (find _ (Spec.edges r c)); [reflexivity|exact IH].
Qed.

Lemma edges_child (c p : GeoNode) (node : GeoNode) :
  forall q, In (c, p) (Spec.edges q node) ->
  (c = node /\ p = q) \/ (In c (Spec.childrenOf p) /\ In p (Spec.subtree node)).
Proof.
  induction node as [i l pr g f|i l pr g cs f IH] using GeoNode_children_ind;
    intros q; cbn [Spec.edges]; intros [E|Hin];
    try (injection E as <- <-; now left); try destruct Hin.
  right. apply in_flat_map in Hin. destruct Hin as (a & Ha & Hin).
  rewrite Forall_forall in IH. destruct (IH a Ha _ Hin) as [[-> ->]|[Hc Hp]].
  - split; [exact Ha|]. now left.
  - split; [exact Hc|]. cbn [Spec.subtree]. right.
    apply in_flat_map. now exists a.
Qed.

(** X5: [getParentNode] returns the parent of the first node below the
    roots that has the id, parents before children and children in
    order, where the subtree of a root that has the id itself is not
    searched; it returns [null] when there is no such node, so also
    for the id of a root.  A parent it returns is a node of the tree
    that has a child with the id. *)
Theorem getParentNode_first_child (data : option Data) (nodeId : string) :
  getParentNode data nodeId
  = option_map snd
      (find (fun e => id (fst e) =? nodeId)%string
            (flat_map (fun r => if (id r =? nodeId)%string then []
                                else Spec.below r)
                      (Spec.roots data)))
  /\ forall parent, getParentNode data nodeId = Some parent ->
       In parent (Spec.nodesOf data)
       /\ exists child, In child (Spec.childrenOf parent) /\ id child = nodeId.
Proof.
  assert (E : getParentNode data nodeId
    = option_map snd
        (find (fun e => id (fst e) =? nodeId)%string
              (flat_map (fun r => if (id r =? nodeId)%string then []
                                  else Spec.below r)
                        (Spec.roots data)))).
  { destruct data as [[[ls|]]|]; try reflexivity.
    unfold getParentNode, Spec.roots. cbn [GeoLocations].
    induction ls as [|r rs IH]; [reflexivity|].
    cbn [Js.firstResult flat_map].
    rewrite find_app_first, findParent_root, IH.
    destruct (id r =? nodeId)%string; [reflexivity|].
    destruct (find _ (Spec.below r)); reflexivity. }
  split; [exact E|].
  intros parent H. rewrite E in H.
  destruct (find _ _) as [[c p]|] eqn:F; [|discriminate].
  cbn [option_map snd] in H. injection H as ->.
  apply find_some in F. destruct F as [Hin Hid].
  apply String.eqb_eq in Hid. cbn [fst] in Hid.
  apply in_flat_map in Hin. destruct Hin as (r & Hr & Hin).
  destruct (id r =? nodeId)%string; [destruct Hin|].
  unfold Spec.below in Hin. apply in_flat_map in Hin.
  destruct Hin as (a & Ha & Hin).
  assert (Hsub : forall n, In n (Spec.subtree r) -> In n (Spec.nodesOf data)).
  { intros n Hn. unfold Spec.nodesOf. apply in_flat_map. now exists r. }
  assert (Hra : forall n, In n (Spec.subtree a) -> In n (Spec.subtree r)).
  { intros n Hn. destruct r as [i l pr g [cs|] f]; [|destruct Ha].
    cbn [Spec.subtree]. right. apply in_flat_map. now exists a. }
  destruct (edges_child c parent a r Hin) as [[-> ->]|[Hc Hp]].
  - split.
    + apply Hsub. destruct r; now left.
    + exists a. split; [exact Ha|exact Hid].
  - split.
    + apply Hsub, Hra, Hp.
    + exists c. split; [exact Hc|exact Hid].
Qed.

End LookupFacts.

(** ** Filtering and counts (src/utils/dataProcessing.js) *)

Section FilterCountFacts.
Import Geo DataProcessing.

Lemma mapNonNull_In (A B : Type) (f : A -> option B) (l : list A) (b : B) :
  In b (Js.mapNonNull f l) -> exists a, In a l /\ f a = Some b.
Proof.
  induction l as [|x l IH]; simpl; [intros []|].
  destruct (f x) as [y|] eqn:E.
  - intros [<-|H]; [exists x; auto|].
    destruct (IH H) as (a & Ha & Hf). exists a. auto.
  - intros H. destruct (IH H) as (a & Ha & Hf). exists a. auto.
Qed.

Lemma kept_counts (f : GeoNode -> option GeoNode) (count : GeoNode -> Z)
  (cs : list GeoNode) :
  Forall (fun c => match f c with
                   | Some k => filteredCountOr1 k = count c /\ (1 <= count c)%Z
                   | None => count c = 0%Z
                   end) cs ->
  Spec.sumZ (map filteredCountOr1 (Js.mapNonNull f cs)) = Spec.sumZ (map count cs)
  /\ (0 <= Spec.sumZ (map count cs))%Z
  /\ (Js.mapNonNull f cs <> [] -> (1 <= Spec.sumZ (map count cs))%Z).
Proof.
  unfold Spec.sumZ.
  induction 1 as [|c cs Hc _ (IHsum & IHpos & IHne)]; simpl.
  - split; [reflexivity|]. split; [lia|]. intros H. now contradiction H.
  - destruct (f c) as [k|]; simpl.
    + destruct Hc as [Hk Hpos]. rewrite Hk, IHsum.
      split; [reflexivity|]. split; [lia|]. intros _. lia.
    + rewrite Hc. split; [exact IHsum|]. split; [lia|].
      intros H. specialize (IHne H). lia.
Qed.

Lemma filtered_children (filters : FilterSet) (level : Z) (cs : list GeoNode) :
  level <> 1%Z ->
  Forall (Spec.filtered filters level) cs ->
  Spec.sumZ (map filteredCountOr1 (Js.mapNonNull (filterNode filters level) cs))
  = Spec.sumZ (map (fun c => calculateCounts c filters) cs)
  /\ (0 <= Spec.sumZ (map (fun c => calculateCounts c filters) cs))%Z
  /\ (Js.mapNonNull (filterNode filters level) cs <> [] ->
      (1 <= Spec.sumZ (map (fun c => calculateCounts c filters) cs))%Z).
Proof.
  intros Hl H. apply kept_counts.
  eapply Forall_impl; [|exact H]. intros c Hc. unfold Spec.filtered in Hc.
  destruct (filterNode filters level c) as [k|]; [|exact Hc].
  destruct Hc as (Hcount & _ & _ & _ & _ & Hpos). specialize (Hpos Hl).
  split; [|exact Hpos]. unfold filteredCountOr1. rewrite Hcount.
  destruct (Z.eqb_spec (calculateCounts c filters) 0); [lia|reflexivity].
Qed.

Lemma filterNode_filtered (filters : FilterSet) (node : GeoNode) :
  forall level, (1 <= level)%Z -> Spec.filtered filters level node.
Proof.
  induction node as [i l p g f|i l p g cs f IH] using GeoNode_children_ind;
    intros level Hl; unfold Spec.filtered.
  - cbn [filterNode calculateCounts]. destruct (matchesFilters _ filters).
    + repeat split. lia.
    + reflexivity.
  - destruct cs as [|c cs].
    + cbn [filterNode calculateCounts]. destruct (matchesFilters _ filters).
      * repeat split. lia.
      * reflexivity.
    + rewrite (calculateCounts_internal (mkGeoNode i l p g (Some (c :: cs)) f))
        by reflexivity.
      unfold Spec.childrenOf. cbn [children filterNode].
      assert (Hcs : Forall (Spec.filtered filters (level + 1)) (c :: cs)).
      { eapply Forall_impl; [|exact IH]. intros a Ha. apply Ha. lia. }
      destruct (filtered_children filters (level + 1) (c :: cs)
                  ltac:(lia) Hcs) as (Hsum & Hpos & Hne).
      destruct (Js.mapNonNull (filterNode filters (level + 1)) (c :: cs))
        as [|k ks] eqn:E.
      * assert (H0 : Spec.sumZ (map (fun c => calculateCounts c filters) (c :: cs))
                     = 0%Z) by (rewrite <- Hsum; reflexivity).
        rewrite H0. destruct (_ && _) eqn:M; [|reflexivity].
        apply andb_true_iff in M. destruct M as [_ M]. apply Z.eqb_eq in M.
        repeat split. intros Hne1. now contradiction Hne1.
      * rewrite (fold_left_add_shift _ filteredCountOr1), Hsum.
        repeat split. intros _. apply Hne. discriminate.
Qed.

(** X6: for a level from 1 on, [filterNode] keeps a node with its id,
    label, properties and geometry and with a [_filteredCount] equal to
    the [calculateCounts] of the node under the same filters; a node it
    drops has count 0, and below level 1 a node it keeps has a count of
    at least 1. *)
Theorem filterNode_count_is_calculateCounts
  (filters : FilterSet) (level : Z) (node : GeoNode) :
  (1 <= level)%Z ->
  match filterNode filters level node with
  | Some kept =>
      _filteredCount kept = Some (calculateCounts node filters)
      /\ id kept = id node /\ label kept = label node
      /\ properties kept = properties node /\ geometry kept = geometry node
      /\ (level <> 1%Z -> (1 <= calculateCounts node filters)%Z)
  | None => calculateCounts node filters = 0%Z
  end.
Proof. intros H. exact (filterNode_filtered filters node level H). Qed.

Lemma filterNode_subtree (filters : FilterSet) (node : GeoNode) :
  forall level kept,
    (1 <= level)%Z -> filterNode filters level node = Some kept ->
    forall m', In m' (Spec.subtree kept) ->
    exists m, In m (Spec.subtree node)
              /\ id m' = id m /\ label m' = label m
              /\ properties m' = properties m /\ geometry m' = geometry m
              /\ _filteredCount m' = Some (calculateCounts m filters).
Proof.
  induction node as [i l p g f|i l p g cs f IH] using GeoNode_children_ind;
    intros level kept Hl Hk m' Hin.
  - pose proof (filterNode_filtered filters (mkGeoNode i l p g None f) level Hl)
      as F. unfold Spec.filtered in F. rewrite Hk in F.
    cbn [filterNode] in Hk. destruct (matchesFilters _ filters); [|discriminate].
    injection Hk as <-. destruct Hin as [<-|[]].
    eexists. split; [now left|]. repeat split. apply F.
  - pose proof (filterNode_filtered filters (mkGeoNode i l p g (Some cs) f)
                                    level Hl) as F.
    unfold Spec.filtered in F. rewrite Hk in F.
    destruct F as (Fc & Fi & Fl & Fp & Fg & _).
    assert (Hroot : forall m', m' = kept ->
      exists m, In m (Spec.subtree (mkGeoNode i l p g (Some cs) f))
                /\ id m' = id m /\ label m' = label m
                /\ properties m' = properties m /\ geometry m' = geometry m
                /\ _filteredCount m' = Some (calculateCounts m filters)).
    { intros ? ->. eexists. split; [now left|]. now repeat split. }
    destruct cs as [|c cs].
    + cbn [filterNode] in Hk. destruct (matchesFilters _ filters); [|discriminate].
      injection Hk as <-. destruct Hin as [<-|[]]. now apply Hroot.
    + cbn [filterNode] in Hk.
      destruct (Js.mapNonNull (filterNode filters (level + 1)) (c :: cs))
        as [|k ks] eqn:E.
      * destruct (_ && _); [|discriminate]. injection Hk as <-.
        destruct Hin as [<-|[]]. now apply Hroot.
      * injection Hk as <-. destruct Hin as [<-|Hin]; [now apply Hroot|].
        cbn [withChildren Spec.subtree] in Hin. apply in_flat_map in Hin.
        destruct Hin as (k' & Hk' & Hin). rewrite <- E in Hk'.
        apply mapNonNull_In in Hk'. destruct Hk' as (a & Ha & Hfa).
        rewrite Forall_forall in IH.
        destruct (IH a Ha (level + 1)%Z k' ltac:(lia) Hfa m' Hin)
          as (m & Hm & Hrest).
        exists m. split; [|exact Hrest].
        cbn [Spec.subtree]. right. apply in_flat_map. now exists a.
Qed.

(** X7: [filterData] invents and alters nothing: every node of the
    filtered tree has the id, label, properties and geometry of a node
    of the input, and its [_filteredCount] is the [calculateCounts] of
    that node under the filters. *)
Theorem filterData_nodes_from_input
  (data : option Data) (filters : FilterSet) (m' : GeoNode) :
  In m' (Spec.nodesOf (filterData data filters)) ->
  exists m, In m (Spec.nodesOf data)
            /\ id m' = id m /\ label m' = label m
            /\ properties m' = properties m /\ geometry m' = geometry m
            /\ _filteredCount m' = Some (calculateCounts m filters).
Proof.
  destruct data as [[[ls|]]|]; try (intros []).
  unfold filterData, Spec.nodesOf, Spec.roots. cbn [GeoLocations].
  intros Hin. apply in_flat_map in Hin. destruct Hin as (k & Hk & Hin).
  apply mapNonNull_In in Hk. destruct Hk as (r & Hr & Hf).
  destruct (filterNode_subtree filters r 1%Z k ltac:(lia) Hf m' Hin)
    as (m & Hm & Hrest).
  exists m. split; [|exact Hrest]. apply in_flat_map. now exists r.
Qed.

End FilterCountFacts.

(** ** More on the selection (src/utils/selection.js) *)

Section SelectionMoreFacts.
Import Geo SelectionManager.

Lemma has_keys (key : string) (m : JsMap.t Marker) :
  JsMap.has key m = true <-> In key (JsMap.keys m).
Proof.
  unfold JsMap.has, JsMap.keys. rewrite existsb_exists, in_map_iff. split.
  - intros (e & He & Hk). apply String.eqb_eq in Hk. now exists e.
  - intros (e & Hk & He). exists e. split; [exact He|]. now apply String.eqb_eq.
Qed.

Lemma has_false_keys (key : string) (m : JsMap.t Marker) :
  JsMap.has key m = false <-> ~ In key (JsMap.keys m).
Proof.
  rewrite <- has_keys. destruct (JsMap.has key m); split; congruence.
Qed.

Lemma keys_delete (key : string) (m : JsMap.t Marker) :
  JsMap.keys (JsMap.delete key m)
  = filter (fun k => negb (k =? key)%string) (JsMap.keys m).
Proof.
  unfold JsMap.keys, JsMap.delete. induction m as [|e m IH]; simpl; [reflexivity|].
  destruct (fst e =? key)%string; simpl; now rewrite IH.
Qed.

Lemma size_delete (key : string) (m : JsMap.t Marker) :
  (JsMap.size (JsMap.delete key m) <= JsMap.size m)%Z.
Proof.
  unfold JsMap.size, JsMap.delete. pose proof (filter_length_le
    (fun e : string * Marker => negb (fst e =? key)%string) m). lia.
Qed.

Lemma wellKeyed_sub (m m' : JsMap.t Marker) :
  Spec.wellKeyed m ->
  (exists p, m' = filter p m) ->
  Spec.wellKeyed m'.
Proof.
  intros [Hnd Hid] (p & ->). split.
  - unfold JsMap.keys in *. clear Hid.
    induction m as [|e m IH]; simpl; [constructor|].
    inversion Hnd as [|? ? Hnotin Hnd']; subst.
    destruct (p e); simpl; [|now apply IH].
    constructor; [|now apply IH].
    intros Hin. apply Hnotin. apply in_map_iff in Hin.
    destruct Hin as (x & Hx & Hin). apply filter_In in Hin.
    apply in_map_iff. exists x. tauto.
  - intros key v Hin. apply filter_In in Hin. now apply Hid.
Qed.

Lemma wellKeyed_store (m : JsMap.t Marker) (mk : Marker) (level : Z) :
  Spec.wellKeyed m -> JsMap.has (markerId mk) m = false ->
  Spec.wellKeyed (JsMap.set (markerId mk) (withLevel level mk) m).
Proof.
  intros [Hnd Hid] Hnew. rewrite has_false_set by exact Hnew. split.
  - unfold JsMap.keys in *. rewrite map_app. cbn [map fst].
    apply NoDup_app; [exact Hnd|repeat constructor; intros []|].
    intros k Hk [<-|[]]. now apply has_false_keys in Hnew.
  - intros key v Hin. apply in_app_or in Hin.
    destruct Hin as [Hin|[[= <- <-]|[]]]; [now apply Hid|reflexivity].
Qed.

Lemma wellKeyed_empty : Spec.wellKeyed [].
Proof. split; [constructor|intros k v []]. Qed.

Lemma pruned_map (ids : list string) (keys : list string) :
  forall (acc : JsMap.t Marker) (b : bool),
    fold_left (pruneStep ids) keys (acc, b)
    = (filter (fun e => negb (existsb (fun k => k =? fst e)%string keys)
                        || Spec.includes ids (fst e)) acc,
       b || existsb (fun k => negb (Spec.includes ids k)) keys).
Proof.
  induction keys as [|key keys IH]; intros acc b; cbn [fold_left existsb].
  - rewrite orb_false_r. f_equal. induction acc as [|e acc IHa]; [reflexivity|].
    simpl in IHa |- *. now rewrite <- IHa.
  - unfold pruneStep at 2. fold (Spec.includes ids key). cbn [fst].
    destruct (Spec.includes ids key) eqn:Hk; cbn [negb]; rewrite IH; f_equal.
    + (* the key stays *)
      apply filter_ext_in. intros e _.
      destruct (String.eqb_spec key (fst e)) as [<-|]; [|reflexivity].
      now rewrite Hk, !orb_true_r.
    + unfold JsMap.delete.
      induction acc as [|e acc IHa]; [reflexivity|]. cbn [filter].
      rewrite (String.eqb_sym key (fst e)).
      destruct (String.eqb_spec (fst e) key) as [Heq|_]; cbn [negb orb filter].
      * now rewrite Heq, Hk, IHa.
      * now rewrite IHa.
    + now rewrite orb_true_r.
Qed.

(** X8: [pruneInvalidSelections] keeps exactly the selected markers
    whose id is among the ids given, in their order; it returns [true]
    exactly when it removed one, and notifies once in that case only;
    the level becomes [null] when nothing is left and is unchanged
    otherwise. *)
Theorem pruneInvalidSelections_keeps_existing (ids : list string) (s : State) :
  selectedMarkers (snd (pruneInvalidSelections ids s))
  = filter (fun e => Spec.includes ids (fst e)) (selectedMarkers s)
  /\ fst (pruneInvalidSelections ids s)
     = existsb (fun k => negb (Spec.includes ids k)) (getSelectedIds s)
  /\ selectionHierarchyLevel (snd (pruneInvalidSelections ids s))
     = (if (getSelectionCount (snd (pruneInvalidSelections ids s)) =? 0)%Z
        then None else selectionHierarchyLevel s)
  /\ notifications (snd (pruneInvalidSelections ids s))
     = notifications s
       ++ (if fst (pruneInvalidSelections ids s)
           then [getSelection (snd (pruneInvalidSelections ids s))] else []).
Proof.
  unfold pruneInvalidSelections, getSelectedIds, getSelectionCount.
  rewrite pruned_map. cbn [fst snd orb].
  assert (E : filter (fun e => negb (existsb (fun k => k =? fst e)%string
                                             (JsMap.keys (selectedMarkers s)))
                               || Spec.includes ids (fst e)) (selectedMarkers s)
              = filter (fun e => Spec.includes ids (fst e)) (selectedMarkers s)).
  { apply filter_ext_in. intros e He.
    assert (H : existsb (fun k => k =? fst e)%string
                        (JsMap.keys (selectedMarkers s)) = true).
    { apply existsb_exists. exists (fst e). split; [|apply String.eqb_refl].
      unfold JsMap.keys. now apply in_map. }
    now rewrite H. }
  rewrite E.
  set (kept := filter (fun e => Spec.includes ids (fst e)) (selectedMarkers s)).
  cbn [setMarkers selectedMarkers].
  destruct (JsMap.size kept =? 0)%Z eqn:Z0;
    destruct (existsb _ (JsMap.keys (selectedMarkers s)));
    cbn [emitChange setLevel selectedMarkers selectionHierarchyLevel
         notifications]; rewrite ?Z0, ?app_nil_r; repeat split;
    change (selectedMarkers (setMarkers kept s)) with kept; now rewrite Z0.
Qed.

(** *** What a call can do to the map *)

Lemma size_append (m : JsMap.t Marker) (e : string * Marker) :
  JsMap.size (m ++ [e]) = (JsMap.size m + 1)%Z.
Proof. unfold JsMap.size. rewrite length_app. simpl. lia. Qed.

(** The map after [selectMarker]: the marker is toggled off, or is the
    only one, or is appended below the limit, or nothing changes. *)
Lemma selectMarker_map (m : Marker) (level : Z) (multi : bool) (s : State) :
  maxSelections (snd (selectMarker m level multi s)) = maxSelections s
  /\ (selectedMarkers (snd (selectMarker m level multi s))
      = JsMap.delete (markerId m) (selectedMarkers s)
      \/ selectedMarkers (snd (selectMarker m level multi s))
         = [(markerId m, withLevel level m)]
      \/ (selectedMarkers (snd (selectMarker m level multi s))
          = selectedMarkers s ++ [(markerId m, withLevel level m)]
          /\ JsMap.has (markerId m) (selectedMarkers s) = false
          /\ (JsMap.size (selectedMarkers s) < maxSelections s)%Z)
      \/ selectedMarkers (snd (selectMarker m level multi s)) = selectedMarkers s).
Proof.
  unfold selectMarker.
  destruct (JsMap.has (markerId m) (selectedMarkers s)) eqn:Hhas.
  - unfold deselectMarker. rewrite Hhas. cbn [negb snd].
    cbn [emitChange setMarkers selectedMarkers maxSelections].
    destruct (JsMap.size _ =? 0)%Z; split; try reflexivity; now left.
  - unfold isSelectionCompatible. rewrite Hhas.
    destruct (JsMap.size (selectedMarkers s) =? 0)%Z eqn:Hsize.
    + cbn [compatible negb why]. apply size_zero in Hsize.
      rewrite Hsize. cbn [JsMap.size List.length Z.of_nat Z.gtb Z.compare].
      rewrite andb_false_r. cbn [snd]. split; [reflexivity|].
      right; left. unfold store. cbn. now rewrite Hsize.
    + destruct (levelDiffers (selectionHierarchyLevel s) level).
      * cbn [compatible negb why snd]. split; [reflexivity|]. right; now left.
      * destruct (JsMap.size (selectedMarkers s) >=? maxSelections s)%Z eqn:Hmax.
        -- cbn [compatible negb why snd]. split; [reflexivity|].
           right; right; now right.
        -- cbn [compatible negb why].
           destruct (negb multi && (JsMap.size (selectedMarkers s) >? 0)%Z);
             cbn [snd]; (split; [reflexivity|]).
           ++ right; now left.
           ++ right; right; left. unfold store.
              cbn [emitChange setMarkers setLevel selectedMarkers].
              rewrite has_false_set by exact Hhas.
              split; [reflexivity|]. split; [reflexivity|].
              rewrite Z.geb_leb in Hmax. now apply Z.leb_gt in Hmax.
Qed.

Lemma deselectMarker_map (key : string) (s : State) :
  maxSelections (snd (deselectMarker key s)) = maxSelections s
  /\ selectedMarkers (snd (deselectMarker key s))
     = JsMap.delete key (selectedMarkers s).
Proof.
  unfold deselectMarker.
  destruct (JsMap.has key (selectedMarkers s)) eqn:Hhas; cbn [negb snd].
  - cbn [emitChange setMarkers selectedMarkers maxSelections].
    destruct (JsMap.size _ =? 0)%Z; split; reflexivity.
  - split; [reflexivity|]. symmetry. unfold JsMap.delete.
    apply has_false_keys in Hhas.
    induction (selectedMarkers s) as [|e m IH]; [reflexivity|].
    cbn [filter]. destruct (String.eqb_spec (fst e) key) as [E|_].
    + exfalso. apply Hhas. left. exact E.
    + cbn [negb]. f_equal. apply IH. intros H. apply Hhas. now right.
Qed.

Lemma pruneInvalidSelections_map (ids : list string) (s : State) :
  maxSelections (snd (pruneInvalidSelections ids s)) = maxSelections s
  /\ selectedMarkers (snd (pruneInvalidSelections ids s))
     = filter (fun e => Spec.includes ids (fst e)) (selectedMarkers s).
Proof.
  split.
  - unfold pruneInvalidSelections. cbn [snd].
    destruct (JsMap.size _ =? 0)%Z, (snd _); reflexivity.
  - unfold pruneInvalidSelections. rewrite pruned_map. cbn [fst snd orb].
    destruct (JsMap.size _ =? 0)%Z, (existsb _ _);
      cbn [emitChange setLevel setMarkers selectedMarkers];
      apply filter_ext_in; intros e He;
      (assert (H : existsb (fun k => k =? fst e)%string
                           (JsMap.keys (selectedMarkers s)) = true)
         by (apply existsb_exists; exists (fst e);
             split; [unfold JsMap.keys; now apply in_map|apply String.eqb_refl]));
      now rewrite H.
Qed.

Lemma clearSelection_map (emit : bool) (s : State) :
  maxSelections (clearSelection emit s) = maxSelections s
  /\ selectedMarkers (clearSelection emit s) = [].
Proof. destruct emit; split; reflexivity. Qed.

Lemma size_filter (p : string * Marker -> bool) (m : JsMap.t Marker) :
  (JsMap.size (filter p m) <= JsMap.size m)%Z.
Proof. unfold JsMap.size. pose proof (filter_length_le p m). lia. Qed.

(** The limit is never changed and, from 1 on, never exceeded. *)
Lemma bounded_perform (c : Spec.Call) (s : State) :
  (JsMap.size (selectedMarkers s) <= Z.max 1 (maxSelections s))%Z ->
  maxSelections (Spec.perform s c) = maxSelections s
  /\ (JsMap.size (selectedMarkers (Spec.perform s c))
      <= Z.max 1 (maxSelections s))%Z.
Proof.
  intros H. destruct c as [m level multi|key|emit|ids]; unfold Spec.perform.
  - destruct (selectMarker_map m level multi s) as [Hmax [E|[E|[(E & _ & Hlt)|E]]]];
      (split; [exact Hmax|]); rewrite E.
    + pose proof (size_delete (markerId m) (selectedMarkers s)). lia.
    + cbn. lia.
    + rewrite size_append. lia.
    + exact H.
  - destruct (deselectMarker_map key s) as [Hmax E]. split; [exact Hmax|].
    rewrite E. pose proof (size_delete key (selectedMarkers s)). lia.
  - destruct (clearSelection_map emit s) as [Hmax E]. split; [exact Hmax|].
    rewrite E. cbn. lia.
  - destruct (pruneInvalidSelections_map ids s) as [Hmax E]. split; [exact Hmax|].
    rewrite E.
    pose proof (size_filter (fun e => Spec.includes ids (fst e)) (selectedMarkers s)).
    lia.
Qed.

(** X9: after every sequence of [selectMarker], [deselectMarker],
    [clearSelection] and [pruneInvalidSelections] calls on a new
    selection manager, [maxSelections] is the one it was built with
    and the number of selected markers is at most [maxSelections], or
    at most 1 when [maxSelections] is negative. *)
Theorem selection_count_bounded (maxSel : option Z) (calls : list Spec.Call) :
  maxSelections (Spec.run calls (SelectionManager.new maxSel))
  = orDefault maxSel 10
  /\ (getSelectionCount (Spec.run calls (SelectionManager.new maxSel))
      <= Z.max 1 (orDefault maxSel 10))%Z.
Proof.
  unfold getSelectionCount.
  assert (H : forall s,
    (JsMap.size (selectedMarkers s) <= Z.max 1 (maxSelections s))%Z ->
    maxSelections (Spec.run calls s) = maxSelections s
    /\ (JsMap.size (selectedMarkers (Spec.run calls s))
        <= Z.max 1 (maxSelections s))%Z).
  { induction calls as [|c calls IH]; intros s Hs; [now split|].
    cbn [Spec.run fold_left]. fold (Spec.run calls (Spec.perform s c)).
    destruct (bounded_perform c s Hs) as [Hmax Hsize].
    destruct (IH (Spec.perform s c)) as [Hmax' Hsize'];
      [now rewrite Hmax|]. rewrite Hmax in *. now split. }
  apply (H (SelectionManager.new maxSel)). cbn. lia.
Qed.

Lemma wellKeyed_perform (c : Spec.Call) (s : State) :
  Spec.wellKeyed (selectedMarkers s) ->
  Spec.wellKeyed (selectedMarkers (Spec.perform s c)).
Proof.
  intros H. destruct c as [m level multi|key|emit|ids]; unfold Spec.perform.
  - destruct (selectMarker_map m level multi s) as [_ [E|[E|[(E & Hnew & _)|E]]]];
      rewrite E.
    + eapply wellKeyed_sub; [exact H|]. eexists. reflexivity.
    + split; [repeat constructor; intros []|].
      intros k v [[= <- <-]|[]]. reflexivity.
    + rewrite <- (has_false_set _ _ _ Hnew). now apply wellKeyed_store.
    + exact H.
  - destruct (deselectMarker_map key s) as [_ E]. rewrite E.
    eapply wellKeyed_sub; [exact H|]. eexists. reflexivity.
  - destruct (clearSelection_map emit s) as [_ E]. rewrite E.
    apply wellKeyed_empty.
  - destruct (pruneInvalidSelections_map ids s) as [_ E]. rewrite E.
    eapply wellKeyed_sub; [exact H|]. eexists. reflexivity.
Qed.

Lemma wellKeyed_run (calls : list Spec.Call) (s : State) :
  Spec.wellKeyed (selectedMarkers s) ->
  Spec.wellKeyed (selectedMarkers (Spec.run calls s)).
Proof.
  revert s. induction calls as [|c calls IH]; intros s H; [exact H|].
  cbn [Spec.run fold_left]. apply IH. now apply wellKeyed_perform.
Qed.

(** X10: after every such sequence of calls no id is selected twice,
    and every marker is stored under its own id. *)
Theorem selection_ids_unique (maxSel : option Z) (calls : list Spec.Call) :
  NoDup (getSelectedIds (Spec.run calls (SelectionManager.new maxSel)))
  /\ forall key m,
       In (key, m) (selectedMarkers (Spec.run calls (SelectionManager.new maxSel))) ->
       markerId m = key.
Proof.
  exact (wellKeyed_run calls (SelectionManager.new maxSel) wellKeyed_empty).
Qed.

(** *** Notifications *)

Lemma deselectMarker_notifies (key : string) (s : State) :
  notifications (snd (deselectMarker key s))
  = notifications s
    ++ (if success (fst (deselectMarker key s))
        then [getSelection (snd (deselectMarker key s))] else []).
Proof.
  unfold deselectMarker. destruct (JsMap.has key (selectedMarkers s));
    cbn [negb fst snd success]; [|now rewrite app_nil_r].
  destruct (JsMap.size _ =? 0)%Z; reflexivity.
Qed.

(** X11: [selectMarker] and [deselectMarker] notify the listener once
    when they succeed and not at all when they fail, a replacement
    included; [pruneInvalidSelections] does so when it returns [true],
    [clearSelection] when asked to.  What is sent is the selection
    that the call leaves. *)
Theorem selection_notifies_once
  (m : Marker) (level : Z) (multi : bool) (key : string) (ids : list string)
  (emit : bool) (s : State) :
  notifications (snd (selectMarker m level multi s))
  = notifications s
    ++ (if success (fst (selectMarker m level multi s))
        then [getSelection (snd (selectMarker m level multi s))] else [])
  /\ notifications (snd (deselectMarker key s))
     = notifications s
       ++ (if success (fst (deselectMarker key s))
           then [getSelection (snd (deselectMarker key s))] else [])
  /\ notifications (snd (pruneInvalidSelections ids s))
     = notifications s
       ++ (if fst (pruneInvalidSelections ids s)
           then [getSelection (snd (pruneInvalidSelections ids s))] else [])
  /\ notifications (clearSelection emit s)
     = notifications s ++ (if emit then [[]] else []).
Proof.
  split; [|split; [apply deselectMarker_notifies|split]].
  - unfold selectMarker.
    destruct (JsMap.has (markerId m) (selectedMarkers s)) eqn:Hhas;
      [apply deselectMarker_notifies|].
    unfold isSelectionCompatible. rewrite Hhas.
    destruct (JsMap.size (selectedMarkers s) =? 0)%Z.
    + cbn [compatible negb why].
      destruct (negb multi && _); reflexivity.
    + destruct (levelDiffers (selectionHierarchyLevel s) level);
        [reflexivity|].
      destruct (JsMap.size (selectedMarkers s) >=? maxSelections s)%Z.
      * cbn [compatible negb why fst snd success]. now rewrite app_nil_r.
      * cbn [compatible negb why]. destruct (negb multi && _); reflexivity.
  - unfold pruneInvalidSelections. cbn [fst snd].
    destruct (snd (fold_left _ _ _));
      destruct (JsMap.size _ =? 0)%Z; cbn [emitChange notifications setLevel];
      rewrite ?app_nil_r; reflexivity.
  - destruct emit; cbn; [reflexivity|now rewrite app_nil_r].
Qed.

(** *** Adding and removing *)

Lemma delete_appended (key : string) (v : Marker) (m : JsMap.t Marker) :
  JsMap.has key m = false -> JsMap.delete key (m ++ [(key, v)]) = m.
Proof.
  intros H. unfold JsMap.delete. rewrite filter_app. cbn [filter fst].
  rewrite String.eqb_refl. cbn [negb]. rewrite app_nil_r.
  apply has_false_keys in H.
  induction m as [|e m IH]; [reflexivity|]. cbn [filter].
  destruct (String.eqb_spec (fst e) key) as [E|_].
  - exfalso. apply H. left. exact E.
  - cbn [negb]. f_equal. apply IH. intros Hin. apply H. now right.
Qed.

(** X12: deselecting a marker right after a multi-select call added it
    restores the selected markers and the level of before, whenever
    the selection was consistent and the call was not a rejection. *)
Theorem selectMarker_then_deselectMarker
  (m : Marker) (level : Z) (s : State) :
  Spec.consistent s ->
  JsMap.has (markerId m) (selectedMarkers s) = false ->
  success (fst (selectMarker m level true s)) = true ->
  action (fst (selectMarker m level true s)) = Some added ->
  selectedMarkers
    (snd (deselectMarker (markerId m) (snd (selectMarker m level true s))))
  = selectedMarkers s
  /\ selectionHierarchyLevel
       (snd (deselectMarker (markerId m) (snd (selectMarker m level true s))))
     = selectionHierarchyLevel s.
Proof.
  intros [Hempty Hlevels] Hhas. unfold selectMarker, isSelectionCompatible.
  rewrite Hhas. cbn [negb andb].
  assert (Hafter : forall s0,
    selectedMarkers s0 = selectedMarkers s ->
    selectedMarkers s = [] \/ selectionHierarchyLevel s = Some level ->
    selectedMarkers
      (snd (deselectMarker (markerId m) (emitChange (store m level s0))))
    = selectedMarkers s
    /\ selectionHierarchyLevel
         (snd (deselectMarker (markerId m) (emitChange (store m level s0))))
       = selectionHierarchyLevel s).
  { intros s0 E Hs. unfold deselectMarker, store.
    cbn [emitChange setMarkers setLevel selectedMarkers selectionHierarchyLevel].
    rewrite E, (has_false_set _ _ _ Hhas).
    assert (Hin : JsMap.has (markerId m)
                    (selectedMarkers s ++ [(markerId m, withLevel level m)]) = true).
    { unfold JsMap.has. rewrite existsb_app. cbn [existsb fst].
      rewrite String.eqb_refl. now rewrite orb_true_r. }
    rewrite Hin. cbn [negb snd]. rewrite (delete_appended _ _ _ Hhas).
    destruct (JsMap.size (selectedMarkers s) =? 0)%Z eqn:Z0;
      cbn [emitChange setMarkers setLevel selectedMarkers selectionHierarchyLevel];
      (split; [reflexivity|]).
    - apply size_zero in Z0. symmetry. now apply Hempty.
    - apply size_zero_false in Z0. destruct Hs as [Hs|Hs]; [contradiction|].
      now symmetry. }
  destruct (JsMap.size (selectedMarkers s) =? 0)%Z eqn:Hsize.
  - cbn [compatible negb why]. intros _ _. apply Hafter; [reflexivity|].
    left. now apply size_zero.
  - destruct (levelDiffers (selectionHierarchyLevel s) level) eqn:Hlevel.
    + cbn [compatible negb why fst action]. intros _ H. discriminate H.
    + destruct (JsMap.size (selectedMarkers s) >=? maxSelections s)%Z.
      * cbn [compatible negb why fst success]. intros H. discriminate H.
      * cbn [compatible negb why]. intros _ _. apply Hafter; [reflexivity|].
        right. now apply levelDiffers_false.
Qed.

(** *** Bulk replacement and restoring *)




(** The map that the loop of [setSelection] builds. *)
Local Abbreviation stored level markers acc :=
  (fold_left (fun a mk => JsMap.set (markerId mk) (withLevel level mk) a)
             markers acc).




Lemma get_unique (m : JsMap.t Marker) (key : string) (v : Marker) :
  NoDup (JsMap.keys m) -> In (key, v) m -> JsMap.get key m = Some v.
Proof.
  unfold JsMap.get, JsMap.keys. induction m as [|e m IH]; [intros _ []|].
  cbn [map find]. intros Hnd Hin. inversion Hnd as [|? ? Hnotin Hnd']; subst.
  destruct Hin as [->|Hin].
  - cbn [fst]. now rewrite String.eqb_refl.
  - destruct (String.eqb_spec (fst e) key) as [E|_]; [|now apply IH].
    exfalso. apply Hnotin. rewrite E. apply in_map_iff. now exists (key, v).
Qed.

(** The map that the loop of [restoreState] builds. *)
Local Abbreviation restored lookup level ids acc :=
  (fold_left (fun a id => match lookup id with
                          | Some mk => JsMap.set id (withSavedLevel level mk) a
                          | None => a
                          end) ids acc).

Lemma restored_same (lookup : string -> option Marker) (level : option Z)
  (m : JsMap.t Marker) :
  forall acc,
    NoDup (JsMap.keys m) ->
    (forall k, In k (JsMap.keys m) -> JsMap.has k acc = false) ->
    (forall k v, In (k, v) m -> lookup k = Some v /\ _level v = level) ->
    restored lookup level (JsMap.keys m) acc = acc ++ m.
Proof.
  induction m as [|[k v] m IH]; intros acc Hnd Hnew Hlook; cbn [JsMap.keys map fold_left].
  - now rewrite app_nil_r.
  - cbn [fst]. destruct (Hlook k v (or_introl eq_refl)) as [Hk Hl].
    rewrite Hk.
    assert (Hv : withSavedLevel level v = v) by (destruct v; cbn in *; now subst).
    rewrite Hv, (has_false_set k v acc) by (apply Hnew; now left).
    inversion Hnd as [|? ? Hnotin Hnd']; subst.
    fold (JsMap.keys m). rewrite (IH (acc ++ [(k, v)]) Hnd').
    + now rewrite <- app_assoc.
    + intros k' Hk'. unfold JsMap.has. rewrite existsb_app. cbn [existsb fst].
      fold (JsMap.has k' acc). rewrite (Hnew k') by now right.
      destruct (String.eqb_spec k k') as [<-|_]; [contradiction|reflexivity].
    + intros k' v' Hin. apply Hlook. now right.
Qed.

(** X14: the state that [getState] saves after any sequence of calls on
    a new selection manager is restored in full by [restoreState] with
    a lookup that returns the markers that were selected: whatever the
    manager restored into held, it ends with the same selected
    markers, in the same order, and the same level. *)
Theorem restoreState_getState
  (maxSel : option Z) (calls : list Spec.Call) (target : State) :
  selectedMarkers
    (restoreState
       (Some (getState (Spec.run calls (SelectionManager.new maxSel))))
       (fun id => JsMap.get id
                    (selectedMarkers (Spec.run calls (SelectionManager.new maxSel))))
       target)
  = selectedMarkers (Spec.run calls (SelectionManager.new maxSel))
  /\ selectionHierarchyLevel
       (restoreState
          (Some (getState (Spec.run calls (SelectionManager.new maxSel))))
          (fun id => JsMap.get id
                       (selectedMarkers (Spec.run calls (SelectionManager.new maxSel))))
          target)
     = selectionHierarchyLevel (Spec.run calls (SelectionManager.new maxSel)).
Proof.
  set (s := Spec.run calls (SelectionManager.new maxSel)).
  assert (Hwk : Spec.wellKeyed (selectedMarkers s))
    by exact (wellKeyed_run calls (SelectionManager.new maxSel) wellKeyed_empty).
  assert (Hc : Spec.consistent s).
  { apply consistent_run. split; [simpl; tauto|intros k v []]. }
  destruct Hwk as [Hnd _]. destruct Hc as [_ Hlv].
  unfold restoreState, getState, getSelectedIds.
  cbn [selectedIds hierarchyLevel clearSelection setMarkers setLevel].
  set (lookup := fun id => JsMap.get id (selectedMarkers s)).
  set (t0 := mkState [] None (maxSelections target) (notifications target)).
  assert (H : forall ids st,
    fold_left (fun s0 id =>
                 match lookup id with
                 | Some mk =>
                     setMarkers (JsMap.set id
                                   (withSavedLevel (selectionHierarchyLevel s) mk)
                                   (selectedMarkers s0)) s0
                 | None => s0
                 end) ids st
    = mkState (restored lookup (selectionHierarchyLevel s) ids (selectedMarkers st))
              (selectionHierarchyLevel st) (maxSelections st) (notifications st)).
  { induction ids as [|x ids IH]; intros st; [now destruct st|].
    cbn [fold_left]. rewrite IH. destruct (lookup x); [reflexivity|].
    now destruct st. }
  rewrite (H _ t0). subst t0.
  cbn [emitChange selectedMarkers selectionHierarchyLevel].
  split; [|reflexivity].
  rewrite (restored_same lookup (selectionHierarchyLevel s) (selectedMarkers s) []);
    [reflexivity|exact Hnd|reflexivity|].
  intros k v Hin. split; [now apply get_unique|now apply (Hlv k)].
Qed.

End SelectionMoreFacts.

(** ** Coordinates and bounding boxes (src/utils/projection.js) *)

Section FloatOrderFacts.
Import FloatKey.

Lemma SFcompare_key (x y : SpecFloat.spec_float) :
  SpecFloat.SFcompare x y
  = match key x, key y with
    | Some a, Some b => Some (lex a b)
    | _, _ => None
    end.
Proof.
  destruct x as [sx|sx| |sx mx ex], y as [sy|sy| |sy my ey]; cbn [key];
    try reflexivity;
    try (destruct sx; reflexivity);
    try (destruct sy; reflexivity);
    try (destruct sx, sy; reflexivity).
  destruct sx, sy; cbn [SpecFloat.SFcompare lex]; try reflexivity.
  rewrite Z.compare_opp, (Z.compare_antisym ex ey).
  destruct (ex ?= ey)%Z; reflexivity.
Qed.

Lemma leb_key (a b : float) :
  PrimFloat.leb a b
  = match keyOf a, keyOf b with Some ka, Some kb => leK ka kb | _, _ => false end.
Proof.
  rewrite leb_spec. unfold SpecFloat.SFleb, keyOf, leK. rewrite SFcompare_key.
  destruct (key (Prim2SF a)), (key (Prim2SF b)); try reflexivity;
    destruct (lex _ _); reflexivity.
Qed.

Lemma ltb_key (a b : float) :
  PrimFloat.ltb a b
  = match keyOf a, keyOf b with Some ka, Some kb => ltK ka kb | _, _ => false end.
Proof.
  rewrite ltb_spec. unfold SpecFloat.SFltb, keyOf, ltK. rewrite SFcompare_key.
  destruct (key (Prim2SF a)), (key (Prim2SF b)); try reflexivity;
    destruct (lex _ _); reflexivity.
Qed.

Lemma eqb_key (a b : float) :
  PrimFloat.eqb a b
  = match keyOf a, keyOf b with Some ka, Some kb => eqK ka kb | _, _ => false end.
Proof.
  rewrite eqb_spec. unfold SpecFloat.SFeqb, keyOf, eqK. rewrite SFcompare_key.
  destruct (key (Prim2SF a)), (key (Prim2SF b)); try reflexivity;
    destruct (lex _ _); reflexivity.
Qed.

Lemma lex_refl (a : Z * Z * Z) : lex a a = Eq.
Proof. destruct a as [[s e] m]. cbn. now rewrite !Z.compare_refl. Qed.

Lemma is_nan_key (a : float) :
  PrimFloat.is_nan a = match keyOf a with Some _ => false | None => true end.
Proof.
  unfold PrimFloat.is_nan. rewrite eqb_key.
  destruct (keyOf a) as [k|]; [|reflexivity]. unfold eqK. now rewrite lex_refl.
Qed.

(** Case analysis on the three comparisons of a lexicographic order. *)
Ltac lex_cases :=
  unfold leK, ltK, eqK, lex in *;
  repeat match goal with
         | k : (Z * Z * Z)%type |- _ => destruct k as [[? ?] ?]
         end;
  repeat match goal with
         | H : context [(?x ?= ?y)%Z] |- _ => destruct (Z.compare_spec x y)
         | |- context [(?x ?= ?y)%Z] => destruct (Z.compare_spec x y)
         end;
  try discriminate; try reflexivity; try lia.

Lemma leK_trans (a b c : Z * Z * Z) :
  leK a b = true -> leK b c = true -> leK a c = true.
Proof. intros H1 H2. lex_cases. Qed.

Lemma ltK_leK (a b : Z * Z * Z) : ltK a b = true -> leK a b = true.
Proof. intros H. lex_cases. Qed.

Lemma leK_refl (a : Z * Z * Z) : leK a a = true.
Proof. unfold leK. now rewrite lex_refl. Qed.

Lemma not_ltK (a b : Z * Z * Z) : ltK a b = false -> leK b a = true.
Proof. intros H. lex_cases. Qed.

Lemma leK_ltK (a b c : Z * Z * Z) :
  leK a b = true -> ltK b c = true -> eqK a c = false.
Proof. intros H1 H2. lex_cases. Qed.

(** Comparisons of numbers through their keys. *)
Ltac by_keys :=
  rewrite ?leb_key, ?ltb_key, ?eqb_key, ?is_nan_key in *;
  repeat match goal with
         | H : context [keyOf ?a] |- _ => destruct (keyOf a)
         | |- context [keyOf ?a] => destruct (keyOf a)
         end;
  try discriminate; try reflexivity; lex_cases.

Lemma fle_trans (a b c : float) :
  PrimFloat.leb a b = true -> PrimFloat.leb b c = true ->
  PrimFloat.leb a c = true.
Proof. intros H1 H2. by_keys. Qed.

Lemma fle_lt_trans (a b c : float) :
  PrimFloat.leb a b = true -> PrimFloat.ltb b c = true ->
  PrimFloat.ltb a c = true.
Proof. intros H1 H2. by_keys. Qed.

Lemma flt_le_trans (a b c : float) :
  PrimFloat.ltb a b = true -> PrimFloat.leb b c = true ->
  PrimFloat.ltb a c = true.
Proof. intros H1 H2. by_keys. Qed.

Lemma flt_asym (a b : float) :
  PrimFloat.ltb a b = true -> PrimFloat.ltb b a = false.
Proof. intros H. by_keys. Qed.

Lemma flt_not_eq (a b : float) :
  PrimFloat.ltb a b = true -> PrimFloat.eqb a b = false.
Proof. intros H. by_keys. Qed.

Lemma fle_not_nan (a b : float) :
  PrimFloat.leb a b = true ->
  PrimFloat.is_nan a = false /\ PrimFloat.is_nan b = false.
Proof. intros H. split; by_keys. Qed.

(** A number is within an interval of numbers exactly when it is not
    NaN and is neither below nor above it. *)
Lemma within_checks (lo hi x : float) :
  PrimFloat.is_nan lo = false -> PrimFloat.is_nan hi = false ->
  (PrimFloat.leb lo x = true /\ PrimFloat.leb x hi = true
   <-> PrimFloat.is_nan x = false /\ PrimFloat.ltb x lo = false
       /\ PrimFloat.ltb hi x = false).
Proof.
  intros Hlo Hhi. split.
  - intros [H1 H2]. repeat split; by_keys.
  - intros (H0 & H1 & H2). split; by_keys.
Qed.

Lemma Math_min_spec (a b : float) :
  PrimFloat.is_nan a = false -> PrimFloat.is_nan b = false ->
  (Js.Math_min a b = a \/ Js.Math_min a b = b)
  /\ PrimFloat.leb (Js.Math_min a b) a = true
  /\ PrimFloat.leb (Js.Math_min a b) b = true.
Proof.
  intros Ha Hb. unfold Js.Math_min. rewrite Ha, Hb. cbn [orb].
  destruct (PrimFloat.ltb a b) eqn:L1; [|destruct (PrimFloat.ltb b a) eqn:L2;
    [|destruct (Js.isNegativeZero a)]];
    (split; [tauto|]); split; by_keys.
Qed.

Lemma Math_max_spec (a b : float) :
  PrimFloat.is_nan a = false -> PrimFloat.is_nan b = false ->
  (Js.Math_max a b = a \/ Js.Math_max a b = b)
  /\ PrimFloat.leb a (Js.Math_max a b) = true
  /\ PrimFloat.leb b (Js.Math_max a b) = true.
Proof.
  intros Ha Hb. unfold Js.Math_max. rewrite Ha, Hb. cbn [orb].
  destruct (PrimFloat.ltb b a) eqn:L1; [|destruct (PrimFloat.ltb a b) eqn:L2;
    [|destruct (Js.isPositiveZero a)]];
    (split; [tauto|]); split; by_keys.
Qed.

Lemma Math_min_at_most (a c : float) :
  PrimFloat.is_nan c = false -> PrimFloat.ltb c (Js.Math_min a c) = false.
Proof.
  intros Hc. destruct (PrimFloat.is_nan a) eqn:Ha.
  - unfold Js.Math_min. rewrite Ha. cbn [orb]. rewrite ltb_key.
    change (FloatKey.keyOf nan) with (@None (Z * Z * Z)).
    now destruct (FloatKey.keyOf c).
  - destruct (Math_min_spec a c Ha Hc) as (_ & _ & H). now apply leb_not_gt.
Qed.

Lemma Math_max_at_least (a c : float) :
  PrimFloat.is_nan c = false -> PrimFloat.ltb (Js.Math_max a c) c = false.
Proof.
  intros Hc. destruct (PrimFloat.is_nan a) eqn:Ha.
  - unfold Js.Math_max. rewrite Ha. cbn [orb]. rewrite ltb_key.
    change (FloatKey.keyOf nan) with (@None (Z * Z * Z)). reflexivity.
  - destruct (Math_max_spec a c Ha Hc) as (_ & _ & H). now apply leb_not_gt.
Qed.

End FloatOrderFacts.

Section ProjectionFacts.
Import Geo ProjectionUtils.

Lemma isValidCoordinate_within (lon lat : Js.value) :
  isValidCoordinate lon lat = true
  <-> Spec.within (-180) 180 lon /\ Spec.within (-90) 90 lat.
Proof.
  pose proof (within_checks (-180) 180) as Wlon.
  pose proof (within_checks (-90) 90) as Wlat.
  split.
  - destruct lon as [x| | | |], lat as [y| | | |]; try discriminate.
    unfold isValidCoordinate. intros H.
    destruct (PrimFloat.is_nan x) eqn:Nx; [discriminate|].
    destruct (PrimFloat.is_nan y) eqn:Ny; [discriminate|]. cbn [orb] in H.
    destruct (PrimFloat.ltb x (-180)) eqn:X1; [discriminate|].
    destruct (PrimFloat.ltb 180 x) eqn:X2; [discriminate|]. cbn [orb] in H.
    destruct (PrimFloat.ltb y (-90)) eqn:Y1; [discriminate|].
    destruct (PrimFloat.ltb 90 y) eqn:Y2; [discriminate|].
    split; [exists x|exists y]; (split; [reflexivity|]).
    + apply Wlon; auto.
    + apply Wlat; auto.
  - intros [(x & -> & Hx) (y & -> & Hy)].
    apply Wlon in Hx; [|reflexivity|reflexivity].
    apply Wlat in Hy; [|reflexivity|reflexivity].
    destruct Hx as (Nx & X1 & X2). destruct Hy as (Ny & Y1 & Y2).
    unfold isValidCoordinate. now rewrite Nx, Ny, X1, X2, Y1, Y2.
Qed.

(** X15: [isValidCoordinate] accepts exactly the pairs of numbers with
    the longitude in [-180, 180] and the latitude in [-90, 90]. *)
Theorem isValidCoordinate_iff_within (lon lat : Js.value) :
  isValidCoordinate lon lat = true
  <-> Spec.within (-180) 180 lon /\ Spec.within (-90) 90 lat.
Proof. apply isValidCoordinate_within. Qed.

(** *** Bounding boxes *)

Lemma validPoint_numbers (p : list Js.value) :
  Spec.validPoint p = true ->
  exists x y,
    nth 0 p Js.Undefined = Js.Num x /\ nth 1 p Js.Undefined = Js.Num y
    /\ PrimFloat.leb (-180) x = true /\ PrimFloat.leb x 180 = true
    /\ PrimFloat.leb (-90) y = true /\ PrimFloat.leb y 90 = true.
Proof.
  unfold Spec.validPoint. intros H. apply isValidCoordinate_within in H.
  destruct H as [(x & Ex & Hx1 & Hx2) (y & Ey & Hy1 & Hy2)].
  exists x, y. auto 10.
Qed.

Lemma invalid_not_number (p : list Js.value) :
  Js.isNumber (nth 0 p Js.Undefined) = false
  \/ Js.isNumber (nth 1 p Js.Undefined) = false ->
  Spec.validPoint p = false.
Proof.
  unfold Spec.validPoint.
  destruct (nth 0 p Js.Undefined), (nth 1 p Js.Undefined); cbn;
    intros [H|H]; try discriminate; reflexivity.
Qed.

Lemma encloses_initial :
  Spec.encloses (mkBBox infinity neg_infinity infinity neg_infinity) [].
Proof.
  split; [repeat split|]. split; [intros p x y []|].
  left. split; [intros p []|reflexivity].
Qed.

(** A bound that is the old bound or the new coordinate is a
    coordinate of a valid point seen. *)
Lemma attained (i : nat) (old new x : float) (seen : list (list Js.value))
  (p : list Js.value) :
  new = old \/ new = x ->
  Spec.validPoint p = true -> nth i p Js.Undefined = Js.Num x ->
  (exists q, In q seen /\ Spec.validPoint q = true
             /\ nth i q Js.Undefined = Js.Num old)
  \/ new = x ->
  exists q, In q (seen ++ [p]) /\ Spec.validPoint q = true
            /\ nth i q Js.Undefined = Js.Num new.
Proof.
  intros Hnew Hv Hx [(q & Hq & Hqv & Hqx)|E].
  - destruct Hnew as [->| ->].
    + exists q. split; [apply in_or_app; now left|]. now split.
    + exists p. split; [apply in_or_app; right; now left|]. now split.
  - subst new. exists p. split; [apply in_or_app; right; now left|]. now split.
Qed.

Lemma encloses_extend (box : BBox) (seen : list (list Js.value))
  (p : list Js.value) :
  Spec.encloses box seen -> Spec.encloses (extend box p) (seen ++ [p]).
Proof.
  intros ((N1 & N2 & N3 & N4) & B & C).
  assert (Hskip : Spec.validPoint p = false ->
                  Spec.encloses box (seen ++ [p])).
  { intros Hinv. split; [now repeat split|]. split.
    - intros q x y Hq Hv. apply in_app_or in Hq.
      destruct Hq as [Hq|[<-|[]]]; [now apply B|congruence].
    - destruct C as [[Hnone ->]|(C1 & C2 & C3 & C4)].
      + left. split; [|reflexivity]. intros q Hq. apply in_app_or in Hq.
        destruct Hq as [Hq|[<-|[]]]; auto.
      + right.
        repeat split;
          [destruct C1 as (q & Hq & Hr)|destruct C2 as (q & Hq & Hr)
          |destruct C3 as (q & Hq & Hr)|destruct C4 as (q & Hq & Hr)];
          exists q; (split; [apply in_or_app; now left|exact Hr]). }
  unfold extend.
  destruct (nth 0 p Js.Undefined) as [x| | | |] eqn:E0;
    try (apply Hskip, invalid_not_number; left; now rewrite E0).
  destruct (nth 1 p Js.Undefined) as [y| | | |] eqn:E1;
    try (apply Hskip, invalid_not_number; right; now rewrite E1).
  destruct (isValidCoordinate (Js.Num x) (Js.Num y)) eqn:V;
    [|apply Hskip; unfold Spec.validPoint; now rewrite E0, E1].
  assert (Hv : Spec.validPoint p = true)
    by (unfold Spec.validPoint; now rewrite E0, E1).
  destruct (validPoint_numbers p Hv) as (x' & y' & Ex & Ey & X1 & X2 & Y1 & Y2).
  rewrite E0 in Ex. rewrite E1 in Ey. injection Ex as <-. injection Ey as <-.
  destruct (fle_not_nan _ _ X1) as [_ Nx]. destruct (fle_not_nan _ _ Y1) as [_ Ny].
  destruct (Math_min_spec (minLon box) x N1 Nx) as (R1 & L1 & L1').
  destruct (Math_max_spec (maxLon box) x N2 Nx) as (R2 & L2 & L2').
  destruct (Math_min_spec (minLat box) y N3 Ny) as (R3 & L3 & L3').
  destruct (Math_max_spec (maxLat box) y N4 Ny) as (R4 & L4 & L4').
  split; [|split]; cbn [minLon maxLon minLat maxLat].
  - repeat split;
      [destruct R1 as [-> | ->]|destruct R2 as [-> | ->]
      |destruct R3 as [-> | ->]|destruct R4 as [-> | ->]]; assumption.
  - intros q a b Hq Hqv Ha Hb. apply in_app_or in Hq.
    destruct Hq as [Hq|[<-|[]]].
    + destruct (B q a b Hq Hqv Ha Hb) as (B1 & B2 & B3 & B4).
      repeat split; eauto using fle_trans.
    + rewrite E0 in Ha. rewrite E1 in Hb. injection Ha as <-. injection Hb as <-.
      now repeat split.
  - right.
    assert (Hlow : forall old new c,
              new = old \/ new = c -> PrimFloat.leb new c = true ->
              PrimFloat.leb c 180 = true -> old = infinity -> new = c).
    { intros old new c [-> | ->] Hle Hc ->; [|reflexivity].
      pose proof (fle_trans _ _ _ Hle Hc) as F. discriminate F. }
    assert (Hhigh : forall old new c,
              new = old \/ new = c -> PrimFloat.leb c new = true ->
              PrimFloat.leb (-180) c = true -> old = neg_infinity -> new = c).
    { intros old new c [-> | ->] Hle Hc ->; [|reflexivity].
      pose proof (fle_trans _ _ _ Hc Hle) as F. discriminate F. }
    assert (Y2' : PrimFloat.leb y 180 = true)
      by (apply (fle_trans _ 90); [exact Y2|reflexivity]).
    assert (Y1' : PrimFloat.leb (-180) y = true)
      by (apply (fle_trans _ (-90)); [reflexivity|exact Y1]).
    destruct C as [[_ ->]|(C1 & C2 & C3 & C4)]; cbn [minLon maxLon minLat maxLat] in *.
    + repeat split.
      * apply (attained 0 infinity _ x seen p R1 Hv E0). right.
        now apply (Hlow infinity).
      * apply (attained 0 neg_infinity _ x seen p R2 Hv E0). right.
        now apply (Hhigh neg_infinity).
      * apply (attained 1 infinity _ y seen p R3 Hv E1). right.
        now apply (Hlow infinity).
      * apply (attained 1 neg_infinity _ y seen p R4 Hv E1). right.
        now apply (Hhigh neg_infinity).
    + repeat split.
      * apply (attained 0 (minLon box) _ x seen p R1 Hv E0). now left.
      * apply (attained 0 (maxLon box) _ x seen p R2 Hv E0). now left.
      * apply (attained 1 (minLat box) _ y seen p R3 Hv E1). now left.
      * apply (attained 1 (maxLat box) _ y seen p R4 Hv E1). now left.
Qed.

Lemma encloses_fold (ps : list (list Js.value)) :
  forall box seen,
    Spec.encloses box seen -> Spec.encloses (fold_left extend ps box) (seen ++ ps).
Proof.
  induction ps as [|p ps IH]; intros box seen H; cbn [fold_left].
  - now rewrite app_nil_r.
  - replace (seen ++ p :: ps) with ((seen ++ [p]) ++ ps)
      by (now rewrite <- app_assoc).
    apply IH. now apply encloses_extend.
Qed.

Section BoundingBox.
Variable StringToNumber : string -> float.

(** X16: [calculateBoundingBox] returns [null] exactly when no point
    given is a valid coordinate.  Otherwise every valid point given is
    within the bounds it returns, as [isPointInBounds] judges it, and
    each of the four bounds is the longitude or latitude of a valid
    point given; invalid points are ignored. *)
Theorem calculateBoundingBox_encloses (points : list (list Js.value)) :
  match calculateBoundingBox (Some points) with
  | None => forall p, In p points -> Spec.validPoint p = false
  | Some box =>
      (forall p, In p points -> Spec.validPoint p = true ->
                 isPointInBounds StringToNumber (Some p) (Some box) = true)
      /\ (exists p, In p points /\ Spec.validPoint p = true
                    /\ nth 0 p Js.Undefined = Js.Num (minLon box))
      /\ (exists p, In p points /\ Spec.validPoint p = true
                    /\ nth 0 p Js.Undefined = Js.Num (maxLon box))
      /\ (exists p, In p points /\ Spec.validPoint p = true
                    /\ nth 1 p Js.Undefined = Js.Num (minLat box))
      /\ (exists p, In p points /\ Spec.validPoint p = true
                    /\ nth 1 p Js.Undefined = Js.Num (maxLat box))
  end.
Proof.
  destruct points as [|p0 ps]; [intros p []|].
  unfold calculateBoundingBox.
  pose proof (encloses_fold (p0 :: ps) _ [] encloses_initial) as H.
  cbn [app] in H.
  set (box := fold_left extend (p0 :: ps)
                        (mkBBox infinity neg_infinity infinity neg_infinity)) in *.
  destruct H as (_ & B & C).
  destruct (PrimFloat.eqb (minLon box) infinity) eqn:E.
  - destruct C as [[Hnone _]|((q & Hq & Hv & Hx) & _)]; [exact Hnone|].
    destruct (validPoint_numbers q Hv) as (x & y & Ex & _ & _ & X2 & _).
    rewrite Hx in Ex. injection Ex as <-.
    assert (L : PrimFloat.ltb (minLon box) infinity = true)
      by (apply (fle_lt_trans _ 180); [exact X2|reflexivity]).
    apply flt_not_eq in L. congruence.
  - destruct C as [[_ Hinit]|C].
    + rewrite Hinit in E. discriminate E.
    + split; [|exact C]. intros p Hp Hv.
      destruct (validPoint_numbers p Hv) as (x & y & Ex & Ey & _).
      destruct (B p x y Hp Hv Ex Ey) as (B1 & B2 & B3 & B4).
      unfold isPointInBounds, ge, le. rewrite Ex, Ey. cbn [Js.ToNumber].
      now rewrite B1, B2, B3, B4.
Qed.

End BoundingBox.

End ProjectionFacts.

(** ** Rendering, zooming and clicking *)

Section InteractionFacts.
Import Geo GeoMapWidget.

(** The markers that [renderMarkers] computes from a widget. *)
Lemma renderMarkers_visible (w : Widget) :
  exists candidates,
    visibleMarkers (state (renderMarkers w)) = filter displayable candidates
    /\ (forall m, In m candidates ->
          _level m = Some (currentZoomLevel (state w))
          /\ _count m = Some (DataProcessing.calculateCounts
                                (node m) (activeFilters (state w)))).
Proof.
  unfold renderMarkers.
  cbn [setSelectionManager setState setVisibleMarkers state visibleMarkers].
  eexists. split; [reflexivity|].
  intros m Hin.
  destruct (currentParentId (state w)) as [parentId|];
    [destruct (Js.truthy parentId && _)|];
    apply in_map_iff in Hin; destruct Hin as (n & <- & _); now split.
Qed.

Lemma renderMarkers_selection (w : Widget) :
  SelectionManager.selectedMarkers (selectionManager (renderMarkers w))
  = filter (fun e => Spec.includes
                       (map markerId (visibleMarkers (state (renderMarkers w))))
                       (fst e))
           (SelectionManager.selectedMarkers (selectionManager w)).
Proof.
  unfold renderMarkers.
  cbn [setSelectionManager setState setVisibleMarkers state visibleMarkers
       selectionManager].
  apply pruneInvalidSelections_map.
Qed.

Lemma includes_In (ids : list string) (key : string) :
  Spec.includes ids key = true <-> In key ids.
Proof.
  unfold Spec.includes. rewrite existsb_exists. split.
  - intros (x & Hx & E). apply String.eqb_eq in E. now subst.
  - intros H. exists key. split; [exact H|apply String.eqb_refl].
Qed.

(** X17: after [renderMarkers] every visible marker has geometry with
    valid coordinates, the current level in [_level] and its leaf
    count under the active filters in [_count], and is not a leaf with
    count 0; every selected id is the id of a visible marker, the
    markers that are no longer visible having been dropped from the
    selection and no other. *)
Theorem renderMarkers_visible_and_selected (w : Widget) :
  (forall m, In m (visibleMarkers (state (renderMarkers w))) ->
     displayable m = true
     /\ _level m = Some (currentZoomLevel (state w))
     /\ _count m = Some (DataProcessing.calculateCounts
                           (node m) (activeFilters (state w)))
     /\ exists lon lat,
          Spec.lonLat (node m) = Some (lon, lat)
          /\ ProjectionUtils.isValidCoordinate lon lat = true)
  /\ (forall key,
        In key (SelectionManager.getSelectedIds (selectionManager (renderMarkers w)))
        -> In key (map markerId (visibleMarkers (state (renderMarkers w)))))
  /\ SelectionManager.selectedMarkers (selectionManager (renderMarkers w))
     = filter (fun e => Spec.includes
                          (map markerId (visibleMarkers (state (renderMarkers w))))
                          (fst e))
              (SelectionManager.selectedMarkers (selectionManager w)).
Proof.
  split; [|split; [|apply renderMarkers_selection]].
  - destruct (renderMarkers_visible w) as (cs & E & Hcs).
    intros m Hin. rewrite E in Hin. apply filter_In in Hin.
    destruct Hin as [Hin Hd]. destruct (Hcs m Hin) as [Hl Hc].
    split; [exact Hd|]. split; [exact Hl|]. split; [exact Hc|].
    unfold displayable in Hd. unfold Spec.lonLat.
    destruct (geometry (node m)) as [g|]; [|discriminate].
    destruct (coordinates g) as [coords|]; [|discriminate].
    destruct (ProjectionUtils.isValidCoordinate
                (DataProcessing.element 0 coords)
                (DataProcessing.element 1 coords)) eqn:V; [|discriminate].
    destruct coords as [|a [|b rest]]; try discriminate V.
    + destruct a; discriminate V.
    + exists a, b. split; [reflexivity|exact V].
  - intros key Hin. unfold SelectionManager.getSelectedIds, JsMap.keys in Hin.
    rewrite renderMarkers_selection in Hin. apply in_map_iff in Hin.
    destruct Hin as (e & <- & He). apply filter_In in He.
    now apply includes_In.
Qed.


(** *** Clicks *)

(** X19: a click starts the timer and changes nothing else; when the
    timer fires, at least 100 ms after the last resolved click, the
    click is resolved by [toggleSelection] at the current level and
    reported once with the marker's new selection state; when it fires
    earlier the click is dropped.  In both cases no timer is left. *)
Theorem single_click_resolution
  (marker : Marker) (multiSelect : bool) (now : Z) (i : Interaction) :
  isTransitioning (state (widget i)) = false ->
  clickTimeout i = None ->
  handleMarkerClick marker multiSelect i
  = setClickTimeout (Some (mkPendingClick marker multiSelect)) i
  /\ clickTimeout (clickTimerFires now (handleMarkerClick marker multiSelect i))
     = None
  /\ ((now - lastClickTime i < 100)%Z ->
      clickTimerFires now (handleMarkerClick marker multiSelect i) = i)
  /\ ((100 <= now - lastClickTime i)%Z ->
      selectionManager
        (widget (clickTimerFires now (handleMarkerClick marker multiSelect i)))
      = snd (SelectionManager.toggleSelection
               marker (currentZoomLevel (state (widget i))) multiSelect
               (selectionManager (widget i)))
      /\ markerClicks
           (clickTimerFires now (handleMarkerClick marker multiSelect i))
         = markerClicks i
           ++ [(marker,
                SelectionManager.isSelected (markerId marker)
                  (snd (SelectionManager.toggleSelection
                          marker (currentZoomLevel (state (widget i)))
                          multiSelect (selectionManager (widget i)))))]
      /\ lastClickTime
           (clickTimerFires now (handleMarkerClick marker multiSelect i))
         = now).
Proof.
  intros T P. unfold handleMarkerClick. rewrite T, P.
  split; [reflexivity|].
  unfold clickTimerFires, performSingleClick.
  cbn [setClickTimeout clickTimeout lastClickTime widget pendingMarker
       pendingMultiSelect].
  destruct (Z.ltb_spec (now - lastClickTime i) 100).
  - split; [reflexivity|]. split; [|lia].
    intros _. destruct i; cbn in *. now subst.
  - split; [reflexivity|]. split; [lia|]. intros _. repeat split.
Qed.


(** *** Drill-down *)

(** X21: a double click, outside a transition and with the default
    thresholds, on a marker at level 1 or 2 that has children, an id
    and coordinates makes the marker the parent context, reports the
    double click, and starts a zoom to scale 3 from level 1 and 5.5
    from level 2.  A zoom event at that scale then moves the widget to
    the next level and shows the displayable children of the marker,
    each with its leaf count, instead of all the nodes of that level. *)
Theorem double_click_drills_down
  (projection : Js.value -> Js.value -> option (float * float))
  (width height : float) (marker : Marker) (i : Interaction)
  (g : Geometry) (coords : list Js.value) (t : Transform) :
  isTransitioning (state (widget i)) = false ->
  zoomThresholds (widget i) = mkZoomThresholds 1 2.5 5 ->
  currentZoomLevel (state (widget i)) = 1%Z
  \/ currentZoomLevel (state (widget i)) = 2%Z ->
  DataProcessing.isLeaf (node marker) = false ->
  geometry (node marker) = Some g -> coordinates g = Some coords ->
  markerId marker <> "" ->
  k t = (if (currentZoomLevel (state (widget i)) =? 1)%Z then 3 else 5.5)%float ->
  snd (handleMarkerDoubleClick projection width height marker i) = false
  /\ currentParentId
       (state (widget (fst (handleMarkerDoubleClick projection width height
                              marker i))))
     = Some (markerId marker)
  /\ markerDoubleClicks
       (fst (handleMarkerDoubleClick projection width height marker i))
     = markerDoubleClicks i ++ [marker]
  /\ (exists tx ty,
        zoomRequests
          (fst (handleMarkerDoubleClick projection width height marker i))
        = zoomRequests i ++ [TranslateScale tx ty (k t)])
  /\ currentZoomLevel
       (state (handleZoom t
                 (widget (fst (handleMarkerDoubleClick projection width height
                                 marker i)))))
     = (currentZoomLevel (state (widget i)) + 1)%Z
  /\ visibleMarkers
       (state (handleZoom t
                 (widget (fst (handleMarkerDoubleClick projection width height
                                 marker i)))))
     = filter displayable
         (map (fun child =>
                 mkMarker child None
                   (Some (currentZoomLevel (state (widget i)) + 1)%Z)
                   (Some (DataProcessing.calculateCounts
                            child (activeFilters (state (widget i))))))
              (DataProcessing.getChildrenOfNode (filteredData (widget i))
                                                (markerId marker))).
Proof.
  intros T Th L Leaf G C Id K.
  destruct i as [[ms [lvl fs vm zt tr pid] od fd sm th cb] ct lt mc md zr].
  cbn [widget state isTransitioning zoomThresholds currentZoomLevel
       activeFilters filteredData markerDoubleClicks zoomRequests] in *.
  subst tr th.
  assert (Ht : Js.truthy (markerId marker) = true).
  { unfold Js.truthy. destruct (String.eqb_spec (markerId marker) "");
      [contradiction|reflexivity]. }
  unfold handleMarkerDoubleClick, zoomToMarkerAndRevealChildren.
  cbn [widget state isTransitioning]. rewrite Leaf, G, C.
  destruct L as [-> | ->]; cbn [Z.eqb] in K;
    (destruct ct;
     cbn -[renderMarkers displayable DataProcessing.calculateCounts
           DataProcessing.getChildrenOfNode PrimFloat.add PrimFloat.sub
           PrimFloat.mul PrimFloat.div handleZoom];
     (split; [reflexivity|]); (split; [reflexivity|]); (split; [reflexivity|]);
     (split; [do 2 eexists; rewrite K; reflexivity|]);
     unfold handleZoom, transitionToLevel, zoomLevelFor; rewrite K;
     cbn -[renderMarkers displayable DataProcessing.calculateCounts
           DataProcessing.getChildrenOfNode];
     (split; [reflexivity|]);
     unfold renderMarkers;
     cbn -[displayable DataProcessing.calculateCounts
           DataProcessing.getChildrenOfNode Js.truthy];
     rewrite Ht; reflexivity).
Qed.

(** *** The zoom buttons *)

(** X22: the zoom buttons never ask for a scale outside the range of
    the zoom behaviour: whatever the current transform, [handleZoomIn]
    asks for a scale that is not above 12 and [handleZoomOut] for one
    that is not below 1; zooming out to below the country threshold
    drops the parent context, and nothing else of the widget changes. *)
Theorem zoom_buttons_within_extent (i : Interaction) :
  (exists scale,
     handleZoomIn i = request (ScaleTo scale) i
     /\ PrimFloat.ltb 12 scale = false)
  /\ (exists scale,
        zoomRequests (handleZoomOut i) = zoomRequests i ++ [ScaleTo scale]
        /\ PrimFloat.ltb scale 1 = false
        /\ widget (handleZoomOut i)
           = (if PrimFloat.ltb scale (country (zoomThresholds (widget i)))
              then setState (setCurrentParentId None (state (widget i)))
                            (widget i)
              else widget i)).
Proof.
  split.
  - eexists. split; [reflexivity|]. now apply Math_min_at_most.
  - eexists. split; [reflexivity|]. split; [now apply Math_max_at_least|].
    unfold handleZoomOut. cbn [request widget setWidget]. reflexivity.
Qed.

(** *** Reset *)

(** X23: [reset] leaves all three filters at ['All'], no parent
    context, the original data as filtered data and an empty selection
    without level; it notifies the selection listener once, with the
    empty selection, starts the zoom back to the identity, and shows
    the displayable nodes of the level the widget is still at. *)
Theorem reset_clears (i : Interaction) :
  activeFilters (state (widget (reset i))) = allFilters
  /\ currentParentId (state (widget (reset i))) = None
  /\ filteredData (widget (reset i)) = originalData (widget i)
  /\ originalData (widget (reset i)) = originalData (widget i)
  /\ SelectionManager.selectedMarkers (selectionManager (widget (reset i))) = []
  /\ SelectionManager.selectionHierarchyLevel
       (selectionManager (widget (reset i))) = None
  /\ SelectionManager.notifications (selectionManager (widget (reset i)))
     = SelectionManager.notifications (selectionManager (widget i)) ++ [[]]
  /\ zoomRequests (reset i) = zoomRequests i ++ [Identity]
  /\ currentZoomLevel (state (widget (reset i)))
     = currentZoomLevel (state (widget i))
  /\ visibleMarkers (state (widget (reset i)))
     = filter displayable
         (map (fun n =>
                 mkMarker (node n) (_parent n)
                   (Some (currentZoomLevel (state (widget i))))
                   (Some (DataProcessing.calculateCounts (node n) allFilters)))
              (DataProcessing.getNodesAtLevel
                 (originalData (widget i))
                 (currentZoomLevel (state (widget i))))).
Proof.
  destruct i as [[ms [lvl fs vm zt tr pid] od fd sm th cb] ct lt mc md zr].
  unfold reset, clearSelection, renderMarkers.
  cbn -[displayable DataProcessing.calculateCounts
        DataProcessing.getNodesAtLevel].
  repeat split.
Qed.

End InteractionFacts.

(** ** Filter options (src/utils/dataProcessing.js) *)

Section FilterOptionFacts.
Import Geo DataProcessing.

Lemma forEachFrom_fold (A S : Type) (g : A -> S -> S) (l : list A) :
  forall i s,
    Js.forEachFrom (fun x (_ : nat) a => g x a) i l s
    = fold_left (fun a x => g x a) l s.
Proof. induction l as [|x l IH]; intros i s; [reflexivity|apply IH]. Qed.

Lemma fold_left_flat_map (A B S : Type) (f : S -> B -> S) (h : A -> list B)
  (l : list A) :
  forall s,
    fold_left f (flat_map h l) s
    = fold_left (fun a x => fold_left f (h x) a) l s.
Proof.
  induction l as [|x l IH]; intros s; [reflexivity|].
  cbn [flat_map fold_left]. now rewrite fold_left_app, IH.
Qed.

Local Abbreviation collect :=
  (fun sets (e : GeoNode * Z) => collectOptions (fst e) (snd e) sets).

Lemma processNode_fold (node : GeoNode) :
  forall level sets,
    processNode node level sets
    = fold_left collect (Spec.subtreeDepths level node) sets.
Proof.
  induction node as [i l p g f|i l p g cs f IH] using GeoNode_children_ind;
    intros level sets; cbn [processNode Spec.subtreeDepths fold_left fst snd];
    [reflexivity|].
  unfold Js.forEach.
  rewrite (forEachFrom_fold _ _ (fun child a => processNode child (level + 1) a)).
  rewrite fold_left_flat_map.
  generalize (collectOptions (mkGeoNode i l p g (Some cs) f) level sets).
  induction IH as [|c cs' Hc _ IHcs]; intros s; [reflexivity|].
  cbn [fold_left]. now rewrite Hc, IHcs.
Qed.

Lemma Set_add_In (x y : string) (set : list string) :
  In y (Set_add x set) <-> In y set \/ y = x.
Proof.
  unfold Set_add. destruct (existsb _ set) eqn:E.
  - split; [tauto|]. intros [H| ->]; [exact H|].
    apply existsb_exists in E. destruct E as (e & He & Ee).
    apply String.eqb_eq in Ee. now subst.
  - rewrite in_app_iff. cbn [In]. split.
    + intros [H|[<-|[]]]; [now left|now right].
    + intros [H| ->]; [now left|right; now left].
Qed.

Lemma Set_add_NoDup (x : string) (set : list string) :
  NoDup set -> NoDup (Set_add x set).
Proof.
  intros H. unfold Set_add. destruct (existsb _ set) eqn:E; [exact H|].
  apply NoDup_app; [exact H|repeat constructor; intros []|].
  intros y Hy [<-|[]].
  assert (T : existsb (fun e => e =? x)%string set = true).
  { apply existsb_exists. exists x. split; [exact Hy|apply String.eqb_refl]. }
  congruence.
Qed.

Lemma collectOptions_sets (n : GeoNode) (d : Z) (sets : FilterOptions) :
  regions (collectOptions n d sets)
  = (if (d =? 1)%Z && Js.truthy (regionOf n)
     then Set_add (regionOf n) (regions sets) else regions sets)
  /\ locations (collectOptions n d sets)
     = (if (d =? 2)%Z then Set_add (label n) (locations sets)
        else locations sets)
  /\ datacentres (collectOptions n d sets)
     = (if (d =? 3)%Z || isLeaf n then Set_add (label n) (datacentres sets)
        else datacentres sets).
Proof.
  unfold collectOptions.
  destruct (d =? 1)%Z, (d =? 2)%Z, (d =? 3)%Z, (Js.truthy (regionOf n)),
    (isLeaf n); repeat split.
Qed.

(** The sets after the nodes of a list of entries were collected. *)
Lemma collected_sets (entries : list (GeoNode * Z)) :
  forall sets,
    let result := fold_left collect entries sets in
    (forall x, In x (regions result)
               <-> In x (regions sets)
                   \/ (x <> "" /\ exists n, In (n, 1%Z) entries /\ regionOf n = x))
    /\ (forall x, In x (locations result)
                  <-> In x (locations sets)
                      \/ exists n, In (n, 2%Z) entries /\ label n = x)
    /\ (forall x, In x (datacentres result)
                  <-> In x (datacentres sets)
                      \/ exists n d, In (n, d) entries
                                     /\ (d = 3%Z \/ isLeaf n = true)
                                     /\ label n = x)
    /\ (NoDup (regions sets) -> NoDup (regions result))
    /\ (NoDup (locations sets) -> NoDup (locations result))
    /\ (NoDup (datacentres sets) -> NoDup (datacentres result)).
Proof.
  induction entries as [|[n d] entries IH]; intros sets; cbn zeta.
  - cbn [fold_left In]. split; [|split; [|split]].
    + intros x; split; [now left|]. now intros [H|(_ & m & [] & _)].
    + intros x; split; [now left|]. now intros [H|(m & [] & _)].
    + intros x; split; [now left|]. now intros [H|(m & k & [] & _)].
    + repeat split; auto.
  - cbn [fold_left fst snd].
    destruct (IH (collectOptions n d sets)) as (R & L & D & NR & NL & ND).
    clear IH. cbn zeta in R, L, D, NR, NL, ND.
    destruct (collectOptions_sets n d sets) as (Er & El & Ed).
    assert (Hr : forall x, In x (regions (collectOptions n d sets))
                           <-> In x (regions sets)
                               \/ (x <> "" /\ d = 1%Z /\ regionOf n = x)).
    { intros x. rewrite Er. unfold Js.truthy.
      destruct (Z.eqb_spec d 1) as [D1|D1];
        destruct (String.eqb_spec (regionOf n) "") as [Re|Re];
        cbn [negb andb]; rewrite ?Set_add_In.
      - split; [now left|]. intros [H|(Hx & _ & E)]; [exact H|congruence].
      - split.
        + intros [H| ->]; [now left|right; auto].
        + intros [H|(_ & _ & E)]; [now left|now right].
      - split; [now left|]. intros [H|(_ & F & _)]; [exact H|contradiction].
      - split; [now left|]. intros [H|(_ & F & _)]; [exact H|contradiction]. }
    assert (Hl : forall x, In x (locations (collectOptions n d sets))
                           <-> In x (locations sets)
                               \/ (d = 2%Z /\ label n = x)).
    { intros x. rewrite El. destruct (Z.eqb_spec d 2) as [D2|D2];
        rewrite ?Set_add_In.
      - split.
        + intros [H| ->]; [now left|right; auto].
        + intros [H|(_ & E)]; [now left|now right].
      - split; [now left|]. intros [H|(F & _)]; [exact H|contradiction]. }
    assert (Hd : forall x, In x (datacentres (collectOptions n d sets))
                           <-> In x (datacentres sets)
                               \/ ((d = 3%Z \/ isLeaf n = true) /\ label n = x)).
    { intros x. rewrite Ed.
      destruct (Z.eqb_spec d 3) as [D3|D3]; destruct (isLeaf n);
        cbn [orb]; rewrite ?Set_add_In;
        try (split; [intros [H| ->]; [now left|right; auto]
                    |intros [H|(_ & E)]; [now left|now right]]).
      split; [now left|].
      intros [H|([F|F] & _)]; [exact H|contradiction|discriminate]. }
    assert (Hn : (NoDup (regions sets) -> NoDup (regions (collectOptions n d sets)))
                 /\ (NoDup (locations sets)
                     -> NoDup (locations (collectOptions n d sets)))
                 /\ (NoDup (datacentres sets)
                     -> NoDup (datacentres (collectOptions n d sets)))).
    { rewrite Er, El, Ed.
      destruct (_ && _), (d =? 2)%Z, (_ || _);
        repeat split; auto using Set_add_NoDup. }
    destruct Hn as (Hn1 & Hn2 & Hn3).
    split; [|split; [|split; [|split; [|split]]]]; auto.
    + intros x. rewrite R, Hr. cbn [In]. split.
      * intros [[H|(Hx & -> & E)]|(Hx & m & Hm & E)].
        -- now left.
        -- right. split; [exact Hx|]. exists n. split; [now left|exact E].
        -- right. split; [exact Hx|]. exists m. split; [now right|exact E].
      * intros [H|(Hx & m & [Hm|Hm] & E)].
        -- left. now left.
        -- injection Hm as -> ->. left. right. auto.
        -- right. split; [exact Hx|]. now exists m.
    + intros x. rewrite L, Hl. cbn [In]. split.
      * intros [[H|(-> & E)]|(m & Hm & E)].
        -- now left.
        -- right. exists n. split; [now left|exact E].
        -- right. exists m. split; [now right|exact E].
      * intros [H|(m & [Hm|Hm] & E)].
        -- left. now left.
        -- injection Hm as -> ->. left. right. auto.
        -- right. now exists m.
    + intros x. rewrite D, Hd. cbn [In]. split.
      * intros [[H|(Hc & E)]|(m & k & Hm & Hc & E)].
        -- now left.
        -- right. exists n, d. split; [now left|]. now split.
        -- right. exists m, k. split; [now right|]. now split.
      * intros [H|(m & k & [Hm|Hm] & Hc & E)].
        -- left. now left.
        -- injection Hm as -> ->. left. right. auto.
        -- right. now exists m, k.
Qed.

Lemma depth_one_roots (data : option Data) (n : GeoNode) :
  In (n, 1%Z) (Spec.depthsOf data) <-> In n (Spec.roots data).
Proof.
  unfold Spec.depthsOf. rewrite in_flat_map. split.
  - intros (r & Hr & Hin). destruct r as [i l p g [cs|] f];
      cbn [Spec.subtreeDepths] in Hin; destruct Hin as [E|Hin];
      try (injection E as <-; exact Hr); try destruct Hin.
    apply in_flat_map in Hin. destruct Hin as (c & _ & Hin).
    apply subtreeDepths_ge in Hin. lia.
  - intros Hn. exists n. split; [exact Hn|]. destruct n; now left.
Qed.

(** X24: whatever order the runtime's sort produces, each list of
    [extractFilterOptions] starts with ['All'] and continues with
    distinct values: the regions are the non-empty [CategoryValue]s,
    or else labels, of the roots; the locations are the labels of the
    nodes at depth 2; the datacentres are the labels of the nodes at
    depth 3 and of the nodes without children. *)
Theorem extractFilterOptions_values
  (sort : list string -> list string) (data : option Data) :
  (forall l, Permutation (sort l) l) ->
  (exists rs ls ds,
     extractFilterOptions sort data
     = mkFilterOptions ("All" :: rs) ("All" :: ls) ("All" :: ds)
     /\ NoDup rs /\ NoDup ls /\ NoDup ds
     /\ (forall x, In x rs
                   <-> x <> "" /\ exists n, In n (Spec.roots data) /\ regionOf n = x)
     /\ (forall x, In x ls
                   <-> exists n, In (n, 2%Z) (Spec.depthsOf data) /\ label n = x)
     /\ (forall x, In x ds
                   <-> exists n d, In (n, d) (Spec.depthsOf data)
                                   /\ (d = 3%Z \/ isLeaf n = true)
                                   /\ label n = x)).
Proof.
  intros Hsort.
  assert (E : exists sets,
    extractFilterOptions sort data
    = mkFilterOptions ("All" :: sort (regions sets))
                      ("All" :: sort (locations sets))
                      ("All" :: sort (datacentres sets))
    /\ sets = fold_left collect (Spec.depthsOf data) (mkFilterOptions [] [] [])).
  { unfold extractFilterOptions. eexists. split; [reflexivity|].
    destruct data as [[[ls|]]|]; try reflexivity.
    unfold Spec.depthsOf, Spec.roots, Js.forEach. cbn [GeoLocations].
    rewrite (forEachFrom_fold _ _ (fun n a => processNode n 1 a)).
    rewrite fold_left_flat_map.
    generalize (mkFilterOptions [] [] []).
    induction ls as [|r rs IH]; intros s; [reflexivity|].
    cbn [fold_left]. now rewrite processNode_fold, IH. }
  destruct E as (sets & E & Hsets).
  destruct (collected_sets (Spec.depthsOf data) (mkFilterOptions [] [] []))
    as (R & L & D & NR & NL & ND).
  cbn zeta in *. rewrite <- Hsets in *. cbn [regions locations datacentres] in *.
  exists (sort (regions sets)), (sort (locations sets)), (sort (datacentres sets)).
  split; [exact E|].
  assert (P : forall l x, In x (sort l) <-> In x l).
  { intros l x. split; apply Permutation_in;
      [apply Hsort|apply Permutation_sym, Hsort]. }
  assert (N : forall l, NoDup l -> NoDup (sort l)).
  { intros l H. eapply Permutation_NoDup; [apply Permutation_sym, Hsort|exact H]. }
  split; [apply N, NR; constructor|].
  split; [apply N, NL; constructor|].
  split; [apply N, ND; constructor|].
  split; [|split].
  - intros x. rewrite P, R. cbn [In]. split.
    + intros [[]|(Hx & n & Hn & Hr)]. split; [exact Hx|].
      exists n. split; [now apply depth_one_roots|exact Hr].
    + intros (Hx & n & Hn & Hr). right. split; [exact Hx|].
      exists n. split; [now apply depth_one_roots|exact Hr].
  - intros x. rewrite P, L. cbn [In]. tauto.
  - intros x. rewrite P, D. cbn [In]. tauto.
Qed.

End FilterOptionFacts.

(** ** Further runs on the sample data *)

Section MoreSampleRuns.
Import Geo.

(** The sample tree in a new widget. *)
Local Abbreviation loaded :=
  (snd (GeoMapWidget.updateData Sample.noStrings (Some Sample.data)
                                (GeoMapWidget.new None))).

(** No projection is configured: the translation of a zoom request
    falls back to the origin. *)
Local Abbreviation unprojected :=
  (fun (_ _ : Js.value) => @None (float * float)).

(** Level 0 of the sample tree is empty and level 2 is built from
    level 1. *)
Lemma getNodesAtLevel_by_children_witness :
  DataProcessing.getNodesAtLevel (Some Sample.data) 0 = []
  /\ DataProcessing.getNodesAtLevel (Some Sample.data) (1 + 1)
     = flat_map Spec.expand (DataProcessing.getNodesAtLevel (Some Sample.data) 1).
Proof.
  split.
  - apply (proj1 (proj2 (getNodesAtLevel_by_children (Some Sample.data)))). lia.
  - apply (proj2 (proj2 (getNodesAtLevel_by_children (Some Sample.data)))). lia.
Defined.

(** The parent of Paris is France. *)
Lemma getParentNode_first_child_witness :
  In Sample.france (Spec.nodesOf (Some Sample.data))
  /\ exists child, In child (Spec.childrenOf Sample.france)
                   /\ id child = "dc-par".
Proof.
  apply (proj2 (getParentNode_first_child (Some Sample.data) "dc-par")
               Sample.france).
  reflexivity.
Defined.

(** France at level 2 when only Frankfurt is asked for. *)
Lemma filterNode_count_is_calculateCounts_witness :
  (1 <= 2)%Z
  /\ DataProcessing.calculateCounts
       Sample.france (mkFilterSet None None (Some "Frankfurt")) = 0%Z.
Proof.
  split; [lia|].
  apply (filterNode_count_is_calculateCounts
           (mkFilterSet None None (Some "Frankfurt")) 2 Sample.france).
  lia.
Defined.

(** Frankfurt in the sample tree filtered for Frankfurt. *)
Lemma filterData_nodes_from_input_witness :
  exists m, In m (Spec.nodesOf (Some Sample.data))
            /\ "dc-fra" = id m /\ "Frankfurt" = label m
            /\ None = properties m /\ Sample.at_ 8.5 50 = geometry m
            /\ Some 1%Z
               = Some (DataProcessing.calculateCounts
                         m (mkFilterSet None None (Some "Frankfurt"))).
Proof.
  apply (filterData_nodes_from_input
           (Some Sample.data) (mkFilterSet None None (Some "Frankfurt"))
           (mkGeoNode "dc-fra" "Frankfurt" None (Sample.at_ 8.5 50) None
                      (Some 1%Z))).
  vm_compute. right. right. left. reflexivity.
Defined.

(** Europe selected in a new manager is stored under its own id. *)
Lemma selection_ids_unique_witness :
  markerId (withLevel 1 (Sample.markerOf Sample.europe)) = "eu".
Proof.
  apply (proj2 (selection_ids_unique
                  None [Spec.Select (Sample.markerOf Sample.europe) 1 false])
               "eu" (withLevel 1 (Sample.markerOf Sample.europe))).
  left. reflexivity.
Defined.

(** France added to a selection of Germany and removed again. *)
Lemma selectMarker_then_deselectMarker_witness :
  SelectionManager.getSelectedIds
    (snd (SelectionManager.deselectMarker "fr"
            (snd (SelectionManager.selectMarker
                    (Sample.markerOf Sample.france) 2 true
                    (snd (SelectionManager.selectMarker
                            (Sample.markerOf Sample.germany) 2 false
                            (SelectionManager.new None)))))))
  = ["de"].
Proof.
  assert (C : Spec.consistent
                (snd (SelectionManager.selectMarker
                        (Sample.markerOf Sample.germany) 2 false
                        (SelectionManager.new None)))).
  { split.
    - split; discriminate.
    - intros key m [E|[]]. injection E as <- <-. reflexivity. }
  destruct (selectMarker_then_deselectMarker
              (Sample.markerOf Sample.france) 2
              (snd (SelectionManager.selectMarker
                      (Sample.markerOf Sample.germany) 2 false
                      (SelectionManager.new None)))
              C eq_refl eq_refl eq_refl) as [H _].
  unfold SelectionManager.getSelectedIds.
  change (markerId (Sample.markerOf Sample.france)) with "fr" in H.
  rewrite H. reflexivity.
Defined.


(** Frankfurt, a point at longitude 200 and Paris: Paris is within the
    bounds. *)
Lemma calculateBoundingBox_encloses_witness :
  ProjectionUtils.isPointInBounds Sample.noStrings
    (Some [Js.Num 2.25; Js.Num 48.75])
    (ProjectionUtils.calculateBoundingBox
       (Some [[Js.Num 8.5; Js.Num 50]; [Js.Num 200; Js.Num 10];
              [Js.Num 2.25; Js.Num 48.75]]))
  = true.
Proof.
  generalize (calculateBoundingBox_encloses Sample.noStrings
                [[Js.Num 8.5; Js.Num 50]; [Js.Num 200; Js.Num 10];
                 [Js.Num 2.25; Js.Num 48.75]]).
  destruct (ProjectionUtils.calculateBoundingBox _) as [box|] eqn:E.
  - intros [H _]. apply H; [right; right; left; reflexivity|reflexivity].
  - vm_compute in E. discriminate E.
Defined.

(** The first marker that the loaded widget shows, Europe, carries its
    leaf count. *)
Lemma renderMarkers_visible_and_selected_witness :
  _count (hd (Sample.markerOf Sample.europe)
             (GeoMapWidget.visibleMarkers
                (GeoMapWidget.state (GeoMapWidget.renderMarkers loaded))))
  = Some (DataProcessing.calculateCounts
            (node (hd (Sample.markerOf Sample.europe)
                      (GeoMapWidget.visibleMarkers
                         (GeoMapWidget.state
                            (GeoMapWidget.renderMarkers loaded)))))
            (GeoMapWidget.activeFilters (GeoMapWidget.state loaded))).
Proof.
  destruct (proj1 (renderMarkers_visible_and_selected loaded)
                  (hd (Sample.markerOf Sample.europe)
                      (GeoMapWidget.visibleMarkers
                         (GeoMapWidget.state
                            (GeoMapWidget.renderMarkers loaded)))))
    as (_ & _ & H & _); [left; reflexivity|exact H].
Defined.


(** A click on Europe, resolved by the timer at time 500. *)
Lemma single_click_resolution_witness :
  GeoMapWidget.markerClicks
    (GeoMapWidget.clickTimerFires 500
       (GeoMapWidget.handleMarkerClick
          (mkMarker Sample.europe None (Some 1%Z) (Some 2%Z)) false
          (GeoMapWidget.interact loaded)))
  = [(mkMarker Sample.europe None (Some 1%Z) (Some 2%Z), true)].
Proof.
  destruct (single_click_resolution
              (mkMarker Sample.europe None (Some 1%Z) (Some 2%Z)) false 500
              (GeoMapWidget.interact loaded) eq_refl eq_refl)
    as (_ & _ & _ & H).
  destruct H as (_ & H & _); [simpl; lia|exact H].
Defined.


(** A double click on Europe, then the zoom event at scale 3: Germany
    and France are shown. *)
Lemma double_click_drills_down_witness :
  map markerId
    (GeoMapWidget.visibleMarkers
       (GeoMapWidget.state
          (GeoMapWidget.handleZoom (GeoMapWidget.mkTransform 3 0 0)
             (GeoMapWidget.widget
                (fst (GeoMapWidget.handleMarkerDoubleClick unprojected 800 600
                        (mkMarker Sample.europe None (Some 1%Z) (Some 2%Z))
                        (GeoMapWidget.interact loaded)))))))
  = ["de"; "fr"].
Proof.
  assert (N : markerId (mkMarker Sample.europe None (Some 1%Z) (Some 2%Z)) <> "").
  { simpl. discriminate. }
  destruct (double_click_drills_down unprojected 800 600
              (mkMarker Sample.europe None (Some 1%Z) (Some 2%Z))
              (GeoMapWidget.interact loaded)
              (mkGeometry (Some [Js.Num 15.25; Js.Num 54.5]))
              [Js.Num 15.25; Js.Num 54.5]
              (GeoMapWidget.mkTransform 3 0 0)
              eq_refl eq_refl (or_introl eq_refl) eq_refl eq_refl eq_refl
              N eq_refl)
    as (_ & _ & _ & _ & _ & H).
  rewrite H. reflexivity.
Defined.

(** The locations of the sample tree, whatever the order: here the
    sort is a reversal. *)
Lemma extractFilterOptions_values_witness :
  In "Germany"
     (DataProcessing.locations
        (DataProcessing.extractFilterOptions (@rev string) (Some Sample.data))).
Proof.
  destruct (extractFilterOptions_values (@rev string) (Some Sample.data))
    as (rs & ls & ds & E & _ & _ & _ & _ & L & _).
  - intros l. apply Permutation_sym, Permutation_rev.
  - rewrite E. right. apply L. exists Sample.germany. split; [|reflexivity].
    vm_compute. right. left. reflexivity.
Defined.

End MoreSampleRuns.
